(** * claude-mem: work queue, session store and replication fan-out

    A shallow embedding of
    - [src/services/postgres/PostgresPendingMessageStore.ts] (module [Queue]),
    - [src/services/postgres/PostgresSessionStore.ts] together with the
      schema of [src/services/postgres/migrations.ts] (module [Sessions]),
    - [src/shared/replication-utils.ts] (module [Replication]).

    SQL tables are finite maps keyed by their primary key (the queue, whose
    statements address rows by id) or lists of rows in insertion order (the
    session tables, whose statements scan, order and limit).  [Date.now()]
    is an explicit argument of every operation that reads the clock. *)

From stdpp Require Import gmap strings list sorting.

Open Scope Z_scope.

(** SQL comparison of a nullable column with a value: a NULL operand makes
    the comparison unknown, and a [WHERE] clause keeps a row only when its
    condition is true. *)
Definition sql_lt (column : option Z) (bound : Z) : bool :=
  match column with
  | Some v => v <? bound
  | None => false
  end.

Definition sql_eq_str (column value : option string) : bool :=
  match column, value with
  | Some a, Some b => bool_decide (a = b)
  | _, _ => false
  end.

(** JavaScript [x || null] on an optional string: the empty string is falsy. *)
Definition js_or_null_str (x : option string) : option string :=
  match x with
  | Some s => if bool_decide (s = "") then None else Some s
  | None => None
  end.

(** JavaScript [x || null] on an optional number: zero is falsy. *)
Definition js_or_null_num (x : option Z) : option Z :=
  match x with
  | Some n => if n =? 0 then None else Some n
  | None => None
  end.

(** JavaScript [x || 0] on a number. *)
Definition js_or_zero (x : Z) : Z := if x =? 0 then 0 else x.

(* ===================================================================== *)
(** * The work queue: PostgresPendingMessageStore                         *)
(* ===================================================================== *)

Module Queue.

(** [status TEXT CHECK(status IN ('pending','processing','processed','failed'))] *)
Inductive Status := pending | processing | processed | failed.

(** [message_type TEXT CHECK(message_type IN ('observation','summarize'))] *)
Inductive MessageType := observation | summarize.

#[global] Instance Status_eq_dec : EqDecision Status.
Proof. solve_decision. Defined.

#[global] Instance MessageType_eq_dec : EqDecision MessageType.
Proof. solve_decision. Defined.

(** One row of [pending_messages]; the primary key [id] is the key of the
    table map below. *)
Record PersistentPendingMessage := {
  session_db_id : Z;
  claude_session_id : string;
  message_type : MessageType;
  tool_name : option string;
  tool_input : option string;
  tool_response : option string;
  cwd : option string;
  last_user_message : option string;
  last_assistant_message : option string;
  prompt_number : option Z;
  status : Status;
  retry_count : Z;
  created_at_epoch : Z;
  started_processing_at_epoch : option Z;
  completed_at_epoch : option Z
}.

(** The in-memory message handed to [enqueue].  [tool_input] and
    [tool_response] are the JSON texts that [JSON.stringify] yields for the
    values; an absent (falsy) value is [None]. *)
Record PendingMessage := {
  pm_type : MessageType;
  pm_tool_name : option string;
  pm_tool_input : option string;
  pm_tool_response : option string;
  pm_prompt_number : option Z;
  pm_cwd : option string;
  pm_last_user_message : option string;
  pm_last_assistant_message : option string
}.

(** The table [pending_messages]. *)
Abbreviation table := (gmap Z PersistentPendingMessage).

(** ** Column assignments of the [SET] clauses *)

Definition set_status (s : Status) (r : PersistentPendingMessage) :=
  {| session_db_id := session_db_id r; claude_session_id := claude_session_id r;
     message_type := message_type r; tool_name := tool_name r;
     tool_input := tool_input r; tool_response := tool_response r;
     cwd := cwd r; last_user_message := last_user_message r;
     last_assistant_message := last_assistant_message r;
     prompt_number := prompt_number r; status := s;
     retry_count := retry_count r; created_at_epoch := created_at_epoch r;
     started_processing_at_epoch := started_processing_at_epoch r;
     completed_at_epoch := completed_at_epoch r |}.

Definition set_retry_count (n : Z) (r : PersistentPendingMessage) :=
  {| session_db_id := session_db_id r; claude_session_id := claude_session_id r;
     message_type := message_type r; tool_name := tool_name r;
     tool_input := tool_input r; tool_response := tool_response r;
     cwd := cwd r; last_user_message := last_user_message r;
     last_assistant_message := last_assistant_message r;
     prompt_number := prompt_number r; status := status r;
     retry_count := n; created_at_epoch := created_at_epoch r;
     started_processing_at_epoch := started_processing_at_epoch r;
     completed_at_epoch := completed_at_epoch r |}.

Definition set_started_processing_at_epoch (t : option Z) (r : PersistentPendingMessage) :=
  {| session_db_id := session_db_id r; claude_session_id := claude_session_id r;
     message_type := message_type r; tool_name := tool_name r;
     tool_input := tool_input r; tool_response := tool_response r;
     cwd := cwd r; last_user_message := last_user_message r;
     last_assistant_message := last_assistant_message r;
     prompt_number := prompt_number r; status := status r;
     retry_count := retry_count r; created_at_epoch := created_at_epoch r;
     started_processing_at_epoch := t;
     completed_at_epoch := completed_at_epoch r |}.

Definition set_completed_at_epoch (t : option Z) (r : PersistentPendingMessage) :=
  {| session_db_id := session_db_id r; claude_session_id := claude_session_id r;
     message_type := message_type r; tool_name := tool_name r;
     tool_input := tool_input r; tool_response := tool_response r;
     cwd := cwd r; last_user_message := last_user_message r;
     last_assistant_message := last_assistant_message r;
     prompt_number := prompt_number r; status := status r;
     retry_count := retry_count r; created_at_epoch := created_at_epoch r;
     started_processing_at_epoch := started_processing_at_epoch r;
     completed_at_epoch := t |}.

Definition set_tool_input (v : option string) (r : PersistentPendingMessage) :=
  {| session_db_id := session_db_id r; claude_session_id := claude_session_id r;
     message_type := message_type r; tool_name := tool_name r;
     tool_input := v; tool_response := tool_response r;
     cwd := cwd r; last_user_message := last_user_message r;
     last_assistant_message := last_assistant_message r;
     prompt_number := prompt_number r; status := status r;
     retry_count := retry_count r; created_at_epoch := created_at_epoch r;
     started_processing_at_epoch := started_processing_at_epoch r;
     completed_at_epoch := completed_at_epoch r |}.

Definition set_tool_response (v : option string) (r : PersistentPendingMessage) :=
  {| session_db_id := session_db_id r; claude_session_id := claude_session_id r;
     message_type := message_type r; tool_name := tool_name r;
     tool_input := tool_input r; tool_response := v;
     cwd := cwd r; last_user_message := last_user_message r;
     last_assistant_message := last_assistant_message r;
     prompt_number := prompt_number r; status := status r;
     retry_count := retry_count r; created_at_epoch := created_at_epoch r;
     started_processing_at_epoch := started_processing_at_epoch r;
     completed_at_epoch := completed_at_epoch r |}.

(** ** The statement forms *)

(** [UPDATE pending_messages SET set WHERE cond]: every row satisfying
    [cond] is replaced by [set row]; [rowCount] is the number of such rows. *)
Definition update_where (cond : Z → PersistentPendingMessage → bool)
    (set : PersistentPendingMessage → PersistentPendingMessage) (t : table) : table :=
  map_imap (λ id r, Some (if cond id r then set r else r)) t.

Definition row_count (cond : Z → PersistentPendingMessage → bool) (t : table) : Z :=
  Z.of_nat (size (filter (λ kr, cond kr.1 kr.2 = true) t)).

(** [DELETE FROM pending_messages WHERE cond]. *)
Definition delete_where (cond : Z → PersistentPendingMessage → bool) (t : table) : table :=
  filter (λ kr, cond kr.1 kr.2 = false) t.

Definition status_in (l : list Status) (r : PersistentPendingMessage) : bool :=
  bool_decide (status r ∈ l).

(** ** The operations *)

(** [enqueue]: the row gets its id from the table's sequence ([serial] is
    the sequence's next value); a key already present is a primary-key
    violation, reported as [None] with no row written.  The foreign key of
    [session_db_id] points into [sdk_sessions], a table of the session
    store, and is not checked by this table-local model. *)
Definition enqueue (serial now sessionDbId : Z) (claudeSessionId : string)
    (message : PendingMessage) (t : table) : option (Z * table) :=
  match t !! serial with
  | Some _ => None
  | None =>
      Some (serial,
            <[serial :=
               {| session_db_id := sessionDbId;
                  claude_session_id := claudeSessionId;
                  message_type := pm_type message;
                  tool_name := js_or_null_str (pm_tool_name message);
                  tool_input := pm_tool_input message;
                  tool_response := pm_tool_response message;
                  cwd := js_or_null_str (pm_cwd message);
                  last_user_message := js_or_null_str (pm_last_user_message message);
                  last_assistant_message := js_or_null_str (pm_last_assistant_message message);
                  prompt_number := js_or_null_num (pm_prompt_number message);
                  status := pending;
                  retry_count := 0;
                  created_at_epoch := now;
                  started_processing_at_epoch := None;
                  completed_at_epoch := None |}]> t)
  end.

Definition retryMessage (messageId : Z) (t : table) : bool * table :=
  let cond := λ id r, bool_decide (id = messageId) && status_in [pending; processing; failed] r in
  (0 <? row_count cond t,
   update_where cond (λ r, set_started_processing_at_epoch None (set_status pending r)) t).

Definition resetProcessingToPending (sessionDbId : Z) (t : table) : Z * table :=
  let cond := λ (_ : Z) r,
    bool_decide (session_db_id r = sessionDbId) && bool_decide (status r = processing) in
  (row_count cond t,
   update_where cond (λ r, set_started_processing_at_epoch None (set_status pending r)) t).

Definition abortMessage (messageId : Z) (t : table) : bool * table :=
  let cond := λ id (_ : PersistentPendingMessage), bool_decide (id = messageId) in
  (0 <? row_count cond t, delete_where cond t).

Definition retryAllStuck (now thresholdMs : Z) (t : table) : Z * table :=
  let cutoff := now - thresholdMs in
  let cond := λ (_ : Z) r,
    bool_decide (status r = processing) && sql_lt (started_processing_at_epoch r) cutoff in
  (row_count cond t,
   update_where cond (λ r, set_started_processing_at_epoch None (set_status pending r)) t).

Definition markProcessing (now messageId : Z) (t : table) : table :=
  update_where
    (λ id r, bool_decide (id = messageId) && bool_decide (status r = pending))
    (λ r, set_started_processing_at_epoch (Some now) (set_status processing r)) t.

Definition markProcessed (now messageId : Z) (t : table) : table :=
  update_where
    (λ id r, bool_decide (id = messageId) && bool_decide (status r = processing))
    (λ r, set_tool_response None (set_tool_input None
            (set_completed_at_epoch (Some now) (set_status processed r)))) t.

Definition markFailed (maxRetries now messageId : Z) (t : table) : table :=
  match t !! messageId with
  | None => t
  | Some msg =>
      if retry_count msg <? maxRetries then
        update_where (λ id _, bool_decide (id = messageId))
          (λ r, set_started_processing_at_epoch None
                  (set_retry_count (retry_count r + 1) (set_status pending r))) t
      else
        update_where (λ id _, bool_decide (id = messageId))
          (λ r, set_completed_at_epoch (Some now) (set_status failed r)) t
  end.

Definition resetStuckMessages (now thresholdMs : Z) (t : table) : Z * table :=
  let cutoff := if thresholdMs =? 0 then now else now - thresholdMs in
  let cond := λ (_ : Z) r,
    bool_decide (status r = processing) && sql_lt (started_processing_at_epoch r) cutoff in
  (row_count cond t,
   update_where cond (λ r, set_started_processing_at_epoch None (set_status pending r)) t).

(** [getStuckCount]: [SELECT COUNT( * ) ... WHERE status = 'processing' AND
    started_processing_at_epoch < cutoff]. *)
Definition getStuckCount (now thresholdMs : Z) (t : table) : Z :=
  let cutoff := now - thresholdMs in
  row_count (λ (_ : Z) r,
    bool_decide (status r = processing) && sql_lt (started_processing_at_epoch r) cutoff) t.

(** One failed processing attempt: the worker claims the job, then reports
    the failure. *)
Definition fail_once (maxRetries messageId : Z) (t : table) (now : Z) : table :=
  markFailed maxRetries now messageId (markProcessing now messageId t).

(** Failed attempts in sequence, one per clock reading in [clock]. *)
Definition fail_repeatedly (maxRetries messageId : Z) (clock : list Z) (t : table) : table :=
  foldl (fail_once maxRetries messageId) t clock.

(** The mutating operations on existing rows, as commands, so that
    sequences of them can be quantified over. *)
Inductive Op :=
  | MarkProcessing (now messageId : Z)
  | MarkProcessed (now messageId : Z)
  | MarkFailed (now messageId : Z)
  | RetryMessage (messageId : Z)
  | ResetProcessingToPending (sessionDbId : Z)
  | RetryAllStuck (now thresholdMs : Z)
  | ResetStuckMessages (now thresholdMs : Z)
  | AbortMessage (messageId : Z).

Definition apply_op (maxRetries : Z) (t : table) (op : Op) : table :=
  match op with
  | MarkProcessing now messageId => markProcessing now messageId t
  | MarkProcessed now messageId => markProcessed now messageId t
  | MarkFailed now messageId => markFailed maxRetries now messageId t
  | RetryMessage messageId => (retryMessage messageId t).2
  | ResetProcessingToPending sessionDbId => (resetProcessingToPending sessionDbId t).2
  | RetryAllStuck now thresholdMs => (retryAllStuck now thresholdMs t).2
  | ResetStuckMessages now thresholdMs => (resetStuckMessages now thresholdMs t).2
  | AbortMessage messageId => (abortMessage messageId t).2
  end.

Definition run (maxRetries : Z) (ops : list Op) (t : table) : table :=
  foldl (apply_op maxRetries) t ops.

(** The transient payload columns. *)
Definition payload (r : PersistentPendingMessage) : option string * option string :=
  (tool_input r, tool_response r).

(** What the claims observe of a job: its status and retry counter. *)
Definition job_state (t : table) (messageId : Z) : option (Status * Z) :=
  (λ r, (status r, retry_count r)) <$> t !! messageId.


(** ** Queries *)

(** [SELECT * FROM pending_messages WHERE cond]: the matching rows with
    their ids, in no particular order. *)
Definition select_where (cond : Z → PersistentPendingMessage → bool) (t : table)
    : list (Z * PersistentPendingMessage) :=
  filter (λ kr, cond kr.1 kr.2 = true) (map_to_list t).

(** [ORDER BY key ASC] on a NOT NULL integer column (or the id). *)
Definition order_asc (key : Z * PersistentPendingMessage → Z)
    (selected : list (Z * PersistentPendingMessage)) : list (Z * PersistentPendingMessage) :=
  @merge_sort _ (λ a b, key a ≤ key b) (λ a b, decide (key a ≤ key b)) selected.

(** The order of [ORDER BY column DESC] on a nullable column: NULLs come
    first, then larger values before smaller ones. *)
Definition desc_nulls_first (a b : option Z) : Prop :=
  match a, b with
  | None, _ => True
  | Some _, None => False
  | Some x, Some y => y ≤ x
  end.

#[global] Instance desc_nulls_first_dec a b : Decision (desc_nulls_first a b).
Proof. destruct a, b; simpl; apply _. Defined.


Definition getAllPending (sessionDbId : Z) (t : table)
    : list (Z * PersistentPendingMessage) :=
  order_asc fst
    (select_where (λ _ r, bool_decide (session_db_id r = sessionDbId)
                          && bool_decide (status r = pending)) t).

(** [LIMIT 1], then [result.rows[0] || null]. *)
Definition peekPending (sessionDbId : Z) (t : table)
    : option (Z * PersistentPendingMessage) :=
  head (take 1
    (order_asc fst
       (select_where (λ _ r, bool_decide (session_db_id r = sessionDbId)
                             && bool_decide (status r = pending)) t))).

Definition getPendingCount (sessionDbId : Z) (t : table) : Z :=
  row_count (λ _ r, bool_decide (session_db_id r = sessionDbId)
                    && status_in [pending; processing] r) t.

Definition hasAnyPendingWork (t : table) : bool :=
  0 <? row_count (λ _ r, status_in [pending; processing] r) t.

(** [SELECT DISTINCT session_db_id ...]: each session once. *)
Definition getSessionsWithPendingMessages (t : table) : list Z :=
  remove_dups
    (map (λ kr, session_db_id kr.2)
         (select_where (λ _ r, status_in [pending; processing] r) t)).

Definition getSessionInfoForMessage (messageId : Z) (t : table) : option (Z * string) :=
  match t !! messageId with
  | Some row => Some (session_db_id row, claude_session_id row)
  | None => None
  end.

(** The sort key of [getQueueMessages]: the [CASE] on the status, then the
    creation time. *)
Definition status_rank (s : Status) : Z :=
  match s with
  | failed => 0
  | processing => 1
  | pending => 2
  | processed => 3
  end.

Definition queue_order (a b : Z * PersistentPendingMessage) : Prop :=
  status_rank (status a.2) < status_rank (status b.2)
  ∨ (status_rank (status a.2) = status_rank (status b.2)
     ∧ created_at_epoch a.2 ≤ created_at_epoch b.2).

#[global] Instance queue_order_dec a b : Decision (queue_order a b).
Proof. unfold queue_order. apply _. Defined.

(** [getQueueMessages]: [project_of] is what the [LEFT JOIN] on
    [sdk_sessions] yields for a [claude_session_id] (NULL without a
    session row). *)
Definition getQueueMessages (project_of : string → option string) (t : table)
    : list (Z * PersistentPendingMessage * option string) :=
  map (λ kr, (kr, project_of (claude_session_id kr.2)))
    (merge_sort queue_order
       (select_where (λ _ r, status_in [pending; processing; failed] r) t)).


(** The columns that only [enqueue] writes. *)
Definition written_once (r : PersistentPendingMessage) :=
  (session_db_id r, claude_session_id r, message_type r, tool_name r, cwd r,
   last_user_message r, last_assistant_message r, prompt_number r, created_at_epoch r).

End Queue.

(* ===================================================================== *)
(** * The session store: PostgresSessionStore over the migration schema   *)
(* ===================================================================== *)

Module Sessions.

(** Errors with which a statement is rejected; the promise returned by
    [query] then rejects and no row is written.  [data_exception] is the
    rejection of a text that is not a value of the type of its column,
    [undefined_function] that of a comparison for which the server has no
    operator. *)
Inductive DbError :=
  | unique_violation
  | foreign_key_violation
  | check_violation
  | invalid_row_count
  | data_exception
  | undefined_function.

Inductive Result (A : Type) :=
  | Ok (a : A)
  | Err (e : DbError).
Arguments Ok {A} a.
Arguments Err {A} e.

(** Statements run in sequence: the first rejection ends the call. *)
#[global] Instance Result_ret : MRet Result := λ A a, Ok a.
#[global] Instance Result_bind : MBind Result :=
  λ A B f r, match r with Ok a => f a | Err e => Err e end.

(** ** Typed columns *)

(** The value of a JSONB column, which is also what the driver hands back
    when the column is read. *)
#[warnings="-register-all"]
Inductive Json :=
  | JNull
  | JBool (b : bool)
  | JNumber (decimal : string)
  | JString (s : string)
  | JArray (elements : list Json)
  | JObject (members : list (string * Json)).

(** What the server stores for the text [JSON.stringify] writes for an
    array of strings: that array. *)
Definition json_of_strings (xs : list string) : Json := JArray (JString <$> xs).

(** How the server reads a text bound to a parameter of a typed column:
    the value it stores, or [None] when the text is not of the type, in
    which case the statement is rejected before anything is written.  A
    TIMESTAMPTZ value is an instant; it is written here as the text
    [toISOString] gives for that instant. *)
Record Server := {
  jsonb_in : string → option Json;
  timestamptz_in : string → option string
}.

(** A nullable text bound to a JSONB column. *)
Definition bind_jsonb (srv : Server) (text : option string) : Result (option Json) :=
  match text with
  | None => Ok None
  | Some t =>
      match jsonb_in srv t with
      | Some value => Ok (Some value)
      | None => Err data_exception
      end
  end.

(** A text bound to a TIMESTAMPTZ column. *)
Definition bind_timestamptz (srv : Server) (text : string) : Result string :=
  match timestamptz_in srv text with
  | Some instant => Ok instant
  | None => Err data_exception
  end.

Definition bind_timestamptz_null (srv : Server) (text : option string)
    : Result (option string) :=
  match text with
  | None => Ok None
  | Some t => instant ← bind_timestamptz srv t; Ok (Some instant)
  end.

(** ** Rows, after [CREATE TABLE] in migration 1.  A JSONB column holds a
    JSON value.  A TIMESTAMPTZ column holds an instant: the code writes it
    with [now.toISOString()] or, on import, with what the server reads from
    the text of the export file.  The derived [search_vector] column is
    left out. *)

Record SdkSession := {
  s_id : Z;
  s_claude_session_id : string;
  s_sdk_session_id : option string;
  s_project : string;
  s_user_id : option string;
  s_user_prompt : option string;
  s_started_at : string;
  s_started_at_epoch : Z;
  s_completed_at : option string;
  s_completed_at_epoch : option Z;
  s_status : string;
  s_worker_port : option Z;
  s_prompt_counter : option Z
}.

Record Observation := {
  o_id : Z;
  o_sdk_session_id : string;
  o_project : string;
  o_user_id : option string;
  o_text : option string;
  o_type : string;
  o_title : option string;
  o_subtitle : option string;
  o_facts : option Json;
  o_narrative : option string;
  o_concepts : option Json;
  o_files_read : option Json;
  o_files_modified : option Json;
  o_prompt_number : option Z;
  o_discovery_tokens : Z;
  o_created_at : string;
  o_created_at_epoch : Z
}.

Record SessionSummary := {
  m_id : Z;
  m_sdk_session_id : string;
  m_project : string;
  m_user_id : option string;
  m_request : option string;
  m_investigated : option string;
  m_learned : option string;
  m_completed : option string;
  m_next_steps : option string;
  m_files_read : option Json;
  m_files_edited : option Json;
  m_notes : option string;
  m_prompt_number : option Z;
  m_discovery_tokens : Z;
  m_created_at : string;
  m_created_at_epoch : Z
}.

Record UserPrompt := {
  p_id : Z;
  p_claude_session_id : string;
  p_user_id : option string;
  p_prompt_number : Z;
  p_prompt_text : string;
  p_created_at : string;
  p_created_at_epoch : Z
}.

(** The database: four tables, each with the sequence behind its
    [SERIAL PRIMARY KEY]. *)
Record DB := {
  sdk_sessions : list SdkSession;
  sdk_sessions_id_seq : Z;
  observations : list Observation;
  observations_id_seq : Z;
  session_summaries : list SessionSummary;
  session_summaries_id_seq : Z;
  user_prompts : list UserPrompt;
  user_prompts_id_seq : Z
}.

Definition empty_db : DB :=
  {| sdk_sessions := []; sdk_sessions_id_seq := 1;
     observations := []; observations_id_seq := 1;
     session_summaries := []; session_summaries_id_seq := 1;
     user_prompts := []; user_prompts_id_seq := 1 |}.

Definition with_sdk_sessions (rows : list SdkSession) (seq : Z) (db : DB) : DB :=
  {| sdk_sessions := rows; sdk_sessions_id_seq := seq;
     observations := observations db; observations_id_seq := observations_id_seq db;
     session_summaries := session_summaries db;
     session_summaries_id_seq := session_summaries_id_seq db;
     user_prompts := user_prompts db; user_prompts_id_seq := user_prompts_id_seq db |}.

Definition with_observations (rows : list Observation) (seq : Z) (db : DB) : DB :=
  {| sdk_sessions := sdk_sessions db; sdk_sessions_id_seq := sdk_sessions_id_seq db;
     observations := rows; observations_id_seq := seq;
     session_summaries := session_summaries db;
     session_summaries_id_seq := session_summaries_id_seq db;
     user_prompts := user_prompts db; user_prompts_id_seq := user_prompts_id_seq db |}.

Definition with_session_summaries (rows : list SessionSummary) (seq : Z) (db : DB) : DB :=
  {| sdk_sessions := sdk_sessions db; sdk_sessions_id_seq := sdk_sessions_id_seq db;
     observations := observations db; observations_id_seq := observations_id_seq db;
     session_summaries := rows; session_summaries_id_seq := seq;
     user_prompts := user_prompts db; user_prompts_id_seq := user_prompts_id_seq db |}.

Definition with_user_prompts (rows : list UserPrompt) (seq : Z) (db : DB) : DB :=
  {| sdk_sessions := sdk_sessions db; sdk_sessions_id_seq := sdk_sessions_id_seq db;
     observations := observations db; observations_id_seq := observations_id_seq db;
     session_summaries := session_summaries db;
     session_summaries_id_seq := session_summaries_id_seq db;
     user_prompts := rows; user_prompts_id_seq := seq |}.

(** ** Constraints of the schema *)

(** [status TEXT CHECK(status IN ('active', 'completed', 'failed'))] *)
Definition session_status_ok (st : string) : bool :=
  bool_decide (st ∈ ["active"; "completed"; "failed"]).

(** [type TEXT NOT NULL CHECK(type IN (...))] *)
Definition observation_type_ok (ty : string) : bool :=
  bool_decide (ty ∈ ["decision"; "bugfix"; "feature"; "refactor"; "discovery"; "change"]).

(** [REFERENCES sdk_sessions(sdk_session_id)] *)
Definition sdk_session_id_exists (sid : string) (db : DB) : bool :=
  existsb (λ s, bool_decide (s_sdk_session_id s = Some sid)) (sdk_sessions db).

(** [REFERENCES sdk_sessions(claude_session_id)] *)
Definition claude_session_id_exists (cid : string) (db : DB) : bool :=
  existsb (λ s, bool_decide (s_claude_session_id s = cid)) (sdk_sessions db).

(** [INSERT INTO sdk_sessions ... RETURNING id]: the CHECK on [status], the
    primary key, [claude_session_id UNIQUE] and [sdk_session_id UNIQUE]
    (NULLs never collide). *)
Definition insert_sdk_session (row : Z → SdkSession) (db : DB) : Result (Z * DB) :=
  let id := sdk_sessions_id_seq db in
  let r := row id in
  if negb (session_status_ok (s_status r)) then Err check_violation
  else if existsb (λ s, bool_decide (s_id s = id)) (sdk_sessions db) then Err unique_violation
  else if claude_session_id_exists (s_claude_session_id r) db then Err unique_violation
  else if existsb (λ s, sql_eq_str (s_sdk_session_id s) (s_sdk_session_id r)) (sdk_sessions db)
       then Err unique_violation
  else Ok (id, with_sdk_sessions (sdk_sessions db ++ [r]) (id + 1) db).

Definition insert_observation (row : Z → Observation) (db : DB) : Result (Z * DB) :=
  let id := observations_id_seq db in
  let r := row id in
  if negb (observation_type_ok (o_type r)) then Err check_violation
  else if existsb (λ o, bool_decide (o_id o = id)) (observations db) then Err unique_violation
  else if negb (sdk_session_id_exists (o_sdk_session_id r) db) then Err foreign_key_violation
  else Ok (id, with_observations (observations db ++ [r]) (id + 1) db).

Definition insert_session_summary (row : Z → SessionSummary) (db : DB) : Result (Z * DB) :=
  let id := session_summaries_id_seq db in
  let r := row id in
  if existsb (λ m, bool_decide (m_id m = id)) (session_summaries db) then Err unique_violation
  else if negb (sdk_session_id_exists (m_sdk_session_id r) db) then Err foreign_key_violation
  else Ok (id, with_session_summaries (session_summaries db ++ [r]) (id + 1) db).

Definition insert_user_prompt (row : Z → UserPrompt) (db : DB) : Result (Z * DB) :=
  let id := user_prompts_id_seq db in
  let r := row id in
  if existsb (λ p, bool_decide (p_id p = id)) (user_prompts db) then Err unique_violation
  else if negb (claude_session_id_exists (p_claude_session_id r) db) then Err foreign_key_violation
  else Ok (id, with_user_prompts (user_prompts db ++ [r]) (id + 1) db).

(** ** createSDKSession *)

Definition set_project_and_prompt (project : string) (userPrompt : option string)
    (s : SdkSession) : SdkSession :=
  {| s_id := s_id s; s_claude_session_id := s_claude_session_id s;
     s_sdk_session_id := s_sdk_session_id s; s_project := project;
     s_user_id := s_user_id s; s_user_prompt := userPrompt;
     s_started_at := s_started_at s; s_started_at_epoch := s_started_at_epoch s;
     s_completed_at := s_completed_at s;
     s_completed_at_epoch := s_completed_at_epoch s; s_status := s_status s;
     s_worker_port := s_worker_port s; s_prompt_counter := s_prompt_counter s |}.

(** The [DO UPDATE SET] clause of the upsert, applied to the conflicting
    row with the proposed ([EXCLUDED]) project and prompt. *)
Definition on_conflict_update (project userPrompt : string) (s : SdkSession) : SdkSession :=
  set_project_and_prompt
    (if bool_decide (s_project s = "") then project else s_project s)
    (Some userPrompt) s.

(** [nowIso] and [nowEpoch] are [now.toISOString()] and [now.getTime()];
    [userId] is what [getUserId()] returns.  The row proposed for insertion
    takes its id from the sequence before the conflict is looked for, so
    the upsert of a known session uses up a sequence value as well. *)
Definition createSDKSession (nowIso : string) (nowEpoch : Z) (userId : string)
    (claudeSessionId project userPrompt : string) (db : DB) : Result (Z * DB) :=
  match find (λ s, bool_decide (s_claude_session_id s = claudeSessionId)) (sdk_sessions db) with
  | Some existing =>
      Ok (s_id existing,
          with_sdk_sessions
            (map (λ s, if bool_decide (s_claude_session_id s = claudeSessionId)
                       then on_conflict_update project userPrompt s else s)
                 (sdk_sessions db))
            (sdk_sessions_id_seq db + 1) db)
  | None =>
      insert_sdk_session
        (λ id, {| s_id := id; s_claude_session_id := claudeSessionId;
                  s_sdk_session_id := Some claudeSessionId; s_project := project;
                  s_user_id := Some userId; s_user_prompt := Some userPrompt;
                  s_started_at := nowIso; s_started_at_epoch := nowEpoch;
                  s_completed_at := None; s_completed_at_epoch := None;
                  s_status := "active"; s_worker_port := None;
                  s_prompt_counter := Some 0 |}) db
  end.

(** ** Import operations *)

Record ImportResult := { imported : bool; id : Z }.

Record SdkSessionInput := {
  si_claude_session_id : string;
  si_sdk_session_id : string;
  si_project : string;
  si_user_prompt : string;
  si_started_at : string;
  si_started_at_epoch : Z;
  si_completed_at : option string;
  si_completed_at_epoch : option Z;
  si_status : string
}.

Record SessionSummaryInput := {
  mi_sdk_session_id : string;
  mi_project : string;
  mi_request : option string;
  mi_investigated : option string;
  mi_learned : option string;
  mi_completed : option string;
  mi_next_steps : option string;
  mi_files_read : option string;
  mi_files_edited : option string;
  mi_notes : option string;
  mi_prompt_number : option Z;
  mi_discovery_tokens : Z;
  mi_created_at : string;
  mi_created_at_epoch : Z
}.

Record ObservationInput := {
  oi_sdk_session_id : string;
  oi_project : string;
  oi_text : option string;
  oi_type : string;
  oi_title : option string;
  oi_subtitle : option string;
  oi_facts : option string;
  oi_narrative : option string;
  oi_concepts : option string;
  oi_files_read : option string;
  oi_files_modified : option string;
  oi_prompt_number : option Z;
  oi_discovery_tokens : Z;
  oi_created_at : string;
  oi_created_at_epoch : Z
}.

Record UserPromptInput := {
  pi_claude_session_id : string;
  pi_prompt_number : Z;
  pi_prompt_text : string;
  pi_created_at : string;
  pi_created_at_epoch : Z
}.

(** The import operations pass the texts of an export file on to the
    server [srv], which reads those bound to typed columns.
    [existing.rows[0]] of a [SELECT id ... WHERE cond] is the first matching
    row in table order, if any. *)
Definition importSdkSession (srv : Server) (session : SdkSessionInput) (db : DB)
    : Result (ImportResult * DB) :=
  match find (λ s, bool_decide (s_claude_session_id s = si_claude_session_id session))
             (sdk_sessions db) with
  | Some existing => Ok ({| imported := false; id := s_id existing |}, db)
  | None =>
      started_at ← bind_timestamptz srv (si_started_at session);
      completed_at ← bind_timestamptz_null srv (si_completed_at session);
      inserted ← insert_sdk_session
              (λ id, {| s_id := id;
                        s_claude_session_id := si_claude_session_id session;
                        s_sdk_session_id := Some (si_sdk_session_id session);
                        s_project := si_project session;
                        s_user_id := None;
                        s_user_prompt := Some (si_user_prompt session);
                        s_started_at := started_at;
                        s_started_at_epoch := si_started_at_epoch session;
                        s_completed_at := completed_at;
                        s_completed_at_epoch := si_completed_at_epoch session;
                        s_status := si_status session;
                        s_worker_port := None;
                        s_prompt_counter := Some 0 |}) db;
      Ok ({| imported := true; id := inserted.1 |}, inserted.2)
  end.

Definition importSessionSummary (srv : Server) (summary : SessionSummaryInput) (db : DB)
    : Result (ImportResult * DB) :=
  match find (λ m, bool_decide (m_sdk_session_id m = mi_sdk_session_id summary))
             (session_summaries db) with
  | Some existing => Ok ({| imported := false; id := m_id existing |}, db)
  | None =>
      files_read ← bind_jsonb srv (mi_files_read summary);
      files_edited ← bind_jsonb srv (mi_files_edited summary);
      created_at ← bind_timestamptz srv (mi_created_at summary);
      inserted ← insert_session_summary
              (λ id, {| m_id := id;
                        m_sdk_session_id := mi_sdk_session_id summary;
                        m_project := mi_project summary;
                        m_user_id := None;
                        m_request := mi_request summary;
                        m_investigated := mi_investigated summary;
                        m_learned := mi_learned summary;
                        m_completed := mi_completed summary;
                        m_next_steps := mi_next_steps summary;
                        m_files_read := files_read;
                        m_files_edited := files_edited;
                        m_notes := mi_notes summary;
                        m_prompt_number := mi_prompt_number summary;
                        m_discovery_tokens := js_or_zero (mi_discovery_tokens summary);
                        m_created_at := created_at;
                        m_created_at_epoch := mi_created_at_epoch summary |}) db;
      Ok ({| imported := true; id := inserted.1 |}, inserted.2)
  end.

(** The natural-key test compares [title] with the parameter by SQL [=];
    [obs.title] may be [null]. *)
Definition importObservation (srv : Server) (obs : ObservationInput) (db : DB)
    : Result (ImportResult * DB) :=
  match find (λ o, bool_decide (o_sdk_session_id o = oi_sdk_session_id obs)
                   && sql_eq_str (o_title o) (oi_title obs)
                   && bool_decide (o_created_at_epoch o = oi_created_at_epoch obs))
             (observations db) with
  | Some existing => Ok ({| imported := false; id := o_id existing |}, db)
  | None =>
      facts ← bind_jsonb srv (oi_facts obs);
      concepts ← bind_jsonb srv (oi_concepts obs);
      files_read ← bind_jsonb srv (oi_files_read obs);
      files_modified ← bind_jsonb srv (oi_files_modified obs);
      created_at ← bind_timestamptz srv (oi_created_at obs);
      inserted ← insert_observation
              (λ id, {| o_id := id;
                        o_sdk_session_id := oi_sdk_session_id obs;
                        o_project := oi_project obs;
                        o_user_id := None;
                        o_text := oi_text obs;
                        o_type := oi_type obs;
                        o_title := oi_title obs;
                        o_subtitle := oi_subtitle obs;
                        o_facts := facts;
                        o_narrative := oi_narrative obs;
                        o_concepts := concepts;
                        o_files_read := files_read;
                        o_files_modified := files_modified;
                        o_prompt_number := oi_prompt_number obs;
                        o_discovery_tokens := js_or_zero (oi_discovery_tokens obs);
                        o_created_at := created_at;
                        o_created_at_epoch := oi_created_at_epoch obs |}) db;
      Ok ({| imported := true; id := inserted.1 |}, inserted.2)
  end.

Definition importUserPrompt (srv : Server) (prompt : UserPromptInput) (db : DB)
    : Result (ImportResult * DB) :=
  match find (λ p, bool_decide (p_claude_session_id p = pi_claude_session_id prompt)
                   && bool_decide (p_prompt_number p = pi_prompt_number prompt))
             (user_prompts db) with
  | Some existing => Ok ({| imported := false; id := p_id existing |}, db)
  | None =>
      created_at ← bind_timestamptz srv (pi_created_at prompt);
      inserted ← insert_user_prompt
              (λ id, {| p_id := id;
                        p_claude_session_id := pi_claude_session_id prompt;
                        p_user_id := None;
                        p_prompt_number := pi_prompt_number prompt;
                        p_prompt_text := pi_prompt_text prompt;
                        p_created_at := created_at;
                        p_created_at_epoch := pi_created_at_epoch prompt |}) db;
      Ok ({| imported := true; id := inserted.1 |}, inserted.2)
  end.

(** ** Timeline *)

(** [ORDER BY key ASC] and [ORDER BY key DESC]. *)
Definition order_by_asc {A} (key : A → Z) (rows : list A) : list A :=
  @merge_sort A (λ a b, key a ≤ key b) (λ a b, decide (key a ≤ key b)) rows.

Definition order_by_desc {A} (key : A → Z) (rows : list A) : list A :=
  @merge_sort A (λ a b, key b ≤ key a) (λ a b, decide (key b ≤ key a)) rows.

(** [LIMIT n]; a negative count is rejected by the server. *)
Definition limit {A} (n : Z) (rows : list A) : Result (list A) :=
  if n <? 0 then Err invalid_row_count else Ok (take (Z.to_nat n) rows).

(** [project ? 'AND project = $n' : '']: the clause is present only for a
    non-empty project. *)
Definition project_clause (project : option string) (row_project : string) : bool :=
  match js_or_null_str project with
  | Some p => bool_decide (row_project = p)
  | None => true
  end.

Record Timeline := {
  tl_observations : list Observation;
  tl_sessions : list SessionSummary;
  tl_prompts : list (UserPrompt * string * option string)
}.

(** [rows[rows.length - 1].created_at_epoch] when [rows.length > 0], else
    the anchor. *)
Definition boundary (rows : list Z) (anchorEpoch : Z) : Z :=
  match last rows with
  | Some e => e
  | None => anchorEpoch
  end.

(** [user_prompts up JOIN sdk_sessions s ON up.claude_session_id =
    s.claude_session_id], selecting [up.*, s.project, s.sdk_session_id]. *)
Definition prompts_with_session (db : DB) : list (UserPrompt * string * option string) :=
  up ← user_prompts db;
  s ← filter (λ s, s_claude_session_id s = p_claude_session_id up) (sdk_sessions db);
  [(up, s_project s, s_sdk_session_id s)].

(** The two boundary queries carry the project filter as [$2] after the
    anchor.  The window queries are sent with [startEpoch, endEpoch,
    project], but the filter text [AND project = $2] is reused for them:
    with a project, it compares the [project] column with the end epoch,
    for which the server has no operator, and the first window query is
    rejected.  Without a project the window is not filtered. *)
Definition getTimelineAroundObservation (anchorObservationId : option Z)
    (anchorEpoch depthBefore depthAfter : Z) (project : option string) (db : DB)
    : Result Timeline :=
  match limit depthBefore
          (order_by_desc (λ e : Z, e)
             (map o_created_at_epoch
                (filter (λ o, o_created_at_epoch o ≤ anchorEpoch
                              ∧ project_clause project (o_project o) = true)
                        (observations db)))) with
  | Err e => Err e
  | Ok beforeResult =>
  match limit (depthAfter + 1)
          (order_by_asc (λ e : Z, e)
             (map o_created_at_epoch
                (filter (λ o, anchorEpoch ≤ o_created_at_epoch o
                              ∧ project_clause project (o_project o) = true)
                        (observations db)))) with
  | Err e => Err e
  | Ok afterResult =>
      if bool_decide (beforeResult = []) && bool_decide (afterResult = []) then
        Ok {| tl_observations := []; tl_sessions := []; tl_prompts := [] |}
      else
        let startEpoch := boundary beforeResult anchorEpoch in
        let endEpoch := boundary afterResult anchorEpoch in
        match js_or_null_str project with
        | Some _ => Err undefined_function
        | None =>
            Ok {| tl_observations :=
                    order_by_asc o_created_at_epoch
                      (filter (λ o, startEpoch ≤ o_created_at_epoch o
                                    ∧ o_created_at_epoch o ≤ endEpoch)
                              (observations db));
                  tl_sessions :=
                    order_by_asc m_created_at_epoch
                      (filter (λ m, startEpoch ≤ m_created_at_epoch m
                                    ∧ m_created_at_epoch m ≤ endEpoch)
                              (session_summaries db));
                  tl_prompts :=
                    order_by_asc (λ x, p_created_at_epoch x.1.1)
                      (filter (λ x, startEpoch ≤ p_created_at_epoch x.1.1
                                    ∧ p_created_at_epoch x.1.1 ≤ endEpoch)
                              (prompts_with_session db)) |}
        end
  end end.

Definition getTimelineAroundTimestamp (anchorEpoch depthBefore depthAfter : Z)
    (project : option string) (db : DB) : Result Timeline :=
  getTimelineAroundObservation None anchorEpoch depthBefore depthAfter project db.

(** ** Session rows: lookups and single-row updates *)

(** [UPDATE sdk_sessions SET set WHERE cond]. *)
Definition update_sessions (cond : SdkSession → bool) (set : SdkSession → SdkSession)
    (db : DB) : DB :=
  with_sdk_sessions (map (λ s, if cond s then set s else s) (sdk_sessions db))
    (sdk_sessions_id_seq db) db.

Definition set_session_status (st : string) (completedAt : option string)
    (completedAtEpoch : option Z) (s : SdkSession) : SdkSession :=
  {| s_id := s_id s; s_claude_session_id := s_claude_session_id s;
     s_sdk_session_id := s_sdk_session_id s; s_project := s_project s;
     s_user_id := s_user_id s; s_user_prompt := s_user_prompt s;
     s_started_at := s_started_at s; s_started_at_epoch := s_started_at_epoch s;
     s_completed_at := completedAt; s_completed_at_epoch := completedAtEpoch;
     s_status := st; s_worker_port := s_worker_port s;
     s_prompt_counter := s_prompt_counter s |}.

Definition set_worker_port (port : option Z) (s : SdkSession) : SdkSession :=
  {| s_id := s_id s; s_claude_session_id := s_claude_session_id s;
     s_sdk_session_id := s_sdk_session_id s; s_project := s_project s;
     s_user_id := s_user_id s; s_user_prompt := s_user_prompt s;
     s_started_at := s_started_at s; s_started_at_epoch := s_started_at_epoch s;
     s_completed_at := s_completed_at s;
     s_completed_at_epoch := s_completed_at_epoch s;
     s_status := s_status s; s_worker_port := port;
     s_prompt_counter := s_prompt_counter s |}.

Definition set_prompt_counter (n : option Z) (s : SdkSession) : SdkSession :=
  {| s_id := s_id s; s_claude_session_id := s_claude_session_id s;
     s_sdk_session_id := s_sdk_session_id s; s_project := s_project s;
     s_user_id := s_user_id s; s_user_prompt := s_user_prompt s;
     s_started_at := s_started_at s; s_started_at_epoch := s_started_at_epoch s;
     s_completed_at := s_completed_at s;
     s_completed_at_epoch := s_completed_at_epoch s;
     s_status := s_status s; s_worker_port := s_worker_port s;
     s_prompt_counter := n |}.

Definition set_sdk_session_id (sid : option string) (s : SdkSession) : SdkSession :=
  {| s_id := s_id s; s_claude_session_id := s_claude_session_id s;
     s_sdk_session_id := sid; s_project := s_project s;
     s_user_id := s_user_id s; s_user_prompt := s_user_prompt s;
     s_started_at := s_started_at s; s_started_at_epoch := s_started_at_epoch s;
     s_completed_at := s_completed_at s;
     s_completed_at_epoch := s_completed_at_epoch s;
     s_status := s_status s; s_worker_port := s_worker_port s;
     s_prompt_counter := s_prompt_counter s |}.

(** The four columns [findActiveSDKSession] selects. *)
Definition findActiveSDKSession (claudeSessionId : string) (db : DB)
    : option (Z * option string * string * option Z) :=
  (λ s, (s_id s, s_sdk_session_id s, s_project s, s_worker_port s))
  <$> find (λ s, bool_decide (s_claude_session_id s = claudeSessionId)
                 && bool_decide (s_status s = "active"))
           (sdk_sessions db).

Definition findAnySDKSession (claudeSessionId : string) (db : DB) : option Z :=
  s_id <$> find (λ s, bool_decide (s_claude_session_id s = claudeSessionId))
                (sdk_sessions db).

Definition reactivateSession (id : Z) (userPrompt : string) (db : DB) : DB :=
  update_sessions (λ s, bool_decide (s_id s = id))
    (λ s, set_worker_port None
            (set_project_and_prompt (s_project s) (Some userPrompt)
               (set_session_status "active" (s_completed_at s)
                  (s_completed_at_epoch s) s))) db.

Definition getSessionById (id : Z) (db : DB) : option SdkSession :=
  find (λ s, bool_decide (s_id s = id)) (sdk_sessions db).

(** [updateSDKSessionId]: only a NULL [sdk_session_id] is written; writing
    a value another row already carries violates [sdk_session_id UNIQUE]. *)
Definition updateSDKSessionId (id : Z) (sdkSessionId : string) (db : DB)
    : Result (bool * DB) :=
  let cond := λ s, bool_decide (s_id s = id) && bool_decide (s_sdk_session_id s = None) in
  if existsb cond (sdk_sessions db) then
    if sdk_session_id_exists sdkSessionId db then Err unique_violation
    else Ok (true, update_sessions cond (set_sdk_session_id (Some sdkSessionId)) db)
  else Ok (false, db).

Definition setWorkerPort (id port : Z) (db : DB) : DB :=
  update_sessions (λ s, bool_decide (s_id s = id)) (set_worker_port (Some port)) db.

(** [result.rows[0]?.worker_port ?? null] *)
Definition getWorkerPort (id : Z) (db : DB) : option Z :=
  match find (λ s, bool_decide (s_id s = id)) (sdk_sessions db) with
  | Some s => s_worker_port s
  | None => None
  end.

Definition markSessionCompleted (nowIso : string) (nowEpoch : Z) (id : Z) (db : DB) : DB :=
  update_sessions (λ s, bool_decide (s_id s = id))
    (set_session_status "completed" (Some nowIso) (Some nowEpoch)) db.

Definition markSessionFailed (nowIso : string) (nowEpoch : Z) (id : Z) (db : DB) : DB :=
  update_sessions (λ s, bool_decide (s_id s = id))
    (set_session_status "failed" (Some nowIso) (Some nowEpoch)) db.

(** ** Prompt tracking *)

(** [COALESCE(prompt_counter, 0) + 1] *)
Definition next_prompt_counter (s : SdkSession) : Z :=
  default 0 (s_prompt_counter s) + 1.

(** [incrementPromptCounter]: [RETURNING prompt_counter] of the first
    updated row, and 1 when no row was updated. *)
Definition incrementPromptCounter (id : Z) (db : DB) : Z * DB :=
  let db' := update_sessions (λ s, bool_decide (s_id s = id))
               (λ s, set_prompt_counter (Some (next_prompt_counter s)) s) db in
  (match find (λ s, bool_decide (s_id s = id)) (sdk_sessions db') with
   | Some s => default 1 (s_prompt_counter s)
   | None => 1
   end, db').

Definition getPromptCounter (id : Z) (db : DB) : Z :=
  match find (λ s, bool_decide (s_id s = id)) (sdk_sessions db) with
  | Some s => default 0 (s_prompt_counter s)
  | None => 0
  end.

Definition saveUserPrompt (nowIso : string) (nowEpoch : Z) (userId : string)
    (claudeSessionId : string) (promptNumber : Z) (promptText : string) (db : DB)
    : Result (Z * DB) :=
  insert_user_prompt
    (λ id, {| p_id := id; p_claude_session_id := claudeSessionId;
              p_user_id := Some userId; p_prompt_number := promptNumber;
              p_prompt_text := promptText; p_created_at := nowIso;
              p_created_at_epoch := nowEpoch |}) db.

Definition getUserPrompt (claudeSessionId : string) (promptNumber : Z) (db : DB)
    : option string :=
  p_prompt_text
  <$> find (λ p, bool_decide (p_claude_session_id p = claudeSessionId)
                 && bool_decide (p_prompt_number p = promptNumber))
           (user_prompts db).

(** ** Storing observations and summaries *)

(** [ensureSessionExists]: [INSERT ... ON CONFLICT (claude_session_id) DO
    NOTHING]; only a conflict on [claude_session_id] is absorbed, and the
    row that is then not inserted has used up a sequence value.  [nowIso]
    and [nowEpoch] are the clock as this function reads it. *)
Definition ensureSessionExists (nowIso : string) (nowEpoch : Z) (userId : string)
    (sdkSessionId project : string) (db : DB) : Result DB :=
  if claude_session_id_exists sdkSessionId db
  then Ok (with_sdk_sessions (sdk_sessions db) (sdk_sessions_id_seq db + 1) db)
  else
    match insert_sdk_session
            (λ id, {| s_id := id; s_claude_session_id := sdkSessionId;
                      s_sdk_session_id := Some sdkSessionId; s_project := project;
                      s_user_id := Some userId; s_user_prompt := None;
                      s_started_at := nowIso; s_started_at_epoch := nowEpoch;
                      s_completed_at := None; s_completed_at_epoch := None;
                      s_status := "active"; s_worker_port := None;
                      s_prompt_counter := Some 0 |}) db with
    | Ok (_, db') => Ok db'
    | Err e => Err e
    end.

(** The [SummaryInput] of the storage interface. *)
Record SummaryInput := {
  su_request : string;
  su_investigated : string;
  su_learned : string;
  su_completed : string;
  su_next_steps : string;
  su_notes : option string
}.

(** [storeSummary]: [files_read] and [files_edited] are not written.  The
    result is the new id and [createdAtEpoch].  [nowIso] and [nowEpoch] are
    the clock read on entry; [ensureSessionExists] reads the clock again,
    which gives [laterIso] and [laterEpoch]. *)
Definition storeSummary (nowIso : string) (nowEpoch : Z)
    (laterIso : string) (laterEpoch : Z) (userId : string)
    (sdkSessionId project : string) (summary : SummaryInput)
    (promptNumber : option Z) (discoveryTokens : Z) (db : DB)
    : Result (Z * Z * DB) :=
  match ensureSessionExists laterIso laterEpoch userId sdkSessionId project db with
  | Err e => Err e
  | Ok db1 =>
      match insert_session_summary
              (λ id, {| m_id := id; m_sdk_session_id := sdkSessionId;
                        m_project := project; m_user_id := Some userId;
                        m_request := Some (su_request summary);
                        m_investigated := Some (su_investigated summary);
                        m_learned := Some (su_learned summary);
                        m_completed := Some (su_completed summary);
                        m_next_steps := Some (su_next_steps summary);
                        m_files_read := None; m_files_edited := None;
                        m_notes := su_notes summary;
                        m_prompt_number := promptNumber;
                        m_discovery_tokens := discoveryTokens;
                        m_created_at := nowIso;
                        m_created_at_epoch := nowEpoch |}) db1 with
      | Ok (id, db2) => Ok (id, nowEpoch, db2)
      | Err e => Err e
      end
  end.

(** [getSummaryForSession]: the latest summary of the session,
    [ORDER BY created_at_epoch DESC LIMIT 1]. *)
Definition getSummaryForSession (sdkSessionId : string) (db : DB) : option SessionSummary :=
  head (take 1
    (order_by_desc m_created_at_epoch
       (filter (λ m, m_sdk_session_id m = sdkSessionId) (session_summaries db)))).

(** ** Batch lookup of summaries *)

Inductive OrderBy := date_desc | date_asc.

(** The [QueryOptions] that [getSessionSummariesByIds] reads. *)
Record SummaryQueryOptions := {
  orderBy : option OrderBy;
  limit_option : option Z;
  project_option : option string
}.

Definition getSessionSummariesByIds (ids : list Z) (options : SummaryQueryOptions) (db : DB)
    : Result (list SessionSummary) :=
  if bool_decide (length ids = 0%nat) then Ok [] else
  let matching :=
    filter (λ m, m_id m ∈ ids ∧ project_clause (project_option options) (m_project m) = true)
           (session_summaries db) in
  let ordered :=
    match default date_desc (orderBy options) with
    | date_asc => order_by_asc m_created_at_epoch matching
    | date_desc => order_by_desc m_created_at_epoch matching
    end in
  match js_or_null_num (limit_option options) with
  | Some n => limit n ordered
  | None => Ok ordered
  end.

(** ** Storing an observation *)

(** The [ObservationInput] of the storage interface (the import operations
    above take rows of an export file instead). *)
Record NewObservation := {
  no_type : string;
  no_title : option string;
  no_subtitle : option string;
  no_facts : list string;
  no_narrative : option string;
  no_concepts : list string;
  no_files_read : list string;
  no_files_modified : list string
}.

(** [storeObservation]: the [text] column is not written, and the four
    arrays are sent as the text [JSON.stringify] writes for them, which
    the server stores as those arrays.  The clock is read on entry and
    again by [ensureSessionExists], as in [storeSummary]. *)
Definition storeObservation (nowIso : string) (nowEpoch : Z)
    (laterIso : string) (laterEpoch : Z) (userId : string)
    (sdkSessionId project : string) (observation : NewObservation)
    (promptNumber : option Z) (discoveryTokens : Z) (db : DB)
    : Result (Z * Z * DB) :=
  match ensureSessionExists laterIso laterEpoch userId sdkSessionId project db with
  | Err e => Err e
  | Ok db1 =>
      match insert_observation
              (λ id, {| o_id := id; o_sdk_session_id := sdkSessionId;
                        o_project := project; o_user_id := Some userId;
                        o_text := None; o_type := no_type observation;
                        o_title := no_title observation;
                        o_subtitle := no_subtitle observation;
                        o_facts := Some (json_of_strings (no_facts observation));
                        o_narrative := no_narrative observation;
                        o_concepts := Some (json_of_strings (no_concepts observation));
                        o_files_read := Some (json_of_strings (no_files_read observation));
                        o_files_modified :=
                          Some (json_of_strings (no_files_modified observation));
                        o_prompt_number := promptNumber;
                        o_discovery_tokens := discoveryTokens;
                        o_created_at := nowIso;
                        o_created_at_epoch := nowEpoch |}) db1 with
      | Ok (id, db2) => Ok (id, nowEpoch, db2)
      | Err e => Err e
      end
  end.

Definition getObservationById (id : Z) (db : DB) : option Observation :=
  find (λ o, bool_decide (o_id o = id)) (observations db).

End Sessions.

(* ===================================================================== *)
(** * Replication fan-out: replication-utils                              *)
(* ===================================================================== *)

Module Replication.

(** What [getWorkerPorts()], [getWorkerPort()] and [getWorkerHost()] of
    worker-utils return. *)
Record Config := {
  workerPorts : list Z;
  workerPort : Z;
  workerHost : string
}.

Definition isReplicationEnabled (cfg : Config) : bool :=
  bool_decide (1 < length (workerPorts cfg))%nat.

Definition getSecondaryPorts (cfg : Config) : list Z :=
  let allPorts := workerPorts cfg in
  let primaryPort := workerPort cfg in
  filter (λ p, p ≠ primaryPort) allPorts.

(** A value of type [any]: [JSON.stringify] yields its text, or throws on
    a cyclic structure. *)
Inductive Any := json (text : string) | cyclic.

Record ObservationData := {
  od_claudeSessionId : string;
  od_project : string;
  od_observation : Any;
  od_promptNumber : Z;
  od_discoveryTokens : Z;
  obsId : Z;
  od_createdAtEpoch : Z
}.

Record SummaryData := {
  sd_claudeSessionId : string;
  sd_project : string;
  sd_summary : Any;
  sd_promptNumber : Z;
  sd_discoveryTokens : Z;
  summaryId : Z;
  sd_createdAtEpoch : Z
}.

Record SessionInitData := {
  id_claudeSessionId : string;
  id_project : string;
  id_prompt : string;
  sessionDbId : Z;
  id_promptNumber : Z
}.

Record UserPromptData := {
  ud_claudeSessionId : string;
  promptNumber : Z;
  ud_promptText : string
}.

(** The request body: the payload as the caller resolved it. *)
Inductive Payload :=
  | observation_payload (d : ObservationData)
  | summary_payload (d : SummaryData)
  | session_payload (d : SessionInitData)
  | prompt_payload (d : UserPromptData).

Record Request := {
  req_host : string;
  req_port : Z;
  req_path : string;
  req_body : Payload
}.

Record Response := { ok : bool; status : Z }.

(** How a [fetch] settles: with a response, or rejected (connection
    refused, the 5000 ms abort signal, ...) with an error message. *)
Inductive Settled :=
  | fulfilled (r : Response)
  | rejected (message : string).

(** The network as the caller meets it. *)
Definition Network := Request → Settled.

Inductive LogContext :=
  | with_status (status : Z) (entity : Z)
  | with_error (message : string) (entity : Z)
  | with_entity (entity : Z).

(** What a call does to the outside world, in order. *)
Inductive Effect :=
  | Fetch (rq : Request)
  | Warn (text : string) (port : Z) (ctx : LogContext)
  | Debug (text : string) (port : Z) (ctx : LogContext).

(** How a computation completes. *)
Inductive Completion (A : Type) :=
  | returns (a : A)
  | throws (message : string).
Arguments returns {A} a.
Arguments throws {A} message.

(** Computations that read the network, perform effects and may throw. *)
Definition M (A : Type) : Type := Network → Completion A * list Effect.

#[global] Instance M_ret : MRet M := λ A a _, (returns a, []).

#[global] Instance M_bind : MBind M := λ A B k m net,
  match m net with
  | (returns a, done) => let '(c, more) := k a net in (c, done ++ more)
  | (throws e, done) => (throws e, done)
  end.

(** [try { body } catch (error) { handler }] *)
Definition try_catch {A} (body : M A) (handler : string → M A) : M A := λ net,
  match body net with
  | (returns a, done) => (returns a, done)
  | (throws e, done) => let '(c, more) := handler e net in (c, done ++ more)
  end.

Definition fetch (rq : Request) : M Response := λ net,
  match net rq with
  | fulfilled r => (returns r, [Fetch rq])
  | rejected e => (throws e, [Fetch rq])
  end.

Definition stringify_any (v : Any) : M unit := λ _,
  match v with
  | json _ => (returns (), [])
  | cyclic => (throws "Converting circular structure to JSON", [])
  end.

(** [JSON.stringify(data)]: the body sent is the payload itself. *)
Definition JSON_stringify (p : Payload) : M Payload :=
  match p with
  | observation_payload d => stringify_any (od_observation d);; mret p
  | summary_payload d => stringify_any (sd_summary d);; mret p
  | session_payload _ | prompt_payload _ => mret p
  end.

Definition logger_warn (text : string) (port : Z) (ctx : LogContext) : M unit :=
  λ _, (returns (), [Warn text port ctx]).

Definition logger_debug (text : string) (port : Z) (ctx : LogContext) : M unit :=
  λ _, (returns (), [Debug text port ctx]).

(** [for (const x of xs) { body }] *)
Fixpoint for_of {A} (xs : list A) (body : A → M unit) : M unit :=
  match xs with
  | [] => mret ()
  | x :: rest => body x;; for_of rest body
  end.

Definition replicateObservation (cfg : Config) (data : ObservationData) : M unit :=
  let secondaryPorts := getSecondaryPorts cfg in
  if bool_decide (length secondaryPorts = 0%nat) then mret () else
  let host := workerHost cfg in
  for_of secondaryPorts (λ port,
    try_catch
      (body ← JSON_stringify (observation_payload data);
       response ← fetch {| req_host := host; req_port := port;
                           req_path := "/api/replicate/observation"; req_body := body |};
       if negb (ok response)
       then logger_warn "Failed to replicate observation to port" port
              (with_status (status response) (obsId data))
       else logger_debug "Observation replicated to port" port (with_entity (obsId data)))
      (λ error, logger_warn "Error replicating observation to port" port
                  (with_error error (obsId data)))).

Definition replicateSummary (cfg : Config) (data : SummaryData) : M unit :=
  let secondaryPorts := getSecondaryPorts cfg in
  if bool_decide (length secondaryPorts = 0%nat) then mret () else
  let host := workerHost cfg in
  for_of secondaryPorts (λ port,
    try_catch
      (body ← JSON_stringify (summary_payload data);
       response ← fetch {| req_host := host; req_port := port;
                           req_path := "/api/replicate/summary"; req_body := body |};
       if negb (ok response)
       then logger_warn "Failed to replicate summary to port" port
              (with_status (status response) (summaryId data))
       else logger_debug "Summary replicated to port" port (with_entity (summaryId data)))
      (λ error, logger_warn "Error replicating summary to port" port
                  (with_error error (summaryId data)))).

Definition replicateSessionInit (cfg : Config) (data : SessionInitData) : M unit :=
  let secondaryPorts := getSecondaryPorts cfg in
  if bool_decide (length secondaryPorts = 0%nat) then mret () else
  let host := workerHost cfg in
  for_of secondaryPorts (λ port,
    try_catch
      (body ← JSON_stringify (session_payload data);
       response ← fetch {| req_host := host; req_port := port;
                           req_path := "/api/replicate/session"; req_body := body |};
       if negb (ok response)
       then logger_warn "Failed to replicate session to port" port
              (with_status (status response) (sessionDbId data))
       else logger_debug "Session replicated to port" port (with_entity (sessionDbId data)))
      (λ error, logger_warn "Error replicating session to port" port
                  (with_error error (sessionDbId data)))).

Definition replicateUserPrompt (cfg : Config) (data : UserPromptData) : M unit :=
  let secondaryPorts := getSecondaryPorts cfg in
  if bool_decide (length secondaryPorts = 0%nat) then mret () else
  let host := workerHost cfg in
  for_of secondaryPorts (λ port,
    try_catch
      (body ← JSON_stringify (prompt_payload data);
       response ← fetch {| req_host := host; req_port := port;
                           req_path := "/api/replicate/prompt"; req_body := body |};
       if negb (ok response)
       then logger_warn "Failed to replicate prompt to port" port
              (with_status (status response) (promptNumber data))
       else logger_debug "Prompt replicated to port" port (with_entity (promptNumber data)))
      (λ error, logger_warn "Error replicating prompt to port" port
                  (with_error error (promptNumber data)))).

(** The body of the loop, which the four functions share up to the path,
    the payload, the log texts and the entity id. *)
Definition attempt (host path : string) (payload : Payload)
    (failed_text done_text error_text : string) (entity : Z) (port : Z) : M unit :=
  try_catch
    (body ← JSON_stringify payload;
     response ← fetch {| req_host := host; req_port := port;
                         req_path := path; req_body := body |};
     if negb (ok response)
     then logger_warn failed_text port (with_status (status response) entity)
     else logger_debug done_text port (with_entity entity))
    (λ error, logger_warn error_text port (with_error error entity)).

(** ** Reading a run *)

(** The ports a run sent a request to, in order. *)
Fixpoint fetched_ports (effects : list Effect) : list Z :=
  match effects with
  | [] => []
  | Fetch rq :: rest => req_port rq :: fetched_ports rest
  | _ :: rest => fetched_ports rest
  end.

(** The ports a run logged a warning for, in order. *)
Fixpoint warned_ports (effects : list Effect) : list Z :=
  match effects with
  | [] => []
  | Warn _ port _ :: rest => port :: warned_ports rest
  | _ :: rest => warned_ports rest
  end.

Definition is_cyclic (v : Any) : bool :=
  match v with
  | json _ => false
  | cyclic => true
  end.

Definition serialisable (p : Payload) : bool :=
  match p with
  | observation_payload d => negb (is_cyclic (od_observation d))
  | summary_payload d => negb (is_cyclic (sd_summary d))
  | session_payload _ | prompt_payload _ => true
  end.

(** A secondary fails for a request when the fetch is rejected or the
    response is not [ok]. *)
Definition fails (net : Network) (rq : Request) : bool :=
  match net rq with
  | fulfilled r => negb (ok r)
  | rejected _ => true
  end.

End Replication.

(* ===================================================================== *)
(** * Worker ports: worker-utils                                          *)
(* ===================================================================== *)

Module WorkerUtils.

(** [Set.prototype.add] on a set kept in insertion order. *)
Definition set_add (ports : list Z) (port : Z) : list Z :=
  if bool_decide (port ∈ ports) then ports else ports ++ [port].

(** [!isNaN(p) && p >= 1024 && p <= 65535] on what [parseInt] gave for one
    piece of CLAUDE_MEM_WORKER_PORTS ([None] for NaN). *)
Definition valid_port (parsed : option Z) : option Z :=
  match parsed with
  | Some p => if (1024 <=? p) && (p <=? 65535) then Some p else None
  | None => None
  end.

(** [getWorkerPorts], computed (the cache is empty): [primaryPort] is the
    number [getWorkerPort()] returns and [parsed] holds [parseInt(p.trim(), 10)]
    for every comma-separated piece of CLAUDE_MEM_WORKER_PORTS, and is
    empty when the variable is not set. *)
Definition getWorkerPorts (primaryPort : Z) (parsed : list (option Z)) : list Z :=
  let ports := foldl set_add [primaryPort] (omap valid_port parsed) in
  primaryPort :: filter (λ p, p ≠ primaryPort) ports.

Definition isMultiPortEnabled (primaryPort : Z) (parsed : list (option Z)) : bool :=
  bool_decide (1 < length (getWorkerPorts primaryPort parsed))%nat.

(** The configuration the replication functions read. *)
Definition config (primaryPort : Z) (parsed : list (option Z)) (host : string)
    : Replication.Config :=
  {| Replication.workerPorts := getWorkerPorts primaryPort parsed;
     Replication.workerPort := primaryPort;
     Replication.workerHost := host |}.

(** The ports a request went to are the valid additional ports, each once,
    and not the primary. *)
Definition each_secondary_once (primaryPort : Z) (parsed : list (option Z))
    (fetched : list Z) : Prop :=
  NoDup fetched
  ∧ ∀ p, p ∈ fetched ↔ p ≠ primaryPort ∧ Some p ∈ parsed ∧ 1024 ≤ p ≤ 65535.

(** ** fanOutRequest *)

(** Which [throw] ended the call. *)
Inductive FanOutError :=
  | primary_returned (port status : Z)
  | primary_rejected (message : string)
  | primary_missing.

(** One entry of [results]. *)
Record PortResult := {
  pr_port : Z;
  pr_response : option Replication.Response;
  pr_isPrimary : bool;
  pr_success : bool
}.

(** The request sent to one port: the promise of one [ports.map] callback.
    [net] tells how the fetch to each port settles. *)
Definition request_port (net : Z → Replication.Settled) (index : nat) (port : Z)
    : FanOutError + PortResult :=
  let isPrimary := bool_decide (index = 0%nat) in
  match net port with
  | Replication.fulfilled response =>
      if negb (Replication.ok response) && isPrimary
      then inl (primary_returned port (Replication.status response))
      else inr {| pr_port := port; pr_response := Some response;
                  pr_isPrimary := isPrimary;
                  pr_success := Replication.ok response |}
  | Replication.rejected message =>
      if isPrimary then inl (primary_rejected message)
      else inr {| pr_port := port; pr_response := None;
                  pr_isPrimary := isPrimary; pr_success := false |}
  end.

(** [Promise.all]: the results in order, or the rejection of a promise that
    rejected. *)
Fixpoint promise_all {E A} (promises : list (E + A)) : E + list A :=
  match promises with
  | [] => inr []
  | inl e :: _ => inl e
  | inr a :: rest =>
      match promise_all rest with
      | inl e => inl e
      | inr results => inr (a :: results)
      end
  end.

(** [fanOutRequest]: what the call returns or throws. *)
Definition fanOutRequest (ports : list Z) (net : Z → Replication.Settled)
    : FanOutError + Replication.Response :=
  match promise_all (imap (request_port net) ports) with
  | inl e => inl e
  | inr results =>
      match find pr_isPrimary results with
      | Some {| pr_response := Some response |} => inr response
      | _ => inl primary_missing
      end
  end.

End WorkerUtils.

(* ===================================================================== *)
(** * Pagination: PaginationHelper                                        *)
(* ===================================================================== *)

Module Pagination.

Record PaginatedResult (A : Type) := {
  items : list A;
  hasMore : bool;
  offset : Z;
  limit : Z
}.
Arguments items {A} _.
Arguments hasMore {A} _.
Arguments offset {A} _.
Arguments limit {A} _.

(** [Array.prototype.slice(0, end)]: a negative [end] counts from the end
    of the array. *)
Definition slice_to {A} (end_ : Z) (rows : list A) : list A :=
  if 0 <=? end_ then take (Z.to_nat end_) rows
  else take (Z.to_nat (Z.of_nat (length rows) + end_)) rows.

(** [OFFSET n]; a negative count is rejected by the server. *)
Definition skip {A} (n : Z) (rows : list A) : Sessions.Result (list A) :=
  if n <? 0 then Sessions.Err Sessions.invalid_row_count
  else Sessions.Ok (drop (Z.to_nat n) rows).

(** [paginate] on the networked backend.  [rows] is the content of the
    table read, [project_of] and [epoch_of] its [project] and
    [created_at_epoch] columns.  Epochs are numbers throughout, so
    [coerceEpochToNumber], which reads the server's decimal rendering of
    a BIGINT back into a number, leaves every row as it is. *)
Definition paginate {A} (rows : list A) (project_of : A → string) (epoch_of : A → Z)
    (offset limit : Z) (project : option string)
    : Sessions.Result (PaginatedResult A) :=
  let ordered :=
    Sessions.order_by_desc epoch_of
      (filter (λ r, Sessions.project_clause project (project_of r) = true) rows) in
  match skip offset ordered with
  | Sessions.Err e => Sessions.Err e
  | Sessions.Ok skipped =>
      match Sessions.limit (limit + 1) skipped with
      | Sessions.Err e => Sessions.Err e
      | Sessions.Ok result_rows =>
          Sessions.Ok {| items := slice_to limit result_rows;
                         hasMore := limit <? Z.of_nat (length result_rows);
                         offset := offset;
                         limit := limit |}
      end
  end.

End Pagination.

(* ===================================================================== *)
(** * Concrete stores used by the scenarios below                         *)
(* ===================================================================== *)

Module Scenario.
Import Queue.

(** Job A, of kind observation, for session S (internal id 7). *)
Definition job_A : PendingMessage :=
  {| pm_type := observation; pm_tool_name := Some "Read";
     pm_tool_input := Some "{}"; pm_tool_response := Some "{}";
     pm_prompt_number := Some 1; pm_cwd := Some "/work";
     pm_last_user_message := None; pm_last_assistant_message := None |}.

(** The row [enqueue] writes for job A at time 1000. *)
Definition row_A : PersistentPendingMessage :=
  {| session_db_id := 7; claude_session_id := "S"; message_type := observation;
     tool_name := Some "Read"; tool_input := Some "{}"; tool_response := Some "{}";
     cwd := Some "/work"; last_user_message := None; last_assistant_message := None;
     prompt_number := Some 1; status := pending; retry_count := 0;
     created_at_epoch := 1000; started_processing_at_epoch := None;
     completed_at_epoch := None |}.

(** The queue holding job A alone, under id 1. *)
Definition queue_A : table := <[1 := row_A]> ∅.

End Scenario.

Module SessionScenario.
Import Sessions.

(** The server, as far as the scenarios go: it reads the timestamp of the
    export files below as the instant it writes and the text of an empty
    JSON array as that array; any other text counts as rejected. *)
Definition scenario_server : Server :=
  {| jsonb_in := λ text, if bool_decide (text = "[]") then Some (JArray []) else None;
     timestamptz_in := λ text,
       if bool_decide (text = "2025-01-01T00:00:00.000Z") then Some text else None |}.

(** Session S as an export file carries it. *)
Definition session_S : SdkSessionInput :=
  {| si_claude_session_id := "S"; si_sdk_session_id := "S";
     si_project := "demo"; si_user_prompt := "hello";
     si_started_at := "2025-01-01T00:00:00.000Z"; si_started_at_epoch := 5;
     si_completed_at := None; si_completed_at_epoch := None;
     si_status := "active" |}.

(** The database after session S alone was imported into [empty_db]. *)
Definition db_S : DB :=
  {| sdk_sessions :=
       [ {| s_id := 1; s_claude_session_id := "S"; s_sdk_session_id := Some "S";
            s_project := "demo"; s_user_id := None; s_user_prompt := Some "hello";
            s_started_at := "2025-01-01T00:00:00.000Z"; s_started_at_epoch := 5;
            s_completed_at := None; s_completed_at_epoch := None;
            s_status := "active"; s_worker_port := None;
            s_prompt_counter := Some 0 |} ];
     sdk_sessions_id_seq := 2;
     observations := []; observations_id_seq := 1;
     session_summaries := []; session_summaries_id_seq := 1;
     user_prompts := []; user_prompts_id_seq := 1 |}.

(** An observation of session S at the given time, with the given title. *)
Definition observation_of_S (title : option string) (epoch : Z) : ObservationInput :=
  {| oi_sdk_session_id := "S"; oi_project := "demo"; oi_text := None;
     oi_type := "discovery"; oi_title := title; oi_subtitle := None;
     oi_facts := None; oi_narrative := None; oi_concepts := None;
     oi_files_read := None; oi_files_modified := None;
     oi_prompt_number := Some 1; oi_discovery_tokens := 0;
     oi_created_at := "2025-01-01T00:00:00.000Z"; oi_created_at_epoch := epoch |}.

(** A summary of session S for the given prompt number. *)
Definition summary_of_S (promptNumber : Z) : SessionSummaryInput :=
  {| mi_sdk_session_id := "S"; mi_project := "demo";
     mi_request := Some "request"; mi_investigated := None; mi_learned := None;
     mi_completed := None; mi_next_steps := None; mi_files_read := None;
     mi_files_edited := None; mi_notes := None;
     mi_prompt_number := Some promptNumber; mi_discovery_tokens := 0;
     mi_created_at := "2025-01-01T00:00:00.000Z"; mi_created_at_epoch := 60 |}.

Definition prompt_of_S (promptNumber : Z) : UserPromptInput :=
  {| pi_claude_session_id := "S"; pi_prompt_number := promptNumber;
     pi_prompt_text := "hello"; pi_created_at := "2025-01-01T00:00:00.000Z";
     pi_created_at_epoch := 6 |}.

(** Importing a list of observations in order, stopping at the first
    rejected statement. *)
Fixpoint import_observations (inputs : list ObservationInput) (db : DB) : Result DB :=
  match inputs with
  | [] => Ok db
  | obs :: rest =>
      match importObservation scenario_server obs db with
      | Ok (_, db') => import_observations rest db'
      | Err e => Err e
      end
  end.

(** Session S with five observations, at epochs 10, 20, 30, 40 and 50. *)
Definition five_observations : list ObservationInput :=
  [ observation_of_S (Some "a") 10; observation_of_S (Some "b") 20;
    observation_of_S (Some "c") 30; observation_of_S (Some "d") 40;
    observation_of_S (Some "e") 50 ].

(** The database holding session S and the five observations. *)
Definition db_five : DB :=
  match import_observations five_observations db_S with
  | Ok db => db
  | Err _ => db_S
  end.

End SessionScenario.

Module ReplicationScenario.
Import Replication.

(** Two instances: primary on port 37777, one secondary on port 38888. *)
Definition two_instances : Config :=
  {| workerPorts := [37777; 38888]; workerPort := 37777; workerHost := "127.0.0.1" |}.

(** A single instance: the only configured port is the primary. *)
Definition single_instance : Config :=
  {| workerPorts := [37777]; workerPort := 37777; workerHost := "127.0.0.1" |}.

(** Every secondary is unreachable. *)
Definition unreachable : Network := λ _, rejected "fetch failed".

Definition observation_42 : ObservationData :=
  {| od_claudeSessionId := "S"; od_project := "demo";
     od_observation := json "{}"; od_promptNumber := 1;
     od_discoveryTokens := 0; obsId := 42; od_createdAtEpoch := 1000 |}.

End ReplicationScenario.

Module StoreScenario.
Import Sessions.

(** A session of an export file whose SDK id differs from its external id. *)
Definition session_split : SdkSessionInput :=
  {| si_claude_session_id := "claude-1"; si_sdk_session_id := "sdk-1";
     si_project := "demo"; si_user_prompt := "hello";
     si_started_at := "2025-01-01T00:00:00.000Z"; si_started_at_epoch := 5;
     si_completed_at := None; si_completed_at_epoch := None;
     si_status := "active" |}.

(** The database after [session_split] alone was imported. *)
Definition db_split : DB :=
  {| sdk_sessions :=
       [ {| s_id := 1; s_claude_session_id := "claude-1";
            s_sdk_session_id := Some "sdk-1";
            s_project := "demo"; s_user_id := None; s_user_prompt := Some "hello";
            s_started_at := "2025-01-01T00:00:00.000Z"; s_started_at_epoch := 5;
            s_completed_at := None; s_completed_at_epoch := None;
            s_status := "active"; s_worker_port := None;
            s_prompt_counter := Some 0 |} ];
     sdk_sessions_id_seq := 2;
     observations := []; observations_id_seq := 1;
     session_summaries := []; session_summaries_id_seq := 1;
     user_prompts := []; user_prompts_id_seq := 1 |}.

Definition a_summary : SummaryInput :=
  {| su_request := "request"; su_investigated := "investigated";
     su_learned := "learned"; su_completed := "completed";
     su_next_steps := "next"; su_notes := None |}.

Definition a_discovery : NewObservation :=
  {| no_type := "discovery"; no_title := Some "title"; no_subtitle := None;
     no_facts := ["fact"]; no_narrative := None; no_concepts := [];
     no_files_read := []; no_files_modified := [] |}.

End StoreScenario.

(* ===================================================================== *)
(** * Properties of the work queue                                        *)
(* ===================================================================== *)

(** Deciding the [WHERE] clause of a statement at a given row. *)
Ltac where_clause :=
  repeat match goal with
  | |- context [bool_decide ?P] =>
      first [ rewrite (bool_decide_eq_true_2 P) by (first [done | congruence | lia])
            | rewrite (bool_decide_eq_false_2 P) by (first [done | congruence | lia]) ]
  end; simpl.

Section QueueFacts.
Import Queue.

Implicit Types (t : table) (r j : PersistentPendingMessage).

(** An [UPDATE] touches each row on its own. *)
Lemma lookup_update_where cond set t k :
  update_where cond set t !! k = (λ r, if cond k r then set r else r) <$> t !! k.
Proof.
  unfold update_where. rewrite map_lookup_imap.
  by destruct (t !! k).
Qed.

Lemma update_where_nothing cond set t :
  (∀ k r, t !! k = Some r → cond k r = false) → update_where cond set t = t.
Proof.
  intros Hno. apply map_eq. intros k. rewrite lookup_update_where.
  destruct (t !! k) as [r|] eqn:Hk; [|done].
  simpl. by rewrite (Hno k r Hk).
Qed.

Lemma row_count_pos cond t k r :
  t !! k = Some r → cond k r = true → 0 < row_count cond t.
Proof.
  intros Hk Hc. unfold row_count.
  destruct (size _) eqn:Hsz; [|lia].
  apply map_size_empty_iff in Hsz.
  assert (filter (λ kr, cond kr.1 kr.2 = true) t !! k = Some r) as Hin
    by (by apply map_lookup_filter_Some).
  rewrite Hsz in Hin. by rewrite lookup_empty in Hin.
Qed.

Lemma row_count_zero cond t :
  (∀ k r, t !! k = Some r → cond k r = false) → row_count cond t = 0.
Proof.
  intros Hno. unfold row_count.
  replace (filter _ t) with (∅ : table); [by rewrite map_size_empty|].
  symmetry. apply map_empty_filter_2. intros k r Hk. simpl.
  rewrite (Hno k r Hk). discriminate.
Qed.

(** *** markProcessing *)

Lemma markProcessing_claims now id t j :
  t !! id = Some j → status j = pending →
  markProcessing now id t !! id
  = Some (set_started_processing_at_epoch (Some now) (set_status processing j)).
Proof.
  intros Hj Hst. unfold markProcessing. rewrite lookup_update_where, Hj. simpl.
  by where_clause.
Qed.

Lemma markProcessing_skips now id t j :
  t !! id = Some j → status j ≠ pending → markProcessing now id t !! id = Some j.
Proof.
  intros Hj Hst. unfold markProcessing. rewrite lookup_update_where, Hj. simpl.
  by where_clause.
Qed.

Lemma markProcessing_other now id t k :
  k ≠ id → markProcessing now id t !! k = t !! k.
Proof.
  intros Hk. unfold markProcessing. rewrite lookup_update_where.
  destruct (t !! k); [|done]. simpl. by where_clause.
Qed.

(** *** markProcessed *)

Lemma markProcessed_completes now id t j :
  t !! id = Some j → status j = processing →
  markProcessed now id t !! id
  = Some (set_tool_response None (set_tool_input None
            (set_completed_at_epoch (Some now) (set_status processed j)))).
Proof.
  intros Hj Hst. unfold markProcessed. rewrite lookup_update_where, Hj. simpl.
  by where_clause.
Qed.

Lemma markProcessed_other now id t k :
  k ≠ id → markProcessed now id t !! k = t !! k.
Proof.
  intros Hk. unfold markProcessed. rewrite lookup_update_where.
  destruct (t !! k); [|done]. simpl. by where_clause.
Qed.

Lemma markProcessed_skips now id t :
  (∀ j, t !! id = Some j → status j ≠ processing) → markProcessed now id t = t.
Proof.
  intros Hno. apply update_where_nothing. intros k r Hk.
  destruct (decide (k = id)) as [->|Hne].
  - specialize (Hno r Hk). by where_clause.
  - by where_clause.
Qed.

(** *** markFailed *)

Lemma markFailed_retries maxRetries now id t j :
  t !! id = Some j → retry_count j < maxRetries →
  markFailed maxRetries now id t !! id
  = Some (set_started_processing_at_epoch None
            (set_retry_count (retry_count j + 1) (set_status pending j))).
Proof.
  intros Hj Hrc. unfold markFailed. rewrite Hj.
  destruct (Z.ltb_spec (retry_count j) maxRetries); [|lia].
  rewrite lookup_update_where, Hj. simpl. by where_clause.
Qed.

Lemma markFailed_gives_up maxRetries now id t j :
  t !! id = Some j → maxRetries ≤ retry_count j →
  markFailed maxRetries now id t !! id
  = Some (set_completed_at_epoch (Some now) (set_status failed j)).
Proof.
  intros Hj Hrc. unfold markFailed. rewrite Hj.
  destruct (Z.ltb_spec (retry_count j) maxRetries); [lia|].
  rewrite lookup_update_where, Hj. simpl. by where_clause.
Qed.

Lemma markFailed_other maxRetries now id t k :
  k ≠ id → markFailed maxRetries now id t !! k = t !! k.
Proof.
  intros Hk. unfold markFailed.
  destruct (t !! id) as [msg|]; [|done].
  destruct (retry_count msg <? maxRetries);
    rewrite lookup_update_where; (destruct (t !! k); [|done]); simpl; by where_clause.
Qed.

(** *** One failed attempt, and several in a row *)

Lemma fail_once_retries maxRetries now id t j :
  t !! id = Some j → status j = pending → retry_count j < maxRetries →
  fail_once maxRetries id t now !! id
  = Some (set_started_processing_at_epoch None (set_retry_count (retry_count j + 1) j)).
Proof.
  intros Hj Hst Hrc. unfold fail_once.
  erewrite markFailed_retries; [|by apply markProcessing_claims|simpl; lia].
  f_equal. destruct j; simpl in *; by subst.
Qed.

Lemma fail_once_gives_up maxRetries now id t j :
  t !! id = Some j → status j = pending → maxRetries ≤ retry_count j →
  fail_once maxRetries id t now !! id
  = Some (set_completed_at_epoch (Some now)
            (set_started_processing_at_epoch (Some now) (set_status failed j))).
Proof.
  intros Hj Hst Hrc. unfold fail_once.
  erewrite markFailed_gives_up; [|by apply markProcessing_claims|simpl; lia].
  done.
Qed.

(** While the budget lasts, [n] failed attempts leave the job pending with
    its counter raised by [n]. *)
Lemma fail_repeatedly_within_budget maxRetries id clock : ∀ now t j,
  t !! id = Some j → status j = pending →
  retry_count j + Z.of_nat (length (now :: clock)) ≤ maxRetries →
  fail_repeatedly maxRetries id (now :: clock) t !! id
  = Some (set_started_processing_at_epoch None
            (set_retry_count (retry_count j + Z.of_nat (length (now :: clock))) j)).
Proof.
  induction clock as [|now' clock IH]; intros now t j Hj Hst Hlen.
  - simpl in *. rewrite (fail_once_retries _ _ _ _ j) by (done || lia). done.
  - change (fail_repeatedly maxRetries id (now :: now' :: clock) t)
      with (fail_repeatedly maxRetries id (now' :: clock) (fail_once maxRetries id t now)).
    cbn [length] in *.
    erewrite IH; [|apply fail_once_retries; [done|done|lia]|done|simpl; lia].
    unfold set_started_processing_at_epoch, set_retry_count. simpl.
    do 2 f_equal. lia.
Qed.

(** A job starting at retry_count 0 is requeued by each of the first
    [maxRetries] failures and fails for good on the next one. *)
Lemma fail_repeatedly_exhausts maxRetries id clock now t j :
  t !! id = Some j → status j = pending → retry_count j = 0 →
  Z.of_nat (length clock) = maxRetries →
  job_state (fail_repeatedly maxRetries id clock t) id
  = Some (pending, maxRetries)
  ∧ job_state (fail_repeatedly maxRetries id (clock ++ [now]) t) id
    = Some (failed, maxRetries).
Proof.
  intros Hj Hst Hrc Hlen. unfold fail_repeatedly, job_state.
  rewrite foldl_app. simpl.
  destruct clock as [|n clock].
  - simpl in *. subst maxRetries. rewrite Hj. simpl. rewrite Hst, Hrc. split; [done|].
    rewrite (fail_once_gives_up _ _ _ _ j) by (done || lia). simpl. by rewrite Hrc.
  - pose proof (fail_repeatedly_within_budget maxRetries id clock n t j Hj Hst) as Hrow.
    unfold fail_repeatedly in Hrow. specialize (Hrow ltac:(lia)).
    cbn [length] in *.
    remember (foldl (fail_once maxRetries id) t (n :: clock)) as requeued.
    split.
    + rewrite Hrow. simpl. rewrite Hst, Hrc. do 2 f_equal. lia.
    + erewrite fail_once_gives_up; [|exact Hrow|done|simpl; lia].
      simpl. do 2 f_equal. lia.
Qed.

(** *** retryMessage *)

Lemma retryMessage_requeues id t j :
  t !! id = Some j → status j ≠ processed →
  retryMessage id t
  = (true, (retryMessage id t).2)
  ∧ (retryMessage id t).2 !! id
    = Some (set_started_processing_at_epoch None (set_status pending j)).
Proof.
  intros Hj Hst.
  assert (status_in [pending; processing; failed] j = true) as Hin.
  { unfold status_in. apply bool_decide_eq_true_2.
    destruct (status j); [set_solver..|done|set_solver]. }
  unfold retryMessage. simpl. split.
  - f_equal. apply Z.ltb_lt. apply (row_count_pos _ t id j Hj).
    rewrite Hin. by where_clause.
  - rewrite lookup_update_where, Hj. simpl. rewrite Hin. by where_clause.
Qed.

(** *** resetStuckMessages *)

Lemma resetStuckMessages_lookup now thresholdMs t k :
  (resetStuckMessages now thresholdMs t).2 !! k
  = (λ r, if bool_decide (status r = processing)
             && sql_lt (started_processing_at_epoch r)
                       (if thresholdMs =? 0 then now else now - thresholdMs)
          then set_started_processing_at_epoch None (set_status pending r) else r)
    <$> t !! k.
Proof. unfold resetStuckMessages. simpl. apply lookup_update_where. Qed.

(** *** What every operation preserves *)

Lemma update_where_keeps {X} (f : PersistentPendingMessage → X) cond set t k :
  (∀ r, f (set r) = f r) →
  f <$> update_where cond set t !! k = f <$> t !! k.
Proof.
  intros Hf. rewrite lookup_update_where.
  destruct (t !! k) as [r|]; [|done]. simpl.
  destruct (cond k r); by rewrite ?Hf.
Qed.

Lemma markFailed_keeps {X} (f : PersistentPendingMessage → X) maxRetries now id t k :
  (∀ s n o r, f (set_status s r) = f r ∧ f (set_retry_count n r) = f r
              ∧ f (set_started_processing_at_epoch o r) = f r
              ∧ f (set_completed_at_epoch o r) = f r) →
  f <$> markFailed maxRetries now id t !! k = f <$> t !! k.
Proof.
  intros Hf. unfold markFailed.
  destruct (t !! id) as [msg|]; [|done].
  destruct (retry_count msg <? maxRetries); apply update_where_keeps; intros r.
  - destruct (Hf pending (retry_count r + 1) None r) as (H1 & H2 & H3 & _).
    destruct (Hf pending (retry_count r + 1) None (set_status pending r)) as (_ & H2' & _).
    destruct (Hf pending 0 None
                (set_retry_count (retry_count r + 1) (set_status pending r))) as (_ & _ & H3' & _).
    congruence.
  - destruct (Hf failed 0 (Some now) r) as (H1 & _).
    destruct (Hf failed 0 (Some now) (set_status failed r)) as (_ & _ & _ & H4).
    congruence.
Qed.

(** Only a pending row becomes processing, and only a processing row
    becomes processed, whatever the operation. *)
Lemma apply_op_discipline maxRetries op t k r r' :
  t !! k = Some r → apply_op maxRetries t op !! k = Some r' →
  (status r' = processing → status r = pending ∨ status r = processing)
  ∧ (status r' = processed → status r = processing ∨ status r = processed).
Proof.
  intros Hr. destruct op; simpl; unfold markProcessing, markProcessed, markFailed,
    retryMessage, resetProcessingToPending, retryAllStuck, resetStuckMessages,
    abortMessage, delete_where; simpl.
  all: try (rewrite lookup_update_where, Hr; simpl;
            match goal with |- context [if ?c then _ else _] => destruct c eqn:Hc end;
            intros [= <-]; simpl; split; intros Hs; try discriminate; eauto;
            apply andb_true_iff in Hc as [_ Hc%bool_decide_eq_true]; eauto).
  - destruct (t !! messageId) as [msg|]; [|rewrite Hr; intros [= <-]; eauto].
    destruct (retry_count msg <? maxRetries);
      rewrite lookup_update_where, Hr; simpl;
      (destruct (bool_decide (k = messageId)); intros [= <-]; simpl;
       split; intros Hs; try discriminate; eauto).
  - intros [Hk _]%map_lookup_filter_Some. rewrite Hr in Hk.
    injection Hk as <-. eauto.
Qed.

(** A job seen pending is never seen processed one operation later. *)
Corollary pending_not_directly_processed maxRetries op t k r r' :
  t !! k = Some r → status r = pending →
  apply_op maxRetries t op !! k = Some r' → status r' ≠ processed.
Proof.
  intros Hr Hst Hr' Hp.
  destruct (apply_op_discipline maxRetries op t k r r' Hr Hr') as [_ H].
  destruct (H Hp); congruence.
Qed.

Lemma markProcessing_unchanged now id t :
  (∀ j, t !! id = Some j → status j ≠ pending) → markProcessing now id t = t.
Proof.
  intros Hno. apply update_where_nothing. intros k r Hk.
  destruct (decide (k = id)) as [->|Hne].
  - specialize (Hno r Hk). by where_clause.
  - by where_clause.
Qed.

End QueueFacts.

Section QueueClaims.
Import Queue Scenario.

Implicit Types (t : table) (r j : PersistentPendingMessage).

(** C1, as stated, fails: job A is enqueued with retry_count 0 and, under
    maxRetries = 3, the third [markFailed] (each preceded by
    [markProcessing]) leaves it [pending] with retry_count 3, not [failed]. *)
Lemma third_markFailed_leaves_pending :
  enqueue 1 1000 7 "S" job_A ∅ = Some (1, queue_A)
  ∧ job_state (fail_repeatedly 3 1 [1001; 1002; 1003] queue_A) 1 = Some (pending, 3)
  ∧ job_state (fail_repeatedly 3 1 [1001; 1002; 1003] queue_A) 1 ≠ Some (failed, 3).
Proof. vm_compute. repeat split; congruence. Qed.

(** C1 (amended): for a job with retry_count 0 under maxRetries = 3, each of
    the first three [markProcessing]/[markFailed] rounds returns the job to
    [pending] and raises retry_count by exactly 1 (to 1, 2, 3); it is the
    fourth [markFailed] that leaves the job in terminal status [failed],
    with retry_count equal to maxRetries (3). *)
Theorem markFailed_budget_of_three t id j n1 n2 n3 n4 :
  t !! id = Some j → status j = pending → retry_count j = 0 →
  job_state (fail_repeatedly 3 id [n1] t) id = Some (pending, 1)
  ∧ job_state (fail_repeatedly 3 id [n1; n2] t) id = Some (pending, 2)
  ∧ job_state (fail_repeatedly 3 id [n1; n2; n3] t) id = Some (pending, 3)
  ∧ job_state (fail_repeatedly 3 id [n1; n2; n3; n4] t) id = Some (failed, 3)
  ∧ completed_at_epoch <$> fail_repeatedly 3 id [n1; n2; n3; n4] t !! id = Some (Some n4).
Proof.
  intros Hj Hst Hrc.
  assert (∀ now clock, (0 < length (now :: clock) ≤ 3)%nat →
            fail_repeatedly 3 id (now :: clock) t !! id
            = Some (set_started_processing_at_epoch None
                      (set_retry_count (Z.of_nat (length (now :: clock))) j))) as Hwithin.
  { intros now clock Hlen.
    rewrite (fail_repeatedly_within_budget 3 id clock now t j) by (done || lia).
    by rewrite Hrc. }
  unfold job_state.
  repeat split; try (rewrite Hwithin by (simpl; lia); simpl; by rewrite Hst).
  - change (fail_repeatedly 3 id [n1; n2; n3; n4] t)
      with (fail_once 3 id (fail_repeatedly 3 id [n1; n2; n3] t) n4).
    erewrite fail_once_gives_up; [|apply Hwithin; simpl; lia|done|simpl; lia]; done.
  - change (fail_repeatedly 3 id [n1; n2; n3; n4] t)
      with (fail_once 3 id (fail_repeatedly 3 id [n1; n2; n3] t) n4).
    erewrite fail_once_gives_up; [|apply Hwithin; simpl; lia|done|simpl; lia]; done.
Qed.

(** The budget of three on job A, enqueued alone under id 1. *)
Lemma markFailed_budget_of_three_witness :
  (queue_A !! 1 = Some row_A ∧ status row_A = pending ∧ retry_count row_A = 0)
  ∧ job_state (fail_repeatedly 3 1 [1001; 1002; 1003; 1004] queue_A) 1 = Some (failed, 3).
Proof.
  split; [by vm_compute|].
  apply (markFailed_budget_of_three queue_A 1 row_A 1001 1002 1003 1004); reflexivity.
Defined.

(** C2: the code at the failing input.  [markFailed] carries no test on the
    current status, so a job that was claimed and marked [processed] is put
    back to [pending] by a later [markFailed] while its retry_count is below
    maxRetries: a terminal job re-enters the queue. *)
Theorem markFailed_reopens_processed_job :
  job_state (run 3 [MarkProcessing 1001 1; MarkProcessed 1002 1] queue_A) 1
  = Some (processed, 0)
  ∧ job_state (run 3 [MarkProcessing 1001 1; MarkProcessed 1002 1; MarkFailed 1003 1] queue_A) 1
    = Some (pending, 1).
Proof. by vm_compute. Qed.

(** C4: the code at the failing input.  With threshold 0 the cutoff is the
    current time and the comparison is strict, so a job claimed in the very
    millisecond of the reset stays [processing] with its start time. *)
Theorem resetStuckMessages_zero_misses_current_start :
  let claimed := markProcessing 2000 1 queue_A in
  (status <$> claimed !! 1 = Some processing
   ∧ started_processing_at_epoch <$> claimed !! 1 = Some (Some 2000))
  ∧ (resetStuckMessages 2000 0 claimed).1 = 0
  ∧ status <$> (resetStuckMessages 2000 0 claimed).2 !! 1 = Some processing
  ∧ started_processing_at_epoch <$> (resetStuckMessages 2000 0 claimed).2 !! 1
    = Some (Some 2000).
Proof. by vm_compute. Qed.

(** What [resetStuckMessages 0] does do: a processing job is requeued, and
    its start time cleared, exactly when that start time is strictly before
    the current time; every other row is left as it is. *)
Lemma resetStuckMessages_zero_spec now t k r :
  t !! k = Some r →
  (resetStuckMessages now 0 t).2 !! k
  = Some (match started_processing_at_epoch r with
          | Some started =>
              if bool_decide (status r = processing ∧ started < now)
              then set_started_processing_at_epoch None (set_status pending r)
              else r
          | None => r
          end).
Proof.
  intros Hr. rewrite resetStuckMessages_lookup, Hr. simpl. f_equal.
  destruct (started_processing_at_epoch r) as [started|]; simpl.
  - destruct (decide (status r = processing)) as [Hs|Hs];
      destruct (Z.ltb_spec started now); where_clause; try done.
    all: rewrite bool_decide_eq_false_2 by (intros [? ?]; done || lia); done.
  - by rewrite andb_false_r.
Qed.

(** C9: [markProcessed] on a processing job writes status [processed], the
    completion time, and NULL into [tool_input] and [tool_response], and
    nothing else, on that row only; [markProcessing], [markFailed],
    [retryMessage] and [resetStuckMessages] leave the two payload columns of
    every row as they were; and [markProcessed] on a job that is not
    processing leaves the whole table unchanged. *)
Theorem markProcessed_frame maxRetries now id t :
  (∀ j, t !! id = Some j → status j = processing →
     markProcessed now id t !! id
     = Some {| session_db_id := session_db_id j;
               claude_session_id := claude_session_id j;
               message_type := message_type j;
               tool_name := tool_name j;
               tool_input := None;
               tool_response := None;
               cwd := cwd j;
               last_user_message := last_user_message j;
               last_assistant_message := last_assistant_message j;
               prompt_number := prompt_number j;
               status := processed;
               retry_count := retry_count j;
               created_at_epoch := created_at_epoch j;
               started_processing_at_epoch := started_processing_at_epoch j;
               completed_at_epoch := Some now |})
  ∧ (∀ k, k ≠ id → markProcessed now id t !! k = t !! k)
  ∧ (∀ k now' id' thresholdMs,
       payload <$> markProcessing now' id' t !! k = payload <$> t !! k
       ∧ payload <$> markFailed maxRetries now' id' t !! k = payload <$> t !! k
       ∧ payload <$> (retryMessage id' t).2 !! k = payload <$> t !! k
       ∧ payload <$> (resetStuckMessages now' thresholdMs t).2 !! k = payload <$> t !! k)
  ∧ ((∀ j, t !! id = Some j → status j ≠ processing) → markProcessed now id t = t).
Proof.
  split; [|split; [|split]].
  - intros j Hj Hst. by rewrite (markProcessed_completes now id t j).
  - intros k Hk. by apply markProcessed_other.
  - intros k now' id' thresholdMs. repeat split.
    + by apply update_where_keeps.
    + by apply markFailed_keeps.
    + by apply update_where_keeps.
    + by apply update_where_keeps.
  - apply markProcessed_skips.
Qed.

(** Job A, once claimed and once still pending, under [markProcessed]. *)
Lemma markProcessed_frame_witness :
  let claimed := markProcessing 1001 1 queue_A in
  let pending_only := queue_A in
  (∃ j, claimed !! 1 = Some j ∧ status j = processing
        ∧ status <$> markProcessed 1002 1 claimed !! 1 = Some processed
        ∧ payload <$> markProcessed 1002 1 claimed !! 1 = Some (None, None)
        ∧ retry_count <$> markProcessed 1002 1 claimed !! 1 = Some (retry_count j))
  ∧ (∀ j, pending_only !! 1 = Some j → status j ≠ processing)
  ∧ markProcessed 1002 1 pending_only = pending_only.
Proof.
  intros claimed pending_only.
  destruct (markProcessed_frame 3 1002 1 claimed) as (Hdone & _).
  destruct (markProcessed_frame 3 1002 1 pending_only) as (_ & _ & _ & Hskip).
  assert (∀ j, pending_only !! 1 = Some j → status j ≠ processing) as Hpending.
  { intros j. vm_compute. intros [= <-]. discriminate. }
  split; [|split; [exact Hpending|exact (Hskip Hpending)]].
  eexists. split; [by vm_compute|]. split; [by vm_compute|].
  rewrite (Hdone _ eq_refl eq_refl). by vm_compute.
Defined.

(** C10: [retryMessage] never changes a retry_count.  A job that is
    [failed] with retry_count >= maxRetries is put back to [pending] with
    the counter it had, so the next [markFailed] (whether or not the job is
    claimed by [markProcessing] in between) returns it to [failed] at once. *)
Theorem retryMessage_restores_no_budget maxRetries now id t :
  (∀ k, retry_count <$> (retryMessage id t).2 !! k = retry_count <$> t !! k)
  ∧ (∀ j, t !! id = Some j → status j = failed → maxRetries ≤ retry_count j →
       (retryMessage id t).1 = true
       ∧ job_state (retryMessage id t).2 id = Some (pending, retry_count j)
       ∧ job_state (markFailed maxRetries now id (retryMessage id t).2) id
         = Some (failed, retry_count j)
       ∧ job_state (fail_once maxRetries id (retryMessage id t).2 now) id
         = Some (failed, retry_count j)).
Proof.
  split.
  - intros k. by apply update_where_keeps.
  - intros j Hj Hst Hrc.
    destruct (retryMessage_requeues id t j Hj) as [Hret Hrow]; [congruence|].
    split; [by rewrite Hret|].
    unfold job_state. split; [by rewrite Hrow|]. split.
    + by erewrite markFailed_gives_up; [|exact Hrow|].
    + by erewrite fail_once_gives_up; [|exact Hrow|..].
Qed.

(** Job A after four failures, retried by the operator, failing again. *)
Lemma retryMessage_restores_no_budget_witness :
  let exhausted := fail_repeatedly 3 1 [1001; 1002; 1003; 1004] queue_A in
  job_state exhausted 1 = Some (failed, 3)
  ∧ (retryMessage 1 exhausted).1 = true
  ∧ job_state (retryMessage 1 exhausted).2 1 = Some (pending, 3)
  ∧ job_state (markFailed 3 1005 1 (retryMessage 1 exhausted).2) 1 = Some (failed, 3).
Proof.
  intros exhausted.
  destruct (exhausted !! 1) as [j|] eqn:Hj; [|by vm_compute in Hj].
  assert (status j = failed ∧ retry_count j = 3) as [Hst Hrc].
  { vm_compute in Hj. injection Hj as <-. by vm_compute. }
  destruct (retryMessage_restores_no_budget 3 1005 1 exhausted) as [_ H].
  destruct (H j Hj Hst ltac:(lia)) as (H1 & H2 & H3 & _).
  rewrite Hrc in *. unfold job_state at 1. rewrite Hj. simpl. rewrite Hst, Hrc.
  by repeat split.
Defined.

End QueueClaims.

(* ===================================================================== *)
(** * Properties of the session store                                     *)
(* ===================================================================== *)

(** Runs the statements of an import that answered, up to its insert. *)
Ltac import_steps :=
  unfold mbind, Sessions.Result_bind;
  repeat match goal with
  | |- match ?r with Sessions.Ok _ => _ | Sessions.Err _ => _ end = _ → _ =>
      destruct r as [?|?] eqn:?; [|done]
  end.

(** Reads an insert that succeeded. *)
Ltac insert_succeeded H :=
  repeat match type of H with (if ?c then _ else _) = _ => destruct c; [done|] end;
  injection H as <-.

Section SessionFacts.
Import Sessions.

(** [rows[0]] after a row matching the condition was appended to a table
    that had no match. *)
Lemma find_after_append {A} (f : A → bool) (rows : list A) (row : A) :
  find f rows = None → f row = true → find f (rows ++ [row]) = Some row.
Proof.
  intros Hnone Hrow. induction rows as [|x rows IH]; simpl in *.
  - by rewrite Hrow.
  - destruct (f x); [done|]. by apply IH.
Qed.

Lemma find_is_member {A} (f : A → bool) (rows : list A) (row : A) :
  find f rows = Some row → row ∈ rows ∧ f row = true.
Proof.
  intros H. apply find_some in H as [Hin Hf]. split; [|done].
  by apply list_elem_of_In.
Qed.

Lemma find_none_iff {A} (f : A → bool) (rows : list A) :
  find f rows = None ↔ ∀ row, row ∈ rows → f row = false.
Proof.
  split.
  - intros H row Hin. apply (find_none _ _ H). by apply list_elem_of_In.
  - intros H. destruct (find f rows) as [row|] eqn:Hf; [|done].
    apply find_is_member in Hf as [Hin Hrow]. rewrite (H row Hin) in Hrow. done.
Qed.

Lemma find_some_of_member {A} (f : A → bool) (rows : list A) (row : A) :
  row ∈ rows → f row = true → ∃ first, find f rows = Some first.
Proof.
  intros Hin Hrow. destruct (find f rows) as [first|] eqn:Hf; [eauto|].
  rewrite find_none_iff in Hf. rewrite (Hf row Hin) in Hrow. done.
Qed.

Lemma existsb_none {A} (f : A → bool) (rows : list A) :
  (∀ row, row ∈ rows → f row = false) → existsb f rows = false.
Proof.
  intros H. induction rows as [|x rows IH]; simpl; [done|].
  rewrite (H x) by apply list_elem_of_here. simpl.
  apply IH. intros row Hin. apply H. by apply list_elem_of_further.
Qed.

(** [rows[0]] after an [UPDATE] that does not touch the searched columns. *)
Lemma find_map {A} (f : A → bool) (g : A → A) (rows : list A) :
  (∀ x, f (g x) = f x) → find f (map g rows) = g <$> find f rows.
Proof.
  intros Hfg. induction rows as [|x rows IH]; simpl; [done|].
  rewrite Hfg. by destruct (f x).
Qed.

(** *** Importing twice *)

(** After a successful [importSdkSession], importing the same session again
    reports the same id, not imported, and writes nothing. *)
Lemma importSdkSession_again srv session db r db1 :
  importSdkSession srv session db = Ok (r, db1) →
  importSdkSession srv session db1 = Ok ({| imported := false; id := id r |}, db1).
Proof.
  unfold importSdkSession.
  destruct (find _ (sdk_sessions db)) as [existing|] eqn:Hfind.
  - intros [= <- <-]. by rewrite Hfind.
  - import_steps. intros [= <- <-].
    match goal with H : insert_sdk_session _ db = _ |- _ =>
      unfold insert_sdk_session in H; insert_succeeded H end.
    simpl. rewrite (find_after_append _ _ _ Hfind); [done|].
    simpl. by apply bool_decide_eq_true_2.
Qed.

Lemma importSdkSession_first srv session db r db1 :
  (∀ s, s ∈ sdk_sessions db → s_claude_session_id s ≠ si_claude_session_id session) →
  importSdkSession srv session db = Ok (r, db1) →
  imported r = true ∧ length (sdk_sessions db1) = S (length (sdk_sessions db)).
Proof.
  intros Habsent. unfold importSdkSession.
  destruct (find _ (sdk_sessions db)) as [existing|] eqn:Hfind.
  - apply find_is_member in Hfind as [Hin Heq%bool_decide_eq_true].
    by destruct (Habsent existing Hin).
  - import_steps. intros [= <- <-].
    match goal with H : insert_sdk_session _ db = _ |- _ =>
      unfold insert_sdk_session in H; insert_succeeded H end.
    simpl. rewrite length_app. simpl. split; [done|lia].
Qed.

Lemma importUserPrompt_again srv prompt db r db1 :
  importUserPrompt srv prompt db = Ok (r, db1) →
  importUserPrompt srv prompt db1 = Ok ({| imported := false; id := id r |}, db1).
Proof.
  unfold importUserPrompt.
  destruct (find _ (user_prompts db)) as [existing|] eqn:Hfind.
  - intros [= <- <-]. by rewrite Hfind.
  - import_steps. intros [= <- <-].
    match goal with H : insert_user_prompt _ db = _ |- _ =>
      unfold insert_user_prompt in H; insert_succeeded H end.
    simpl. rewrite (find_after_append _ _ _ Hfind); [done|].
    simpl. by rewrite !bool_decide_eq_true_2.
Qed.

Lemma importUserPrompt_first srv prompt db r db1 :
  (∀ p, p ∈ user_prompts db →
        ¬ (p_claude_session_id p = pi_claude_session_id prompt
           ∧ p_prompt_number p = pi_prompt_number prompt)) →
  importUserPrompt srv prompt db = Ok (r, db1) →
  imported r = true ∧ length (user_prompts db1) = S (length (user_prompts db)).
Proof.
  intros Habsent. unfold importUserPrompt.
  destruct (find _ (user_prompts db)) as [existing|] eqn:Hfind.
  - apply find_is_member in Hfind as [Hin Heq].
    apply andb_true_iff in Heq as [H1%bool_decide_eq_true H2%bool_decide_eq_true].
    by destruct (Habsent existing Hin).
  - import_steps. intros [= <- <-].
    match goal with H : insert_user_prompt _ db = _ |- _ =>
      unfold insert_user_prompt in H; insert_succeeded H end.
    simpl. rewrite length_app. simpl. split; [done|lia].
Qed.

(** For an observation the same holds when its title is not [null]. *)
Lemma importObservation_again srv obs db r db1 :
  is_Some (oi_title obs) →
  importObservation srv obs db = Ok (r, db1) →
  importObservation srv obs db1 = Ok ({| imported := false; id := id r |}, db1).
Proof.
  intros [title Htitle]. unfold importObservation.
  destruct (find _ (observations db)) as [existing|] eqn:Hfind.
  - intros [= <- <-]. by rewrite Hfind.
  - import_steps. intros [= <- <-].
    match goal with H : insert_observation _ db = _ |- _ =>
      unfold insert_observation in H; insert_succeeded H end.
    simpl. rewrite (find_after_append _ _ _ Hfind); [done|].
    simpl. rewrite Htitle. simpl. by rewrite !bool_decide_eq_true_2.
Qed.

Lemma importObservation_first srv obs db r db1 :
  (∀ o, o ∈ observations db →
        ¬ (o_sdk_session_id o = oi_sdk_session_id obs
           ∧ o_title o = oi_title obs
           ∧ o_created_at_epoch o = oi_created_at_epoch obs)) →
  importObservation srv obs db = Ok (r, db1) →
  imported r = true ∧ length (observations db1) = S (length (observations db)).
Proof.
  intros Habsent. unfold importObservation.
  destruct (find _ (observations db)) as [existing|] eqn:Hfind.
  - apply find_is_member in Hfind as [Hin Heq].
    apply andb_true_iff in Heq as [Heq H3%bool_decide_eq_true].
    apply andb_true_iff in Heq as [H1%bool_decide_eq_true H2].
    destruct (Habsent existing Hin). repeat split; [done| |done].
    unfold sql_eq_str in H2.
    destruct (o_title existing), (oi_title obs); try done.
    by apply bool_decide_eq_true in H2 as ->.
  - import_steps. intros [= <- <-].
    match goal with H : insert_observation _ db = _ |- _ =>
      unfold insert_observation in H; insert_succeeded H end.
    simpl. rewrite length_app. simpl. split; [done|lia].
Qed.

(** A summary whose [files_read] text the server does not read as JSON is
    rejected, where no summary of its session is stored yet. *)
Lemma importSessionSummary_rejects_bad_json srv summary text db :
  (∀ m, m ∈ session_summaries db → m_sdk_session_id m ≠ mi_sdk_session_id summary) →
  mi_files_read summary = Some text → jsonb_in srv text = None →
  importSessionSummary srv summary db = Err data_exception.
Proof.
  intros Hnone Htext Hbad. unfold importSessionSummary.
  rewrite (proj2 (find_none_iff _ _)); last first.
  { intros m Hin. apply bool_decide_eq_false_2. by apply Hnone. }
  by rewrite Htext; simpl; rewrite Hbad.
Qed.

(** An observation without a title never matches the natural-key test, its
    own stored row included. *)
Lemma importObservation_untitled_never_found obs db :
  oi_title obs = None →
  find (λ o, bool_decide (o_sdk_session_id o = oi_sdk_session_id obs)
             && sql_eq_str (o_title o) (oi_title obs)
             && bool_decide (o_created_at_epoch o = oi_created_at_epoch obs))
       (observations db) = None.
Proof.
  intros Htitle. apply find_none_iff. intros o _. rewrite Htitle.
  unfold sql_eq_str. destruct (o_title o); by rewrite andb_false_r.
Qed.

(** *** The boundaries of the timeline window *)

Lemma order_by_desc_elem_of {A} (key : A → Z) (rows : list A) (x : A) :
  x ∈ order_by_desc key rows ↔ x ∈ rows.
Proof. unfold order_by_desc. by rewrite merge_sort_Permutation. Qed.

Lemma order_by_asc_elem_of {A} (key : A → Z) (rows : list A) (x : A) :
  x ∈ order_by_asc key rows ↔ x ∈ rows.
Proof. unfold order_by_asc. by rewrite merge_sort_Permutation. Qed.

Lemma order_by_desc_length {A} (key : A → Z) (rows : list A) :
  length (order_by_desc key rows) = length rows.
Proof. unfold order_by_desc. by rewrite merge_sort_Permutation. Qed.

Lemma order_by_asc_length {A} (key : A → Z) (rows : list A) :
  length (order_by_asc key rows) = length rows.
Proof. unfold order_by_asc. by rewrite merge_sort_Permutation. Qed.

(** The first row of [ORDER BY key DESC] carries the largest key. *)
Lemma order_by_desc_head {A} (key : A → Z) (rows : list A) (x : A) :
  x ∈ rows →
  ∃ top rest, order_by_desc key rows = top :: rest ∧ top ∈ rows ∧ key x ≤ key top.
Proof.
  intros Hx.
  assert (Transitive (λ a b : A, key b ≤ key a)) as Htrans by (intros a b c; lia).
  assert (Total (λ a b : A, key b ≤ key a)) as Htotal by (intros a b; lia).
  pose proof (@StronglySorted_merge_sort A (λ a b, key b ≤ key a)
                (λ a b, decide (key b ≤ key a)) Htrans Htotal rows) as Hsorted.
  fold (order_by_desc key rows) in Hsorted.
  apply (order_by_desc_elem_of key) in Hx as Hx'.
  destruct (order_by_desc key rows) as [|top rest] eqn:Hsort;
    [by apply elem_of_nil in Hx'|].
  exists top, rest. split; [done|]. split.
  - apply (order_by_desc_elem_of key). rewrite Hsort. apply list_elem_of_here.
  - apply StronglySorted_inv in Hsorted as [_ Hall].
    apply elem_of_cons in Hx' as [->|Hin]; [lia|].
    rewrite Forall_forall in Hall. by apply Hall.
Qed.

(** With [depthBefore = 1] and an observation stored at the anchor time,
    the older boundary is the anchor time itself: the window never reaches
    an observation older than the anchor. *)
Lemma timeline_depth_one_reaches_nothing_older
    anchorId anchorEpoch depthAfter db timeline :
  (∃ o, o ∈ observations db ∧ o_created_at_epoch o = anchorEpoch) →
  getTimelineAroundObservation anchorId anchorEpoch 1 depthAfter None db = Ok timeline →
  ∀ o, o ∈ tl_observations timeline → anchorEpoch ≤ o_created_at_epoch o.
Proof.
  intros (anchor & Hin & Hanchor). unfold getTimelineAroundObservation.
  set (older := map o_created_at_epoch (filter _ (observations db))).
  assert (anchorEpoch ∈ older) as Hmem.
  { subst older. apply list_elem_of_fmap. exists anchor. split; [done|].
    apply list_elem_of_filter. split; [|done]. split; [lia|done]. }
  destruct (order_by_desc_head (λ e : Z, e) older anchorEpoch Hmem)
    as (top & rest & Hsorted & Htop & Hle).
  assert (top = anchorEpoch) as ->.
  { subst older. apply list_elem_of_fmap in Htop as (o & -> & Ho).
    apply list_elem_of_filter in Ho as [[Ho _] _]. lia. }
  rewrite Hsorted. unfold limit at 1. simpl.
  destruct (limit (depthAfter + 1) _) as [afterResult|e]; [|done].
  simpl. intros [= <-] o Ho. simpl in Ho.
  apply order_by_asc_elem_of, list_elem_of_filter in Ho as [[Ho _] _].
  by unfold boundary in Ho.
Qed.

End SessionFacts.

Section SessionClaims.
Import Sessions SessionScenario StoreScenario.

(** C5: the code at the failing input.  Session S is in the database; an
    observation of S whose title is [null] is imported twice.  The
    natural-key test compares the title by SQL [=], which is never true of
    NULL, so the second call inserts again: both calls answer
    [imported: true], with ids 1 and 2, and the table holds two rows. *)
Theorem importObservation_null_title_imported_twice :
  importSdkSession scenario_server session_S empty_db
  = Ok ({| imported := true; id := 1 |}, db_S)
  ∧ ∃ db1 db2,
      importObservation scenario_server (observation_of_S None 10) db_S
      = Ok ({| imported := true; id := 1 |}, db1)
      ∧ importObservation scenario_server (observation_of_S None 10) db1
        = Ok ({| imported := true; id := 2 |}, db2)
      ∧ length (observations db1) = 1%nat
      ∧ length (observations db2) = 2%nat.
Proof. split; [by vm_compute|]. do 2 eexists. by vm_compute. Qed.

(** C6: the code at the failing input.  Session S is in the database.  The
    summary of S for prompt 1 is imported; the summary of S for prompt 2,
    a different natural key, is then skipped and answered with the id of
    the first, and the table holds one summary. *)
Theorem second_summary_of_session_is_skipped :
  ∃ db1,
    importSessionSummary scenario_server (summary_of_S 1) db_S
    = Ok ({| imported := true; id := 1 |}, db1)
    ∧ mi_prompt_number (summary_of_S 2) ≠ mi_prompt_number (summary_of_S 1)
    ∧ importSessionSummary scenario_server (summary_of_S 2) db1
      = Ok ({| imported := false; id := 1 |}, db1)
    ∧ length (session_summaries db1) = 1%nat.
Proof. eexists. by vm_compute. Qed.

(** The same on every database and server: a summary is skipped exactly
    when a summary of its session is stored, whatever the prompt numbers,
    and once a call has answered, every further summary of that session is
    skipped with the same id. *)
Lemma importSessionSummary_tests_session_only srv summary db r db' :
  importSessionSummary srv summary db = Ok (r, db') →
  (imported r = false ↔
     ∃ m, m ∈ session_summaries db ∧ m_sdk_session_id m = mi_sdk_session_id summary)
  ∧ ∀ other, mi_sdk_session_id other = mi_sdk_session_id summary →
      importSessionSummary srv other db' = Ok ({| imported := false; id := id r |}, db').
Proof.
  unfold importSessionSummary at 1.
  destruct (find _ (session_summaries db)) as [existing|] eqn:Hfind.
  - intros [= <- <-]. split.
    + split; [|done]. intros _. exists existing.
      by apply find_is_member in Hfind as [? ?%bool_decide_eq_true].
    + intros other Hother. unfold importSessionSummary. by rewrite Hother, Hfind.
  - import_steps. intros [= <- <-].
    match goal with H : insert_session_summary _ db = _ |- _ =>
      unfold insert_session_summary in H; insert_succeeded H end.
    split.
    + split; [done|]. intros (m & Hin & Hm).
      rewrite find_none_iff in Hfind. specialize (Hfind m Hin).
      by apply bool_decide_eq_false in Hfind.
    + intros other Hother. unfold importSessionSummary. simpl.
      rewrite Hother, (find_after_append _ _ _ Hfind); [done|].
      simpl. by apply bool_decide_eq_true_2.
Qed.

(** C3: the code at the failing input.  Five observations at epochs 10 to
    50, anchor at 30, both depths 2.  The older boundary is taken from the
    two newest rows at or before the anchor, which are 30 and 20, while the
    newer boundary is taken from depthAfter + 1 rows; the window is
    [20, 50] and the observation at epoch 10 is not returned. *)
Theorem timeline_depth_two_returns_four_of_five :
  ∃ db,
    import_observations five_observations db_S = Ok db
    ∧ map o_created_at_epoch (observations db) = [10; 20; 30; 40; 50]
    ∧ ∃ timeline,
        getTimelineAroundObservation (Some 3) 30 2 2 None db = Ok timeline
        ∧ map o_created_at_epoch (tl_observations timeline) = [20; 30; 40; 50]
        ∧ map o_id (tl_observations timeline) = [2; 3; 4; 5].
Proof.
  eexists. split; [by vm_compute|]. split; [by vm_compute|].
  eexists. split; [by vm_compute|]. by vm_compute.
Qed.

(** C7, as stated, fails: the first call for an id need not create a row.
    The imported session of [db_split] has external id claude-1 and SDK id
    sdk-1, so no session has the external id sdk-1; the first call for
    sdk-1 proposes a row with that SDK id, which [sdk_session_id UNIQUE]
    rejects, and the upsert absorbs a conflict on the external id only. *)
Lemma createSDKSession_first_call_rejected :
  importSdkSession scenario_server session_split empty_db
  = Ok ({| imported := true; id := 1 |}, db_split)
  ∧ findAnySDKSession "sdk-1" db_split = None
  ∧ createSDKSession "2025-01-02T00:00:00.000Z" 100 "user" "sdk-1" "demo" "hello" db_split
    = Err unique_violation.
Proof. by vm_compute. Qed.

(** C7 (amended): [createSDKSession] is an upsert keyed by the external
    session id.  With no row for the id it inserts one with status
    [active], the given project and prompt, and returns the new row's id,
    provided no stored session carries the id as its SDK id; when one
    does, the call is rejected and nothing is created.  With a row for the
    id it returns that row's id and rewrites only that row: the prompt is
    overwritten, the project is replaced only when the stored project is
    the empty string, a non-empty project and every other column stay, and
    all other rows stay.  Whatever a call returned, any later call with the
    same id returns the same internal id. *)
Theorem createSDKSession_upsert nowIso nowEpoch userId cid project prompt db :
  ((∀ s, s ∈ sdk_sessions db →
         s_claude_session_id s ≠ cid ∧ s_sdk_session_id s ≠ Some cid
         ∧ s_id s ≠ sdk_sessions_id_seq db) →
     ∃ db',
       createSDKSession nowIso nowEpoch userId cid project prompt db
       = Ok (sdk_sessions_id_seq db, db')
       ∧ sdk_sessions db'
         = sdk_sessions db ++
           [ {| s_id := sdk_sessions_id_seq db; s_claude_session_id := cid;
                s_sdk_session_id := Some cid; s_project := project;
                s_user_id := Some userId; s_user_prompt := Some prompt;
                s_started_at := nowIso; s_started_at_epoch := nowEpoch;
                s_completed_at := None; s_completed_at_epoch := None;
                s_status := "active"; s_worker_port := None;
                s_prompt_counter := Some 0 |} ])
  ∧ ((∀ s, s ∈ sdk_sessions db → s_claude_session_id s ≠ cid) →
     (∃ s, s ∈ sdk_sessions db ∧ s_sdk_session_id s = Some cid) →
     createSDKSession nowIso nowEpoch userId cid project prompt db = Err unique_violation)
  ∧ ((∃ s, s ∈ sdk_sessions db ∧ s_claude_session_id s = cid) →
     ∃ existing db',
       existing ∈ sdk_sessions db ∧ s_claude_session_id existing = cid
       ∧ createSDKSession nowIso nowEpoch userId cid project prompt db
         = Ok (s_id existing, db')
       ∧ sdk_sessions db'
         = map (λ s, if bool_decide (s_claude_session_id s = cid)
                     then {| s_id := s_id s;
                             s_claude_session_id := s_claude_session_id s;
                             s_sdk_session_id := s_sdk_session_id s;
                             s_project := if bool_decide (s_project s = "")
                                          then project else s_project s;
                             s_user_id := s_user_id s;
                             s_user_prompt := Some prompt;
                             s_started_at := s_started_at s;
                             s_started_at_epoch := s_started_at_epoch s;
                             s_completed_at := s_completed_at s;
                             s_completed_at_epoch := s_completed_at_epoch s;
                             s_status := s_status s;
                             s_worker_port := s_worker_port s;
                             s_prompt_counter := s_prompt_counter s |}
                     else s)
               (sdk_sessions db)
       ∧ (∀ n s, sdk_sessions db !! n = Some s → s_project s ≠ "" →
            s_project <$> sdk_sessions db' !! n = Some (s_project s)))
  ∧ (∀ i db1,
       createSDKSession nowIso nowEpoch userId cid project prompt db = Ok (i, db1) →
       ∀ nowIso' nowEpoch' userId' project' prompt',
         ∃ db2, createSDKSession nowIso' nowEpoch' userId' cid project' prompt' db1
                = Ok (i, db2)).
Proof.
  split; [|split; [|split]].
  - intros Hfresh. unfold createSDKSession.
    rewrite (proj2 (find_none_iff _ _)); last first.
    { intros s Hin. apply bool_decide_eq_false_2. by apply Hfresh. }
    unfold insert_sdk_session, claude_session_id_exists. simpl.
    rewrite !existsb_none; [by eexists|..].
    all: intros s Hin; destruct (Hfresh s Hin) as (Hc & Hsdk & Hid).
    all: try (by apply bool_decide_eq_false_2).
    unfold sql_eq_str. destruct (s_sdk_session_id s); [|done].
    apply bool_decide_eq_false_2. congruence.
  - intros Hnone (s & Hin & Hsdk). unfold createSDKSession.
    rewrite (proj2 (find_none_iff _ _)); last first.
    { intros s' Hin'. apply bool_decide_eq_false_2. by apply Hnone. }
    unfold insert_sdk_session. simpl.
    destruct (existsb (λ s, bool_decide (s_id s = sdk_sessions_id_seq db))
                (sdk_sessions db)); [done|].
    destruct (claude_session_id_exists cid db); [done|].
    assert (existsb (λ s0, sql_eq_str (s_sdk_session_id s0) (Some cid)) (sdk_sessions db)
            = true) as ->; [|done].
    apply existsb_exists. exists s. split; [by apply list_elem_of_In|].
    rewrite Hsdk. simpl. by apply bool_decide_eq_true_2.
  - intros (s & Hin & Hs).
    destruct (find_some_of_member (λ s, bool_decide (s_claude_session_id s = cid))
                _ s Hin) as [existing Hfind]; [by apply bool_decide_eq_true_2|].
    unfold createSDKSession. rewrite Hfind.
    apply find_is_member in Hfind as [Hin' Hcid%bool_decide_eq_true].
    exists existing. eexists. repeat split; [done..|].
    intros n s' Hn Hproject. simpl. rewrite list_lookup_fmap, Hn. simpl.
    destruct (bool_decide (s_claude_session_id s' = cid)); [|done].
    simpl. by rewrite bool_decide_eq_false_2.
  - intros i db1. unfold createSDKSession at 1.
    destruct (find _ (sdk_sessions db)) as [existing|] eqn:Hfind.
    + intros [= <- <-] nowIso' nowEpoch' userId' project' prompt'.
      unfold createSDKSession. simpl. rewrite find_map, Hfind.
      * simpl. eexists. f_equal. f_equal.
        by destruct (bool_decide (s_claude_session_id existing = cid)).
      * intros s. by destruct (bool_decide (s_claude_session_id s = cid)) eqn:Hc.
    + unfold insert_sdk_session.
      repeat match goal with |- (if ?c then _ else _) = _ → _ => destruct c; [done|] end.
      intros [= <- <-] nowIso' nowEpoch' userId' project' prompt'.
      unfold createSDKSession. simpl.
      rewrite (find_after_append _ _ _ Hfind); [by eexists|].
      simpl. by apply bool_decide_eq_true_2.
Qed.

(** Three calls for session S: the empty project is filled by the second
    call and kept by the third; the prompt follows every call. *)
Lemma createSDKSession_upsert_witness :
  ∃ db1 db2 db3,
    createSDKSession "2025-01-01T00:00:00.001Z" 1 "user" "S" "" "first" empty_db
    = Ok (1, db1)
    ∧ createSDKSession "2025-01-01T00:00:00.002Z" 2 "user" "S" "demo" "second" db1
      = Ok (1, db2)
    ∧ createSDKSession "2025-01-01T00:00:00.003Z" 3 "user" "S" "other" "third" db2
      = Ok (1, db3)
    ∧ map (λ s, (s_project s, s_user_prompt s, s_status s)) (sdk_sessions db1)
      = [("", Some "first", "active")]
    ∧ map (λ s, (s_project s, s_user_prompt s, s_status s)) (sdk_sessions db2)
      = [("demo", Some "second", "active")]
    ∧ map (λ s, (s_project s, s_user_prompt s, s_status s)) (sdk_sessions db3)
      = [("demo", Some "third", "active")].
Proof.
  destruct (createSDKSession_upsert "2025-01-01T00:00:00.001Z" 1 "user" "S" "" "first"
              empty_db) as (Hfirst & _ & _ & Hsame).
  destruct Hfirst as (db1 & H1 & Hrows1).
  { intros s Hin. by apply elem_of_nil in Hin. }
  destruct (Hsame _ _ H1 "2025-01-01T00:00:00.002Z" 2 "user" "demo" "second")
    as (db2 & H2).
  destruct (createSDKSession_upsert "2025-01-01T00:00:00.002Z" 2 "user" "S" "demo"
              "second" db1) as (_ & _ & _ & Hsame2).
  destruct (Hsame2 _ _ H2 "2025-01-01T00:00:00.003Z" 3 "user" "other" "third")
    as (db3 & H3).
  exists db1, db2, db3. repeat split; [exact H1|exact H2|exact H3|..].
  - by rewrite Hrows1.
  - vm_compute in H1. injection H1 as <-.
    vm_compute in H2. injection H2 as <-. by vm_compute.
  - vm_compute in H1. injection H1 as <-.
    vm_compute in H2. injection H2 as <-.
    vm_compute in H3. injection H3 as <-. by vm_compute.
Defined.

End SessionClaims.

(* ===================================================================== *)
(** * Properties of the replication fan-out                               *)
(* ===================================================================== *)

Section ReplicationFacts.
Import Replication.

Lemma fetched_ports_app e1 e2 :
  fetched_ports (e1 ++ e2) = fetched_ports e1 ++ fetched_ports e2.
Proof.
  induction e1 as [|[] e1 IH]; simpl; [done|by rewrite IH|done..].
Qed.

Lemma warned_ports_app e1 e2 :
  warned_ports (e1 ++ e2) = warned_ports e1 ++ warned_ports e2.
Proof.
  induction e1 as [|[] e1 IH]; simpl; [done|done|by rewrite IH|done].
Qed.

(** A loop whose body never throws runs the body for every element, in
    order, and never throws. *)
Lemma for_of_runs_all {A} (xs : list A) (body : A → M unit) (net : Network) :
  (∀ x, (body x net).1 = returns ()) →
  for_of xs body net = (returns (), concat (map (λ x, (body x net).2) xs)).
Proof.
  intros Hbody. induction xs as [|x xs IH]; simpl; [done|].
  unfold mbind, M_bind. specialize (Hbody x).
  destruct (body x net) as [[[]|e] done_x]; simpl in *; [|done].
  by rewrite IH.
Qed.

(** One attempt: whatever the network does, the attempt returns. *)
Lemma attempt_returns host path payload ft dt et entity port net :
  (attempt host path payload ft dt et entity port net).1 = returns ().
Proof.
  unfold attempt, try_catch, mbind, M_bind, JSON_stringify, fetch, stringify_any,
    logger_warn, logger_debug, mret, M_ret.
  destruct payload as [d|d|d|d]; simpl;
    try destruct (od_observation d); try destruct (sd_summary d); simpl;
    try done.
  all: destruct (net _) as [[[] ?]|?]; done.
Qed.

(** One attempt sends one request to its port, unless the payload cannot
    be serialised. *)
Lemma attempt_fetches host path payload ft dt et entity port net :
  fetched_ports (attempt host path payload ft dt et entity port net).2
  = if serialisable payload then [port] else [].
Proof.
  unfold attempt, try_catch, mbind, M_bind, JSON_stringify, fetch, stringify_any,
    logger_warn, logger_debug, mret, M_ret.
  destruct payload as [d|d|d|d]; simpl;
    try destruct (od_observation d); try destruct (sd_summary d); simpl;
    try done.
  all: destruct (net _) as [[[] ?]|?]; done.
Qed.

(** One attempt logs a warning for its port exactly when it fails: the
    request is rejected, the response is not ok, or the payload cannot be
    serialised. *)
Lemma attempt_warns host path payload ft dt et entity port net :
  warned_ports (attempt host path payload ft dt et entity port net).2
  = if serialisable payload
    then if fails net {| req_host := host; req_port := port;
                         req_path := path; req_body := payload |}
         then [port] else []
    else [port].
Proof.
  unfold attempt, try_catch, mbind, M_bind, JSON_stringify, fetch, stringify_any,
    logger_warn, logger_debug, mret, M_ret, fails.
  destruct payload as [d|d|d|d]; simpl;
    try destruct (od_observation d); try destruct (sd_summary d); simpl;
    try done.
  all: destruct (net _) as [[[] ?]|?]; done.
Qed.

(** The fan-out over a list of ports. *)
Lemma fan_out_returns host path payload ft dt et entity ports net :
  (for_of ports (attempt host path payload ft dt et entity) net).1 = returns ().
Proof. rewrite for_of_runs_all; [done|]. intros. apply attempt_returns. Qed.

Lemma fan_out_fetches host path payload ft dt et entity ports net :
  fetched_ports (for_of ports (attempt host path payload ft dt et entity) net).2
  = if serialisable payload then ports else [].
Proof.
  rewrite for_of_runs_all by (intros; apply attempt_returns). simpl.
  induction ports as [|p ports IH]; simpl; [by destruct (serialisable payload)|].
  rewrite fetched_ports_app, IH, attempt_fetches.
  by destruct (serialisable payload).
Qed.

Lemma fan_out_warns host path payload ft dt et entity ports net :
  warned_ports (for_of ports (attempt host path payload ft dt et entity) net).2
  = if serialisable payload
    then filter (λ port, fails net {| req_host := host; req_port := port;
                                      req_path := path; req_body := payload |} = true)
                ports
    else ports.
Proof.
  rewrite for_of_runs_all by (intros; apply attempt_returns). simpl.
  induction ports as [|p ports IH]; simpl; [by destruct (serialisable payload)|].
  rewrite warned_ports_app, IH, attempt_warns.
  destruct (serialisable payload); [|done].
  rewrite filter_cons. simpl.
  destruct (fails net _); by case_decide.
Qed.

Lemma secondary_ports_spec cfg p :
  p ∈ getSecondaryPorts cfg ↔ p ∈ workerPorts cfg ∧ p ≠ workerPort cfg.
Proof. unfold getSecondaryPorts. rewrite list_elem_of_filter. tauto. Qed.

End ReplicationFacts.

Section ReplicationClaims.
Import Replication ReplicationScenario.

Lemma replicateObservation_fan_out cfg d :
  replicateObservation cfg d
  = for_of (getSecondaryPorts cfg)
      (attempt (workerHost cfg) "/api/replicate/observation" (observation_payload d)
         "Failed to replicate observation to port" "Observation replicated to port"
         "Error replicating observation to port" (obsId d)).
Proof.
  unfold replicateObservation. case_bool_decide as Hlen; [|done].
  apply nil_length_inv in Hlen. by rewrite Hlen.
Qed.

Lemma replicateSummary_fan_out cfg d :
  replicateSummary cfg d
  = for_of (getSecondaryPorts cfg)
      (attempt (workerHost cfg) "/api/replicate/summary" (summary_payload d)
         "Failed to replicate summary to port" "Summary replicated to port"
         "Error replicating summary to port" (summaryId d)).
Proof.
  unfold replicateSummary. case_bool_decide as Hlen; [|done].
  apply nil_length_inv in Hlen. by rewrite Hlen.
Qed.

Lemma replicateSessionInit_fan_out cfg d :
  replicateSessionInit cfg d
  = for_of (getSecondaryPorts cfg)
      (attempt (workerHost cfg) "/api/replicate/session" (session_payload d)
         "Failed to replicate session to port" "Session replicated to port"
         "Error replicating session to port" (sessionDbId d)).
Proof.
  unfold replicateSessionInit. case_bool_decide as Hlen; [|done].
  apply nil_length_inv in Hlen. by rewrite Hlen.
Qed.

Lemma replicateUserPrompt_fan_out cfg d :
  replicateUserPrompt cfg d
  = for_of (getSecondaryPorts cfg)
      (attempt (workerHost cfg) "/api/replicate/prompt" (prompt_payload d)
         "Failed to replicate prompt to port" "Prompt replicated to port"
         "Error replicating prompt to port" (promptNumber d)).
Proof.
  unfold replicateUserPrompt. case_bool_decide as Hlen; [|done].
  apply nil_length_inv in Hlen. by rewrite Hlen.
Qed.

(** C8: the secondary set is the configured ports minus the primary.  On
    every network, each of [replicateSessionInit], [replicateObservation],
    [replicateSummary] and [replicateUserPrompt] returns normally; it sends a
    request to every secondary, in order, whichever of them fail; it logs a
    warning for exactly the secondaries that fail; and with an empty
    secondary set it performs no effect at all.  (An observation or summary
    that cannot be serialised is sent nowhere and warned about for every
    secondary, still without throwing.) *)
Theorem replicate_never_throws cfg net :
  (∀ p, p ∈ getSecondaryPorts cfg ↔ p ∈ workerPorts cfg ∧ p ≠ workerPort cfg)
  ∧ (∀ d,
       (replicateSessionInit cfg d net).1 = returns ()
       ∧ fetched_ports (replicateSessionInit cfg d net).2 = getSecondaryPorts cfg
       ∧ warned_ports (replicateSessionInit cfg d net).2
         = filter (λ port, fails net {| req_host := workerHost cfg; req_port := port;
                                        req_path := "/api/replicate/session";
                                        req_body := session_payload d |} = true)
                  (getSecondaryPorts cfg)
       ∧ (getSecondaryPorts cfg = [] → (replicateSessionInit cfg d net).2 = []))
  ∧ (∀ d,
       (replicateObservation cfg d net).1 = returns ()
       ∧ fetched_ports (replicateObservation cfg d net).2
         = (if serialisable (observation_payload d) then getSecondaryPorts cfg else [])
       ∧ warned_ports (replicateObservation cfg d net).2
         = (if serialisable (observation_payload d)
            then filter (λ port, fails net {| req_host := workerHost cfg; req_port := port;
                                              req_path := "/api/replicate/observation";
                                              req_body := observation_payload d |} = true)
                        (getSecondaryPorts cfg)
            else getSecondaryPorts cfg)
       ∧ (getSecondaryPorts cfg = [] → (replicateObservation cfg d net).2 = []))
  ∧ (∀ d,
       (replicateSummary cfg d net).1 = returns ()
       ∧ fetched_ports (replicateSummary cfg d net).2
         = (if serialisable (summary_payload d) then getSecondaryPorts cfg else [])
       ∧ warned_ports (replicateSummary cfg d net).2
         = (if serialisable (summary_payload d)
            then filter (λ port, fails net {| req_host := workerHost cfg; req_port := port;
                                              req_path := "/api/replicate/summary";
                                              req_body := summary_payload d |} = true)
                        (getSecondaryPorts cfg)
            else getSecondaryPorts cfg)
       ∧ (getSecondaryPorts cfg = [] → (replicateSummary cfg d net).2 = []))
  ∧ (∀ d,
       (replicateUserPrompt cfg d net).1 = returns ()
       ∧ fetched_ports (replicateUserPrompt cfg d net).2 = getSecondaryPorts cfg
       ∧ warned_ports (replicateUserPrompt cfg d net).2
         = filter (λ port, fails net {| req_host := workerHost cfg; req_port := port;
                                        req_path := "/api/replicate/prompt";
                                        req_body := prompt_payload d |} = true)
                  (getSecondaryPorts cfg)
       ∧ (getSecondaryPorts cfg = [] → (replicateUserPrompt cfg d net).2 = [])).
Proof.
  split; [apply secondary_ports_spec|].
  split; [|split; [|split]]; intros d.
  - rewrite replicateSessionInit_fan_out.
    split; [apply fan_out_returns|]. split; [apply fan_out_fetches|].
    split; [apply fan_out_warns|]. by intros ->.
  - rewrite replicateObservation_fan_out.
    split; [apply fan_out_returns|]. split; [apply fan_out_fetches|].
    split; [apply fan_out_warns|]. by intros ->.
  - rewrite replicateSummary_fan_out.
    split; [apply fan_out_returns|]. split; [apply fan_out_fetches|].
    split; [apply fan_out_warns|]. by intros ->.
  - rewrite replicateUserPrompt_fan_out.
    split; [apply fan_out_returns|]. split; [apply fan_out_fetches|].
    split; [apply fan_out_warns|]. by intros ->.
Qed.

(** Primary 37777 and secondary 38888, the secondary unreachable: the call
    returns and a warning names port 38888; with the primary alone nothing
    happens. *)
Lemma replicate_never_throws_witness :
  getSecondaryPorts single_instance = []
  ∧ (replicateObservation single_instance observation_42 unreachable).2 = []
  ∧ (replicateObservation two_instances observation_42 unreachable).1 = returns ()
  ∧ warned_ports (replicateObservation two_instances observation_42 unreachable).2
    = [38888].
Proof.
  destruct (replicate_never_throws single_instance unreachable)
    as (_ & _ & Hsingle & _).
  destruct (replicate_never_throws two_instances unreachable)
    as (_ & _ & Htwo & _).
  destruct (Hsingle observation_42) as (_ & _ & _ & Hnothing).
  destruct (Htwo observation_42) as (Hreturns & _ & Hwarned & _).
  assert (getSecondaryPorts single_instance = []) as Hempty by (by vm_compute).
  split; [exact Hempty|]. split; [exact (Hnothing Hempty)|].
  split; [exact Hreturns|]. rewrite Hwarned. by vm_compute.
Defined.

End ReplicationClaims.

(* ===================================================================== *)
(** * Further properties of the work queue                                *)
(* ===================================================================== *)

Section QueueQueries.
Import Queue.

Implicit Types (t : table) (r j : PersistentPendingMessage).

(** *** Counting and selecting *)

Lemma elem_of_select_where cond t k r :
  (k, r) ∈ select_where cond t ↔ t !! k = Some r ∧ cond k r = true.
Proof.
  unfold select_where. rewrite list_elem_of_filter, elem_of_map_to_list. simpl. tauto.
Qed.

Lemma NoDup_select_where_ids cond t : NoDup (select_where cond t).*1.
Proof.
  unfold select_where.
  assert (∀ l : list (Z * PersistentPendingMessage),
            NoDup l.*1 → NoDup (filter (λ kr, cond kr.1 kr.2 = true) l).*1) as Hsub.
  { induction l as [|x l IH]; [done|]. rewrite fmap_cons, NoDup_cons. intros [Hx Hl].
    rewrite filter_cons. case_decide; [|by apply IH].
    rewrite fmap_cons, NoDup_cons. split; [|by apply IH].
    intros Hin. apply Hx. apply list_elem_of_fmap in Hin as (y & -> & Hy).
    apply list_elem_of_filter in Hy as [_ Hy]. apply list_elem_of_fmap. eauto. }
  apply Hsub, NoDup_fst_map_to_list.
Qed.

(** [COUNT( * )] and [rowCount] are the number of selected rows. *)
Lemma row_count_select cond t :
  row_count cond t = Z.of_nat (length (select_where cond t)).
Proof.
  unfold row_count. f_equal. rewrite map_filter_alt.
  rewrite map_size_list_to_map; [done|]. apply NoDup_select_where_ids.
Qed.

Lemma row_count_pos_iff cond t :
  0 < row_count cond t ↔ ∃ k r, t !! k = Some r ∧ cond k r = true.
Proof.
  split.
  - rewrite row_count_select. destruct (select_where cond t) as [|[k r] l] eqn:Hsel;
      [simpl; lia|].
    intros _. exists k, r. apply elem_of_select_where. rewrite Hsel. apply list_elem_of_here.
  - intros (k & r & Hk & Hc). by apply (row_count_pos cond t k r).
Qed.

(** Two statements count the same when they select the same ids. *)
Lemma row_count_same_ids cond1 cond2 t1 t2 :
  (∀ k, (∃ r, t1 !! k = Some r ∧ cond1 k r = true)
        ↔ (∃ r, t2 !! k = Some r ∧ cond2 k r = true)) →
  row_count cond1 t1 = row_count cond2 t2.
Proof.
  intros Hsame. unfold row_count. f_equal.
  rewrite <- !(size_dom (D := gset Z)). f_equal. apply set_eq. intros k.
  rewrite !elem_of_dom. unfold is_Some.
  setoid_rewrite map_lookup_filter_Some. simpl.
  split; intros (r & Hr & Hc).
  - destruct (proj1 (Hsame k)) as (r' & ? & ?); eauto.
  - destruct (proj2 (Hsame k)) as (r' & ? & ?); eauto.
Qed.

(** *** Stuck jobs *)

(** [resetStuckMessages] and [retryAllStuck] are one and the same
    operation for every threshold: the special case for threshold 0 yields
    the cutoff the general formula yields. *)
Theorem resetStuckMessages_is_retryAllStuck now thresholdMs t :
  resetStuckMessages now thresholdMs t = retryAllStuck now thresholdMs t.
Proof.
  unfold resetStuckMessages, retryAllStuck.
  destruct (Z.eqb_spec thresholdMs 0) as [->|_]; [|done].
  by rewrite Z.sub_0_r.
Qed.

(** [retryAllStuck] requeues exactly as many jobs as [getStuckCount]
    reports for the same clock and threshold, and afterwards no job counts
    as stuck for that cutoff or any earlier one. *)
Theorem retryAllStuck_clears_stuck_count now thresholdMs t :
  (retryAllStuck now thresholdMs t).1 = getStuckCount now thresholdMs t
  ∧ ∀ now' thresholdMs', now' - thresholdMs' ≤ now - thresholdMs →
      getStuckCount now' thresholdMs' (retryAllStuck now thresholdMs t).2 = 0.
Proof.
  split; [done|]. intros now' thresholdMs' Hcut.
  unfold getStuckCount, retryAllStuck. simpl. apply row_count_zero.
  intros k r. rewrite lookup_update_where.
  destruct (t !! k) as [r0|]; [|done]. simpl.
  destruct (bool_decide (status r0 = processing)
            && sql_lt (started_processing_at_epoch r0) (now - thresholdMs)) eqn:Hc.
  - intros [= Hr]. subst r. simpl. by where_clause.
  - intros [= Hr]. subst r. apply andb_false_iff in Hc as [Hc|Hc].
    + by rewrite Hc.
    + apply andb_false_iff. right. unfold sql_lt in *.
      destruct (started_processing_at_epoch r0); [|done].
      apply Z.ltb_ge in Hc. apply Z.ltb_ge. lia.
Qed.

(** *** Removing and retrying single jobs *)

(** [abortMessage] deletes the row with the given id and nothing else, and
    reports whether there was such a row. *)
Theorem abortMessage_deletes_one id t :
  abortMessage id t = (bool_decide (is_Some (t !! id)), delete id t).
Proof.
  unfold abortMessage. f_equal.
  - destruct (t !! id) as [r|] eqn:Hid.
    + rewrite bool_decide_eq_true_2 by eauto. apply Z.ltb_lt.
      apply (row_count_pos _ t id r Hid). by apply bool_decide_eq_true_2.
    + rewrite bool_decide_eq_false_2 by (by intros [? ?]).
      rewrite row_count_zero; [done|]. intros k r Hk.
      apply bool_decide_eq_false_2. congruence.
  - unfold delete_where. apply map_eq. intros k.
    destruct (decide (k = id)) as [->|Hne].
    + rewrite lookup_delete_eq. apply map_lookup_filter_None. right.
      intros r _. simpl. by rewrite bool_decide_eq_true_2.
    + rewrite lookup_delete_ne by done.
      destruct (t !! k) as [r|] eqn:Hk.
      * apply map_lookup_filter_Some. split; [done|]. simpl.
        by apply bool_decide_eq_false_2.
      * apply map_lookup_filter_None. by left.
Qed.

(** A job that is [processed], and an id that is not in the queue, cannot
    be retried: [retryMessage] answers false and changes nothing. *)
Theorem retryMessage_refuses_processed id t :
  (∀ j, t !! id = Some j → status j = processed) →
  retryMessage id t = (false, t).
Proof.
  intros Hdone. unfold retryMessage.
  assert (∀ k r, t !! k = Some r →
            bool_decide (k = id) && status_in [pending; processing; failed] r = false) as Hno.
  { intros k r Hk. destruct (decide (k = id)) as [->|Hne].
    - unfold status_in. rewrite (Hdone r Hk).
      apply andb_false_iff. right. reflexivity.
    - by where_clause. }
  f_equal.
  - by rewrite row_count_zero.
  - by apply update_where_nothing.
Qed.

(** Claiming a job twice is claiming it once: the second [markProcessing]
    changes nothing, so the first claimant's start time stays. *)
Theorem markProcessing_twice now1 now2 id t :
  markProcessing now2 id (markProcessing now1 id t) = markProcessing now1 id t.
Proof.
  apply markProcessing_unchanged. intros j.
  destruct (t !! id) as [r|] eqn:Hid.
  - destruct (decide (status r = pending)) as [Hp|Hp].
    + rewrite (markProcessing_claims _ _ _ r) by done. by intros [= <-].
    + rewrite (markProcessing_skips _ _ _ r) by done. by intros [= <-].
  - unfold markProcessing. by rewrite lookup_update_where, Hid.
Qed.

(** *** Peeking *)

Lemma order_asc_elem_of key l x : x ∈ order_asc key l ↔ x ∈ l.
Proof. unfold order_asc. by rewrite merge_sort_Permutation. Qed.

Lemma order_asc_sorted key l :
  StronglySorted (λ a b, key a ≤ key b) (order_asc key l).
Proof.
  assert (Transitive (λ a b : Z * PersistentPendingMessage, key a ≤ key b))
    by (intros a b c; lia).
  assert (Total (λ a b : Z * PersistentPendingMessage, key a ≤ key b))
    by (intros a b; lia).
  by apply (@StronglySorted_merge_sort _ (λ a b, key a ≤ key b)
              (λ a b, decide (key a ≤ key b))).
Qed.

(** The first row of [ORDER BY key ASC] carries the least key. *)
Lemma order_asc_head key l x rest :
  order_asc key l = x :: rest → x ∈ l ∧ ∀ y, y ∈ l → key x ≤ key y.
Proof.
  intros Hsort. split.
  - apply (order_asc_elem_of key). rewrite Hsort. apply list_elem_of_here.
  - intros y Hy%(order_asc_elem_of key).
    pose proof (order_asc_sorted key l) as Hs. rewrite Hsort in Hs, Hy.
    apply StronglySorted_inv in Hs as [_ Hall].
    apply elem_of_cons in Hy as [->|Hin]; [lia|].
    rewrite Forall_forall in Hall. by apply Hall.
Qed.

Lemma order_asc_nil key l : order_asc key l = [] → l = [].
Proof.
  intros Hsort. destruct l as [|x l]; [done|].
  assert (x ∈ order_asc key (x :: l)) as Hx
    by (apply order_asc_elem_of, list_elem_of_here).
  rewrite Hsort in Hx. by apply elem_of_nil in Hx.
Qed.

Lemma peekPending_head sessionDbId t :
  peekPending sessionDbId t = head (getAllPending sessionDbId t).
Proof. unfold peekPending, getAllPending. by destruct (order_asc _ _). Qed.

(** The pending jobs of a session, as the [WHERE] clause selects them. *)
Lemma pending_selected sessionDbId t k r :
  (k, r) ∈ select_where (λ _ r, bool_decide (session_db_id r = sessionDbId)
                                && bool_decide (status r = pending)) t
  ↔ t !! k = Some r ∧ session_db_id r = sessionDbId ∧ status r = pending.
Proof.
  rewrite elem_of_select_where, andb_true_iff, !bool_decide_eq_true. tauto.
Qed.

Lemma peekPending_some sessionDbId t k r :
  peekPending sessionDbId t = Some (k, r)
  ↔ t !! k = Some r ∧ session_db_id r = sessionDbId ∧ status r = pending
    ∧ ∀ k' r', t !! k' = Some r' → session_db_id r' = sessionDbId →
               status r' = pending → k ≤ k'.
Proof.
  rewrite peekPending_head. unfold getAllPending.
  set (selected := select_where _ t).
  destruct (order_asc fst selected) as [|[k0 r0] rest] eqn:Hsort; simpl.
  - apply order_asc_nil in Hsort.
    split; [done|]. intros (Hk & Hs & Hp & _).
    assert ((k, r) ∈ selected) as Hin by (by apply pending_selected).
    rewrite Hsort in Hin. by apply elem_of_nil in Hin.
  - apply order_asc_head in Hsort as [Hin Hmin].
    apply pending_selected in Hin as (Hk0 & Hs0 & Hp0). split.
    + intros [= <- <-]. repeat split; [done..|].
      intros k' r' Hk' Hs' Hp'.
      apply (Hmin (k', r')). by apply pending_selected.
    + intros (Hk & Hs & Hp & Hleast).
      assert (k0 ≤ k) by (apply (Hmin (k, r)); by apply pending_selected).
      assert (k ≤ k0) by (by apply (Hleast k0 r0)).
      assert (k = k0) as -> by lia. congruence.
Qed.

Lemma peekPending_none sessionDbId t :
  peekPending sessionDbId t = None
  ↔ ∀ k r, t !! k = Some r → session_db_id r = sessionDbId → status r ≠ pending.
Proof.
  rewrite peekPending_head. unfold getAllPending.
  set (selected := select_where _ t).
  destruct (order_asc fst selected) as [|[k0 r0] rest] eqn:Hsort; simpl.
  - apply order_asc_nil in Hsort.
    split; [|done]. intros _ k r Hk Hs Hp.
    assert ((k, r) ∈ selected) as Hin by (by apply pending_selected).
    rewrite Hsort in Hin. by apply elem_of_nil in Hin.
  - apply order_asc_head in Hsort as [Hin Hmin].
    apply pending_selected in Hin as (Hk0 & Hs0 & Hp0).
    split; [done|]. intros Hnone. by destruct (Hnone k0 r0).
Qed.

(** [peekPending] answers [null] exactly when the session has no pending
    job, and otherwise answers the pending job of the session with the
    least id, as the row is stored. *)
Theorem peekPending_oldest_pending sessionDbId t :
  (peekPending sessionDbId t = None
   ↔ ∀ k r, t !! k = Some r → session_db_id r = sessionDbId → status r ≠ pending)
  ∧ (∀ k r, peekPending sessionDbId t = Some (k, r)
     ↔ t !! k = Some r ∧ session_db_id r = sessionDbId ∧ status r = pending
       ∧ ∀ k' r', t !! k' = Some r' → session_db_id r' = sessionDbId →
                  status r' = pending → k ≤ k').
Proof. split; [apply peekPending_none|apply peekPending_some]. Qed.

(** First in, first out.  A job enqueued with an id above every id in the
    table does not overtake: the session's [peekPending] keeps answering
    the job it answered before, and answers the new job only if the session
    had no pending job; other sessions are not affected. *)
Theorem enqueue_then_peekPending serial now sessionDbId claudeSessionId message t id t' :
  (∀ k, is_Some (t !! k) → k < serial) →
  enqueue serial now sessionDbId claudeSessionId message t = Some (id, t') →
  id = serial
  ∧ (∃ row, t' !! id = Some row ∧ status row = pending ∧ retry_count row = 0
            ∧ peekPending sessionDbId t'
              = match peekPending sessionDbId t with
                | Some oldest => Some oldest
                | None => Some (id, row)
                end)
  ∧ ∀ other, other ≠ sessionDbId → peekPending other t' = peekPending other t.
Proof.
  intros Hahead. unfold enqueue.
  destruct (t !! serial) eqn:Hfree; [done|]. intros [= <- <-].
  split; [done|].
  assert (∀ k r, k ≠ serial → <[serial:=r]> t !! k = t !! k) as Hother
    by (intros; by apply lookup_insert_ne).
  split.
  - eexists. split; [apply lookup_insert_eq|]. split; [done|]. split; [done|].
    destruct (peekPending sessionDbId t) as [[k0 r0]|] eqn:Hpeek.
    + apply peekPending_some in Hpeek as (Hk0 & Hs0 & Hp0 & Hleast).
      assert (k0 < serial) as Hlt by (apply Hahead; eauto).
      apply peekPending_some. rewrite Hother by lia.
      repeat split; [done..|]. intros k' r' Hk' Hs' Hp'.
      destruct (decide (k' = serial)) as [->|Hne]; [lia|].
      rewrite Hother in Hk' by done. by apply (Hleast k' r').
    + apply peekPending_some. rewrite lookup_insert_eq.
      repeat split; [done..|]. intros k' r' Hk' Hs' Hp'.
      destruct (decide (k' = serial)) as [->|Hne]; [lia|].
      rewrite Hother in Hk' by done.
      rewrite peekPending_none in Hpeek. by destruct (Hpeek k' r').
  - intros other Hne.
    destruct (peekPending other t) as [[k0 r0]|] eqn:Hpeek.
    + apply peekPending_some in Hpeek as (Hk0 & Hs0 & Hp0 & Hleast).
      assert (k0 < serial) as Hlt by (apply Hahead; eauto).
      apply peekPending_some. rewrite Hother by lia.
      repeat split; [done..|]. intros k' r' Hk' Hs' Hp'.
      destruct (decide (k' = serial)) as [->|Hne'].
      * rewrite lookup_insert_eq in Hk'. injection Hk' as <-. simpl in Hs'. congruence.
      * rewrite Hother in Hk' by done. by apply (Hleast k' r').
    + apply peekPending_none. intros k' r' Hk' Hs' Hp'.
      destruct (decide (k' = serial)) as [->|Hne'].
      * rewrite lookup_insert_eq in Hk'. injection Hk' as <-. simpl in Hs'. congruence.
      * rewrite Hother in Hk' by done.
        rewrite peekPending_none in Hpeek. by destruct (Hpeek k' r').
Qed.

(** A claimed job is not handed out again: once the peeked job is marked
    processing, [peekPending] answers a pending job with a strictly larger
    id, unchanged by the claim, or nothing. *)
Theorem peekPending_after_claim now sessionDbId t k r :
  peekPending sessionDbId t = Some (k, r) →
  match peekPending sessionDbId (markProcessing now k t) with
  | Some (k', r') => k < k' ∧ t !! k' = Some r'
  | None => True
  end.
Proof.
  intros Hpeek.
  apply peekPending_some in Hpeek as (Hk & Hs & Hp & Hleast).
  destruct (peekPending sessionDbId (markProcessing now k t)) as [[k' r']|] eqn:Hnext;
    [|done].
  apply peekPending_some in Hnext as (Hk' & Hs' & Hp' & _).
  destruct (decide (k' = k)) as [->|Hne].
  - rewrite (markProcessing_claims now k t r Hk Hp) in Hk'.
    injection Hk' as <-. discriminate.
  - rewrite markProcessing_other in Hk' by done.
    split; [|done]. specialize (Hleast k' r' Hk' Hs' Hp'). lia.
Qed.

(** *** Pending work *)

(** A session is listed by [getSessionsWithPendingMessages] exactly when
    its [getPendingCount] is positive, it is listed once, and
    [hasAnyPendingWork] holds exactly when the list is not empty. *)
Theorem sessions_with_pending_messages_spec t :
  (∀ sessionDbId, sessionDbId ∈ getSessionsWithPendingMessages t
                  ↔ 0 < getPendingCount sessionDbId t)
  ∧ NoDup (getSessionsWithPendingMessages t)
  ∧ (hasAnyPendingWork t = true ↔ getSessionsWithPendingMessages t ≠ []).
Proof.
  assert (∀ sessionDbId, sessionDbId ∈ getSessionsWithPendingMessages t
            ↔ ∃ k r, t !! k = Some r ∧ session_db_id r = sessionDbId
                     ∧ status_in [pending; processing] r = true) as Hlisted.
  { intros sessionDbId. unfold getSessionsWithPendingMessages.
    rewrite elem_of_remove_dups, list_elem_of_fmap. split.
    - intros ([k r] & -> & Hin). apply elem_of_select_where in Hin as [Hk Hc]. eauto.
    - intros (k & r & Hk & <- & Hc). exists (k, r). split; [done|].
      by apply elem_of_select_where. }
  split; [|split].
  - intros sessionDbId. rewrite Hlisted. unfold getPendingCount.
    rewrite row_count_pos_iff. split.
    + intros (k & r & Hk & Hs & Hc). exists k, r. split; [done|].
      rewrite Hc. by where_clause.
    + intros (k & r & Hk & Hc). apply andb_true_iff in Hc as [Hs%bool_decide_eq_true Hc].
      eauto.
  - apply NoDup_remove_dups.
  - unfold hasAnyPendingWork. rewrite Z.ltb_lt, row_count_pos_iff. split.
    + intros (k & r & Hk & Hc) Hnil.
      assert (session_db_id r ∈ getSessionsWithPendingMessages t) as Hin
        by (apply Hlisted; eauto).
      rewrite Hnil in Hin. by apply elem_of_nil in Hin.
    + intros Hne. destruct (getSessionsWithPendingMessages t) as [|s0 l] eqn:Hl; [done|].
      destruct (proj1 (Hlisted s0)) as (k & r & Hk & _ & Hc);
        [apply list_elem_of_here|]. eauto.
Qed.

(** [resetProcessingToPending] leaves no job of the session processing,
    leaves the jobs of other sessions as they are, and changes no
    session's pending count (which counts pending and processing alike). *)
Theorem resetProcessingToPending_keeps_pending_count sessionDbId t :
  (∀ k r, (resetProcessingToPending sessionDbId t).2 !! k = Some r →
          session_db_id r = sessionDbId → status r ≠ processing)
  ∧ (∀ k r, t !! k = Some r → session_db_id r ≠ sessionDbId →
            (resetProcessingToPending sessionDbId t).2 !! k = Some r)
  ∧ (∀ other, getPendingCount other (resetProcessingToPending sessionDbId t).2
              = getPendingCount other t).
Proof.
  unfold resetProcessingToPending. simpl. split; [|split].
  - intros k r. rewrite lookup_update_where.
    destruct (t !! k) as [r0|]; [|done]. simpl.
    destruct (bool_decide (session_db_id r0 = sessionDbId)) eqn:Hs;
      destruct (bool_decide (status r0 = processing)) eqn:Hp; simpl;
      intros [= <-]; simpl; try done.
    + intros _. by apply bool_decide_eq_false in Hp.
    + intros Heq. by apply bool_decide_eq_false in Hs.
    + intros Heq. by apply bool_decide_eq_false in Hs.
  - intros k r Hk Hne. rewrite lookup_update_where, Hk. simpl. by where_clause.
  - intros other. unfold getPendingCount. apply row_count_same_ids. intros k.
    rewrite lookup_update_where.
    destruct (t !! k) as [r0|]; simpl; [|by split; intros (? & ? & _)].
    destruct (bool_decide (session_db_id r0 = sessionDbId)
              && bool_decide (status r0 = processing)) eqn:Hc.
    + apply andb_true_iff in Hc as [_ Hp%bool_decide_eq_true].
      split; intros (r & [= <-] & Hcond); eexists; (split; [done|]);
        revert Hcond; unfold status_in; simpl; rewrite Hp;
        rewrite !andb_true_iff; intros [? _]; by split.
    + by split; intros (r & [= <-] & Hcond); eexists.
Qed.

(** *** Retention *)





(** *** The queue as the UI lists it *)

Lemma strongly_sorted_lookup {A} (R : relation A) (l : list A) (i j : nat) (x y : A) :
  StronglySorted R l → (i < j)%nat → l !! i = Some x → l !! j = Some y → R x y.
Proof.
  intros Hs. revert i j. induction Hs as [|a l Hs IH Hall]; intros i j Hij Hi Hj.
  - by rewrite lookup_nil in Hi.
  - destruct j as [|j]; [lia|]. simpl in Hj. destruct i as [|i].
    + injection Hi as <-. rewrite Forall_forall in Hall.
      apply Hall. by apply list_elem_of_lookup_2 in Hj.
    + simpl in Hi. apply (IH i j); [lia|done..].
Qed.

(** [getQueueMessages] lists exactly the jobs that are not processed, each
    with the project its session row carries, failed jobs first, then
    processing, then pending, and within one status oldest first. *)
Theorem getQueueMessages_lists_unfinished project_of t :
  (∀ k r p, (k, r, p) ∈ getQueueMessages project_of t
            ↔ t !! k = Some r ∧ status r ≠ processed
              ∧ p = project_of (claude_session_id r))
  ∧ ∀ (i j : nat) k1 r1 p1 k2 r2 p2,
      (i < j)%nat →
      getQueueMessages project_of t !! i = Some (k1, r1, p1) →
      getQueueMessages project_of t !! j = Some (k2, r2, p2) →
      status_rank (status r1) < status_rank (status r2)
      ∨ (status r1 = status r2 ∧ created_at_epoch r1 ≤ created_at_epoch r2).
Proof.
  unfold getQueueMessages.
  set (sel := select_where _ t). split.
  - intros k r p. rewrite list_elem_of_fmap. split.
    + intros ([k0 r0] & [= <- <- ->] & Hin). simpl.
      rewrite merge_sort_Permutation in Hin.
      apply elem_of_select_where in Hin as [Hk Hc]. split; [done|]. split; [|done].
      intros Hp. unfold status_in in Hc. rewrite Hp in Hc. discriminate.
    + intros (Hk & Hnp & ->). exists (k, r). split; [done|].
      rewrite merge_sort_Permutation. apply elem_of_select_where. split; [done|].
      unfold status_in. by destruct (status r).
  - intros i j k1 r1 p1 k2 r2 p2 Hij.
    rewrite !list_lookup_fmap.
    destruct (merge_sort queue_order sel !! i) as [[k1' r1']|] eqn:Hi; [|done].
    destruct (merge_sort queue_order sel !! j) as [[k2' r2']|] eqn:Hj; [|done].
    simpl. intros [= <- <- <-] [= <- <- <-].
    assert (Transitive queue_order) as Htrans.
    { intros a b c. unfold queue_order. lia. }
    assert (Total queue_order) as Htotal.
    { intros a b. unfold queue_order. lia. }
    pose proof (StronglySorted_merge_sort queue_order sel) as Hs.
    pose proof (strongly_sorted_lookup _ _ i j _ _ Hs Hij Hi Hj) as Ho.
    unfold queue_order in Ho. simpl in Ho.
    destruct Ho as [Hlt|[Heq Hle]]; [by left|]. right. split; [|done].
    by destruct (status r1'), (status r2').
Qed.

(** *** What no sequence of operations does *)

Lemma apply_op_evolves maxRetries op t k r' :
  apply_op maxRetries t op !! k = Some r' →
  ∃ r, t !! k = Some r
       ∧ written_once r' = written_once r
       ∧ retry_count r ≤ retry_count r'
       ∧ (payload r' = payload r ∨ payload r' = (None, None)).
Proof.
  destruct op; simpl; unfold markProcessing, markProcessed, markFailed,
    retryMessage, resetProcessingToPending, retryAllStuck, resetStuckMessages,
    abortMessage, delete_where; simpl.
  all: try (rewrite lookup_update_where; destruct (t !! k) as [r|]; [|done]; simpl;
            match goal with |- context [if ?c then _ else _] => destruct c end;
            intros [= <-]; exists r; repeat split; simpl; auto; lia).
  - destruct (t !! messageId) as [msg|]; [|intros Hk; exists r'; repeat split; auto; lia].
    destruct (retry_count msg <? maxRetries);
      rewrite lookup_update_where; (destruct (t !! k) as [r|]; [|done]); simpl;
      (destruct (bool_decide (k = messageId)); intros [= <-]; exists r;
       repeat split; simpl; auto; lia).
  - intros [Hk _]%map_lookup_filter_Some. exists r'. repeat split; auto; lia.
Qed.

(** Whatever operations run after [enqueue], a job that is still in the
    queue keeps the columns [enqueue] wrote, its retry_count never
    decreases, and its payload columns are either as they were or both
    NULL. *)
Theorem run_preserves_job maxRetries ops t k r' :
  run maxRetries ops t !! k = Some r' →
  ∃ r, t !! k = Some r
       ∧ written_once r' = written_once r
       ∧ retry_count r ≤ retry_count r'
       ∧ (payload r' = payload r ∨ payload r' = (None, None)).
Proof.
  revert t. induction ops as [|op ops IH]; intros t; simpl.
  - intros Hk. exists r'. repeat split; auto; lia.
  - intros Hk. apply IH in Hk as (r1 & Hk1 & Hw1 & Hrc1 & Hp1).
    apply apply_op_evolves in Hk1 as (r & Hk & Hw & Hrc & Hp).
    exists r. split; [done|]. split; [congruence|]. split; [lia|].
    destruct Hp1 as [Hp1|Hp1]; [|by right].
    destruct Hp as [Hp|Hp]; [left|right]; congruence.
Qed.

(** *** Instances on job A *)

Import Scenario.

(** Job A, processed, cannot be retried. *)
Lemma retryMessage_refuses_processed_witness :
  let finished := run 3 [MarkProcessing 1001 1; MarkProcessed 1002 1] queue_A in
  (∀ j, finished !! 1 = Some j → status j = processed)
  ∧ retryMessage 1 finished = (false, finished).
Proof.
  intros finished.
  assert (∀ j, finished !! 1 = Some j → status j = processed) as Hdone.
  { intros j. vm_compute. by intros [= <-]. }
  split; [exact Hdone|]. exact (retryMessage_refuses_processed 1 finished Hdone).
Defined.

(** A second job for session 7 queues up behind job A. *)
Lemma enqueue_then_peekPending_witness :
  ∃ t', enqueue 2 1005 7 "S" job_A queue_A = Some (2, t')
        ∧ peekPending 7 t' = Some (1, row_A)
        ∧ peekPending 8 t' = None.
Proof.
  assert (∀ k, is_Some (queue_A !! k) → k < 2) as Hahead.
  { intros k [r Hk]. destruct (decide (k = 1)) as [->|Hne]; [lia|].
    unfold queue_A in Hk. by rewrite lookup_insert_ne, lookup_empty in Hk. }
  destruct (enqueue 2 1005 7 "S" job_A queue_A) as [[id t']|] eqn:Henq;
    [|by vm_compute in Henq].
  destruct (enqueue_then_peekPending 2 1005 7 "S" job_A queue_A id t' Hahead Henq)
    as (-> & (row & _ & _ & _ & Hsame) & Hother).
  exists t'. split; [done|]. split.
  - rewrite Hsame. by vm_compute.
  - rewrite (Hother 8) by lia. by vm_compute.
Defined.

(** Once job A is claimed, session 7 has nothing to peek at. *)
Lemma peekPending_after_claim_witness :
  peekPending 7 queue_A = Some (1, row_A)
  ∧ peekPending 7 (markProcessing 1001 1 queue_A) = None.
Proof.
  assert (peekPending 7 queue_A = Some (1, row_A)) as Hpeek by (by vm_compute).
  split; [exact Hpeek|].
  pose proof (peekPending_after_claim 1001 7 queue_A 1 row_A Hpeek) as Hnext.
  destruct (peekPending 7 (markProcessing 1001 1 queue_A)) as [[k' r']|] eqn:Hp; [|done].
  by vm_compute in Hp.
Defined.

(** Job A after a failure, a claim and a completion. *)
Lemma run_preserves_job_witness :
  ∃ r', run 3 [MarkProcessing 1001 1; MarkFailed 1002 1;
               MarkProcessing 1003 1; MarkProcessed 1004 1] queue_A !! 1 = Some r'
        ∧ written_once r' = written_once row_A
        ∧ retry_count row_A ≤ retry_count r'
        ∧ payload r' = (None, None).
Proof.
  destruct (run 3 [MarkProcessing 1001 1; MarkFailed 1002 1;
                   MarkProcessing 1003 1; MarkProcessed 1004 1] queue_A !! 1)
    as [r'|] eqn:Hrun; [|by vm_compute in Hrun].
  destruct (run_preserves_job 3 _ queue_A 1 r' Hrun) as (r & Hr & Hw & Hrc & _).
  assert (r = row_A) as -> by (vm_compute in Hr; injection Hr as <-; reflexivity).
  exists r'. split; [done|]. split; [done|]. split; [done|].
  vm_compute in Hrun. injection Hrun as <-. reflexivity.
Defined.

(** Under maxRetries = 2, job A is requeued twice and fails on the third
    failure. *)
Lemma fail_repeatedly_exhausts_witness :
  (queue_A !! 1 = Some row_A ∧ status row_A = pending ∧ retry_count row_A = 0)
  ∧ job_state (fail_repeatedly 2 1 [1001; 1002] queue_A) 1 = Some (pending, 2)
  ∧ job_state (fail_repeatedly 2 1 ([1001; 1002] ++ [1003]) queue_A) 1 = Some (failed, 2).
Proof.
  split; [by vm_compute|].
  apply (fail_repeatedly_exhausts 2 1 [1001; 1002] 1003 queue_A row_A); reflexivity.
Defined.

End QueueQueries.

(* ===================================================================== *)
(** * Further properties of the session store                             *)
(* ===================================================================== *)

Section SessionStoreFacts.
Import Sessions.

Lemma existsb_some {A} (f : A → bool) (rows : list A) (row : A) :
  row ∈ rows → f row = true → existsb f rows = true.
Proof.
  intros Hin Hf. apply existsb_exists. exists row. split; [|done].
  by apply list_elem_of_In.
Qed.

Lemma existsb_false_elem {A} (f : A → bool) (rows : list A) (row : A) :
  existsb f rows = false → row ∈ rows → f row = false.
Proof.
  intros Hnone Hin. destruct (f row) eqn:Hf; [|done].
  by rewrite (existsb_some f rows row Hin Hf) in Hnone.
Qed.

Lemma elem_of_map {A B} (f : A → B) (rows : list A) (y : B) :
  y ∈ map f rows ↔ ∃ x, y = f x ∧ x ∈ rows.
Proof. exact (list_elem_of_fmap f rows y). Qed.

(** *** ensureSessionExists *)

Lemma ensureSessionExists_known nowIso nowEpoch userId sid project db :
  claude_session_id_exists sid db = true →
  ensureSessionExists nowIso nowEpoch userId sid project db
  = Ok (with_sdk_sessions (sdk_sessions db) (sdk_sessions_id_seq db + 1) db).
Proof. intros H. unfold ensureSessionExists. by rewrite H. Qed.

Lemma ensureSessionExists_unknown nowIso nowEpoch userId sid project db :
  (∀ s, s ∈ sdk_sessions db →
        s_claude_session_id s ≠ sid ∧ s_sdk_session_id s ≠ Some sid
        ∧ s_id s ≠ sdk_sessions_id_seq db) →
  ensureSessionExists nowIso nowEpoch userId sid project db
  = Ok (with_sdk_sessions
          (sdk_sessions db ++
           [ {| s_id := sdk_sessions_id_seq db; s_claude_session_id := sid;
                s_sdk_session_id := Some sid; s_project := project;
                s_user_id := Some userId; s_user_prompt := None;
                s_started_at := nowIso; s_started_at_epoch := nowEpoch;
                s_completed_at := None; s_completed_at_epoch := None;
                s_status := "active"; s_worker_port := None;
                s_prompt_counter := Some 0 |} ])
          (sdk_sessions_id_seq db + 1) db).
Proof.
  intros Hfresh. unfold ensureSessionExists, insert_sdk_session, claude_session_id_exists.
  simpl. rewrite !existsb_none; [done|..].
  all: intros s Hin; destruct (Hfresh s Hin) as (Hc & Hsdk & Hid).
  all: try (by apply bool_decide_eq_false_2).
  unfold sql_eq_str. destruct (s_sdk_session_id s); [|done].
  apply bool_decide_eq_false_2. congruence.
Qed.

(** The insert is rejected when the id is unknown as [claude_session_id]
    but taken as [sdk_session_id]. *)
Lemma ensureSessionExists_split nowIso nowEpoch userId sid project db :
  (∀ s, s ∈ sdk_sessions db → s_claude_session_id s ≠ sid) →
  (∃ s, s ∈ sdk_sessions db ∧ s_sdk_session_id s = Some sid) →
  ensureSessionExists nowIso nowEpoch userId sid project db = Err unique_violation.
Proof.
  intros Hnone (s & Hin & Hsdk).
  unfold ensureSessionExists, insert_sdk_session, claude_session_id_exists. simpl.
  rewrite (existsb_none (λ s, bool_decide (s_claude_session_id s = sid)));
    [|intros s' Hin'; apply bool_decide_eq_false_2; by apply Hnone].
  destruct (existsb _ (sdk_sessions db)); [done|].
  rewrite (existsb_some _ _ s Hin); [done|].
  rewrite Hsdk. simpl. by apply bool_decide_eq_true_2.
Qed.

Lemma sdk_session_id_exists_iff sid db :
  sdk_session_id_exists sid db = true
  ↔ ∃ s, s ∈ sdk_sessions db ∧ s_sdk_session_id s = Some sid.
Proof.
  unfold sdk_session_id_exists. rewrite existsb_exists. split.
  - intros (s & Hin%list_elem_of_In & Hs%bool_decide_eq_true). eauto.
  - intros (s & Hin%list_elem_of_In & Hs). exists s. split; [done|].
    by apply bool_decide_eq_true_2.
Qed.

Lemma claude_session_id_exists_iff cid db :
  claude_session_id_exists cid db = true
  ↔ ∃ s, s ∈ sdk_sessions db ∧ s_claude_session_id s = cid.
Proof.
  unfold claude_session_id_exists. rewrite existsb_exists. split.
  - intros (s & Hin%list_elem_of_In & Hs%bool_decide_eq_true). eauto.
  - intros (s & Hin%list_elem_of_In & Hs). exists s. split; [done|].
    by apply bool_decide_eq_true_2.
Qed.

(** *** Storing *)

(** [storeObservation] for a session the database does not know creates
    the session row, active, with the given project and stamped with the
    clock as [ensureSessionExists] read it, then stores the observation
    under the next id, stamped with the clock read on entry;
    [getObservationById] returns the observation with its four arrays. *)
Theorem storeObservation_creates_session
    nowIso nowEpoch laterIso laterEpoch userId sid project observation promptNumber
    tokens db :
  (∀ s, s ∈ sdk_sessions db →
        s_claude_session_id s ≠ sid ∧ s_sdk_session_id s ≠ Some sid
        ∧ s_id s ≠ sdk_sessions_id_seq db) →
  (∀ o, o ∈ observations db → o_id o ≠ observations_id_seq db) →
  observation_type_ok (no_type observation) = true →
  ∃ db',
    storeObservation nowIso nowEpoch laterIso laterEpoch userId sid project observation
      promptNumber tokens db
    = Ok (observations_id_seq db, nowEpoch, db')
    ∧ sdk_sessions db'
      = sdk_sessions db ++
        [ {| s_id := sdk_sessions_id_seq db; s_claude_session_id := sid;
             s_sdk_session_id := Some sid; s_project := project;
             s_user_id := Some userId; s_user_prompt := None;
             s_started_at := laterIso; s_started_at_epoch := laterEpoch;
             s_completed_at := None; s_completed_at_epoch := None;
             s_status := "active"; s_worker_port := None;
             s_prompt_counter := Some 0 |} ]
    ∧ getObservationById (observations_id_seq db) db'
      = Some {| o_id := observations_id_seq db; o_sdk_session_id := sid;
                o_project := project; o_user_id := Some userId;
                o_text := None; o_type := no_type observation;
                o_title := no_title observation;
                o_subtitle := no_subtitle observation;
                o_facts := Some (JArray (JString <$> no_facts observation));
                o_narrative := no_narrative observation;
                o_concepts := Some (JArray (JString <$> no_concepts observation));
                o_files_read := Some (JArray (JString <$> no_files_read observation));
                o_files_modified :=
                  Some (JArray (JString <$> no_files_modified observation));
                o_prompt_number := promptNumber;
                o_discovery_tokens := tokens;
                o_created_at := nowIso;
                o_created_at_epoch := nowEpoch |}.
Proof.
  intros Hsession Hfresh Htype. unfold storeObservation.
  rewrite ensureSessionExists_unknown by done.
  unfold insert_observation. simpl. rewrite Htype. simpl.
  rewrite existsb_none
    by (intros o Hin; apply bool_decide_eq_false_2; by apply Hfresh).
  rewrite (proj2 (sdk_session_id_exists_iff _ _)); last first.
  { eexists. split; [apply elem_of_app; right; apply list_elem_of_here|done]. }
  simpl. eexists. split; [done|]. split; [done|].
  unfold getObservationById. simpl. apply find_after_append.
  - apply find_none_iff. intros o Hin. apply bool_decide_eq_false_2. by apply Hfresh.
  - simpl. by apply bool_decide_eq_true_2.
Qed.

(** [storeSummary] for a session whose row carries the id both as external
    id and as SDK id changes no session row, uses up one value of the
    session id sequence for the row it proposes and does not insert, and
    appends the summary under the next summary id, stamped with the clock
    read on entry. *)
Theorem storeSummary_for_known_session
    nowIso nowEpoch laterIso laterEpoch userId sid project summary promptNumber tokens db :
  (∃ s, s ∈ sdk_sessions db ∧ s_claude_session_id s = sid
        ∧ s_sdk_session_id s = Some sid) →
  (∀ m, m ∈ session_summaries db → m_id m ≠ session_summaries_id_seq db) →
  storeSummary nowIso nowEpoch laterIso laterEpoch userId sid project summary
    promptNumber tokens db
  = Ok (session_summaries_id_seq db, nowEpoch,
        {| sdk_sessions := sdk_sessions db;
           sdk_sessions_id_seq := sdk_sessions_id_seq db + 1;
           observations := observations db;
           observations_id_seq := observations_id_seq db;
           session_summaries :=
             session_summaries db ++
             [ {| m_id := session_summaries_id_seq db; m_sdk_session_id := sid;
                  m_project := project; m_user_id := Some userId;
                  m_request := Some (su_request summary);
                  m_investigated := Some (su_investigated summary);
                  m_learned := Some (su_learned summary);
                  m_completed := Some (su_completed summary);
                  m_next_steps := Some (su_next_steps summary);
                  m_files_read := None; m_files_edited := None;
                  m_notes := su_notes summary;
                  m_prompt_number := promptNumber;
                  m_discovery_tokens := tokens;
                  m_created_at := nowIso;
                  m_created_at_epoch := nowEpoch |} ];
           session_summaries_id_seq := session_summaries_id_seq db + 1;
           user_prompts := user_prompts db;
           user_prompts_id_seq := user_prompts_id_seq db |}).
Proof.
  intros (s & Hin & Hc & Hsdk) Hfresh. unfold storeSummary.
  rewrite ensureSessionExists_known by (apply claude_session_id_exists_iff; eauto).
  unfold insert_session_summary. simpl.
  rewrite existsb_none
    by (intros m Hm; apply bool_decide_eq_false_2; by apply Hfresh).
  assert (sdk_session_id_exists sid
            (with_sdk_sessions (sdk_sessions db) (sdk_sessions_id_seq db + 1) db) = true)
    as ->; [|done].
  apply sdk_session_id_exists_iff. simpl. eauto.
Qed.

(** When a session's external id and SDK id differ (an imported session),
    storing under either id is rejected.  Under the SDK id the
    insert-if-absent of the session row collides with [sdk_session_id
    UNIQUE]; under the external id the session row is found, nothing is
    inserted, and the child row has no parent for its foreign key. *)
Theorem store_rejected_when_ids_differ
    nowIso nowEpoch laterIso laterEpoch userId sid project observation summary
    promptNumber tokens db :
  ((∀ s, s ∈ sdk_sessions db → s_claude_session_id s ≠ sid) →
   (∃ s, s ∈ sdk_sessions db ∧ s_sdk_session_id s = Some sid) →
   storeObservation nowIso nowEpoch laterIso laterEpoch userId sid project observation
     promptNumber tokens db = Err unique_violation
   ∧ storeSummary nowIso nowEpoch laterIso laterEpoch userId sid project summary
       promptNumber tokens db
     = Err unique_violation)
  ∧ ((∃ s, s ∈ sdk_sessions db ∧ s_claude_session_id s = sid) →
     (∀ s, s ∈ sdk_sessions db → s_sdk_session_id s ≠ Some sid) →
     observation_type_ok (no_type observation) = true →
     (∀ o, o ∈ observations db → o_id o ≠ observations_id_seq db) →
     (∀ m, m ∈ session_summaries db → m_id m ≠ session_summaries_id_seq db) →
     storeObservation nowIso nowEpoch laterIso laterEpoch userId sid project observation
       promptNumber tokens db = Err foreign_key_violation
     ∧ storeSummary nowIso nowEpoch laterIso laterEpoch userId sid project summary
         promptNumber tokens db
       = Err foreign_key_violation).
Proof.
  split.
  - intros Hnone Hsdk. unfold storeObservation, storeSummary.
    by rewrite ensureSessionExists_split.
  - intros Hknown Hnosdk Htype Hobs Hsum. unfold storeObservation, storeSummary.
    rewrite ensureSessionExists_known by (by apply claude_session_id_exists_iff).
    unfold insert_observation, insert_session_summary. simpl. rewrite Htype. simpl.
    assert (sdk_session_id_exists sid
              (with_sdk_sessions (sdk_sessions db) (sdk_sessions_id_seq db + 1) db)
            = false) as ->.
    { apply existsb_none. intros s Hs. apply bool_decide_eq_false_2. by apply Hnosdk. }
    rewrite !existsb_none; [done|..].
    + intros m Hm. apply bool_decide_eq_false_2. by apply Hsum.
    + intros o Ho. apply bool_decide_eq_false_2. by apply Hobs.
Qed.

(** *** Prompts *)

Lemma find_append_miss {A} (f : A → bool) (rows : list A) (row : A) :
  f row = false → find f (rows ++ [row]) = find f rows.
Proof.
  intros Hrow. induction rows as [|x rows IH]; simpl.
  - by rewrite Hrow.
  - by destruct (f x).
Qed.

(** A prompt saved under a fresh (session, number) key of a known session
    is what [getUserPrompt] returns for that key afterwards; before, the
    key had no prompt, and no other key is affected. *)
Theorem saveUserPrompt_then_getUserPrompt nowIso nowEpoch userId c n text db :
  (∀ p, p ∈ user_prompts db →
        ¬ (p_claude_session_id p = c ∧ p_prompt_number p = n)) →
  (∃ s, s ∈ sdk_sessions db ∧ s_claude_session_id s = c) →
  (∀ p, p ∈ user_prompts db → p_id p ≠ user_prompts_id_seq db) →
  getUserPrompt c n db = None
  ∧ ∃ db',
      saveUserPrompt nowIso nowEpoch userId c n text db
      = Ok (user_prompts_id_seq db, db')
      ∧ getUserPrompt c n db' = Some text
      ∧ ∀ c' n', ¬ (c' = c ∧ n' = n) →
          getUserPrompt c' n' db' = getUserPrompt c' n' db.
Proof.
  intros Hkey Hsession Hfresh.
  assert (find (λ p, bool_decide (p_claude_session_id p = c)
                     && bool_decide (p_prompt_number p = n)) (user_prompts db) = None)
    as Hnone.
  { apply find_none_iff. intros p Hin. apply andb_false_iff.
    destruct (decide (p_claude_session_id p = c)) as [Hc|Hc].
    - right. apply bool_decide_eq_false_2. intros Hn. by apply (Hkey p Hin).
    - left. by apply bool_decide_eq_false_2. }
  split; [unfold getUserPrompt; by rewrite Hnone|].
  unfold saveUserPrompt, insert_user_prompt. simpl.
  rewrite existsb_none
    by (intros p Hin; apply bool_decide_eq_false_2; by apply Hfresh).
  rewrite (proj2 (claude_session_id_exists_iff _ _)) by done.
  simpl. eexists. split; [done|]. unfold getUserPrompt. simpl. split.
  - rewrite (find_after_append _ _ _ Hnone); [done|].
    simpl. by rewrite !bool_decide_eq_true_2.
  - intros c' n' Hother. rewrite find_append_miss; [done|]. simpl.
    apply andb_false_iff.
    destruct (decide (c = c')) as [<-|Hc]; [|left; by apply bool_decide_eq_false_2].
    right. apply bool_decide_eq_false_2. intros <-. by apply Hother.
Qed.

(** *** The prompt counter *)

Lemma update_sessions_nothing cond set db :
  (∀ s, s ∈ sdk_sessions db → cond s = false) → update_sessions cond set db = db.
Proof.
  intros Hno. unfold update_sessions.
  replace (map _ (sdk_sessions db)) with (sdk_sessions db); [by destruct db|].
  symmetry. rewrite <- (map_id (sdk_sessions db)) at 2.
  apply map_ext_in. intros s Hin%list_elem_of_In. by rewrite (Hno s Hin).
Qed.

(** [incrementPromptCounter] on a stored session writes the counter plus
    one (NULL counting as 0) and returns what [getPromptCounter] reads
    afterwards.  For an id that has no session row it still answers 1,
    while nothing is written and [getPromptCounter] reads 0. *)
Theorem incrementPromptCounter_spec id db :
  (∀ s, find (λ s, bool_decide (s_id s = id)) (sdk_sessions db) = Some s →
     (incrementPromptCounter id db).1 = default 0 (s_prompt_counter s) + 1
     ∧ getPromptCounter id (incrementPromptCounter id db).2
       = default 0 (s_prompt_counter s) + 1
     ∧ getPromptCounter id db = default 0 (s_prompt_counter s))
  ∧ (find (λ s, bool_decide (s_id s = id)) (sdk_sessions db) = None →
     incrementPromptCounter id db = (1, db) ∧ getPromptCounter id db = 0).
Proof.
  split.
  - intros s Hfind. unfold incrementPromptCounter, getPromptCounter. simpl.
    rewrite find_map, Hfind.
    + simpl. apply find_is_member in Hfind as [_ Hid]. by rewrite Hid.
    + intros x. by destruct (bool_decide (s_id x = id)) eqn:Hx.
  - intros Hnone. unfold incrementPromptCounter, getPromptCounter.
    rewrite update_sessions_nothing by (by apply find_none_iff).
    by rewrite Hnone.
Qed.

(** *** The SDK session id is written once *)

(** [updateSDKSessionId] writes only a NULL [sdk_session_id].  After a call
    that answered true, and after [createSDKSession] inserted the session
    (which stores the external id as SDK id), every further call for that
    row answers false and changes nothing. *)
Theorem updateSDKSessionId_writes_once id sdkSessionId db :
  (∀ db', updateSDKSessionId id sdkSessionId db = Ok (true, db') →
     ∀ other, updateSDKSessionId id other db' = Ok (false, db'))
  ∧ (∀ nowIso nowEpoch userId cid project prompt db1,
       (∀ s, s ∈ sdk_sessions db → s_claude_session_id s ≠ cid) →
       createSDKSession nowIso nowEpoch userId cid project prompt db = Ok (id, db1) →
       updateSDKSessionId id sdkSessionId db1 = Ok (false, db1)).
Proof.
  split.
  - intros db'. unfold updateSDKSessionId at 1.
    destruct (existsb _ (sdk_sessions db)); [|done].
    destruct (sdk_session_id_exists sdkSessionId db); [done|].
    intros [= <-] other. unfold updateSDKSessionId.
    rewrite existsb_none; [done|]. simpl. intros s Hin.
    apply elem_of_map in Hin as (s0 & -> & _).
    destruct (bool_decide (s_id s0 = id) && bool_decide (s_sdk_session_id s0 = None))
      eqn:Hc; [simpl; apply andb_false_r|done].
  - intros nowIso nowEpoch userId cid project prompt db1 Hnew.
    unfold createSDKSession.
    rewrite (proj2 (find_none_iff _ _))
      by (intros s Hin; apply bool_decide_eq_false_2; by apply Hnew).
    unfold insert_sdk_session. simpl.
    destruct (existsb (λ s, bool_decide (s_id s = sdk_sessions_id_seq db))
                (sdk_sessions db)) eqn:Hid; [done|].
    repeat match goal with |- (if ?c then _ else _) = _ → _ => destruct c; [done|] end.
    intros [= <- <-]. unfold updateSDKSessionId. simpl.
    rewrite existsb_none; [done|]. intros s Hin.
    apply elem_of_app in Hin as [Hin|Hin].
    + apply andb_false_iff. left.
      apply (existsb_false_elem _ _ s Hid Hin).
    + apply list_elem_of_singleton in Hin as ->. simpl. apply andb_false_r.
Qed.

(** *** Completed sessions *)

Lemma update_sessions_elem cond set db s' :
  s' ∈ sdk_sessions (update_sessions cond set db)
  ↔ ∃ s, s ∈ sdk_sessions db ∧ s' = if cond s then set s else s.
Proof.
  unfold update_sessions. simpl. rewrite elem_of_map.
  split; intros (s & H1 & H2); exists s; by split.
Qed.

(** [createSDKSession] does not bring a completed session back: after
    [markSessionCompleted], the upsert for the same external id returns the
    same internal id and the session is still not active, so
    [findActiveSDKSession] finds nothing while [findAnySDKSession] finds
    the row.  Only [reactivateSession] makes it active again, and it clears
    the worker port. *)
Theorem completed_session_needs_reactivation
    nowIso nowEpoch userId doneIso doneEpoch cid project prompt id db :
  (∃ s, s ∈ sdk_sessions db ∧ s_claude_session_id s = cid) →
  (∀ s, s ∈ sdk_sessions db → s_claude_session_id s = cid → s_id s = id) →
  findActiveSDKSession cid (markSessionCompleted doneIso doneEpoch id db) = None
  ∧ ∃ db2,
      createSDKSession nowIso nowEpoch userId cid project prompt
        (markSessionCompleted doneIso doneEpoch id db) = Ok (id, db2)
      ∧ findActiveSDKSession cid db2 = None
      ∧ findAnySDKSession cid db2 = Some id
      ∧ ∀ prompt', ∃ sid proj,
          findActiveSDKSession cid (reactivateSession id prompt' db2)
          = Some (id, sid, proj, None).
Proof.
  intros (s0 & Hin0 & Hcid0) Hunique.
  set (db1 := markSessionCompleted doneIso doneEpoch id db).
  assert (∀ s, s ∈ sdk_sessions db1 → s_claude_session_id s = cid →
            s_id s = id ∧ s_status s = "completed") as Hdone.
  { intros s Hin Hc. apply update_sessions_elem in Hin as (s' & Hin' & ->).
    destruct (bool_decide (s_id s' = id)) eqn:Hid; simpl in *.
    - by apply bool_decide_eq_true in Hid.
    - apply bool_decide_eq_false in Hid. by destruct (Hid (Hunique s' Hin' Hc)). }
  assert (∃ s, s ∈ sdk_sessions db1 ∧ s_claude_session_id s = cid) as (s1 & Hin1 & Hcid1).
  { eexists. split; [apply update_sessions_elem; exists s0; split; [done|reflexivity]|].
    by destruct (bool_decide (s_id s0 = id)). }
  split.
  { unfold findActiveSDKSession. rewrite (proj2 (find_none_iff _ _)); [done|].
    intros s Hin. apply andb_false_iff.
    destruct (decide (s_claude_session_id s = cid)) as [Hc|Hc];
      [right|left; by apply bool_decide_eq_false_2].
    apply bool_decide_eq_false_2. destruct (Hdone s Hin Hc) as [_ ->]. done. }
  destruct (find_some_of_member (λ s, bool_decide (s_claude_session_id s = cid))
              _ s1 Hin1) as [existing Hfind]; [by apply bool_decide_eq_true_2|].
  unfold createSDKSession. rewrite Hfind.
  apply find_is_member in Hfind as [Hex Hexc%bool_decide_eq_true].
  destruct (Hdone existing Hex Hexc) as [Hexid _]. rewrite Hexid.
  eexists. split; [done|].
  set (rows2 := map _ (sdk_sessions db1)).
  assert (∀ s, s ∈ rows2 → s_claude_session_id s = cid →
            s_id s = id ∧ s_status s = "completed") as Hdone2.
  { intros s Hin Hc. apply elem_of_map in Hin as (s' & -> & Hin').
    destruct (bool_decide (s_claude_session_id s' = cid)) eqn:Hc'; simpl in *.
    - apply bool_decide_eq_true in Hc'. by apply Hdone.
    - by apply Hdone. }
  assert (existing ∈ sdk_sessions db1 → ∃ s, s ∈ rows2 ∧ s_claude_session_id s = cid)
    as Hstill.
  { intros _. eexists. split; [apply elem_of_map; exists existing; split; [reflexivity|done]|].
    by destruct (bool_decide (s_claude_session_id existing = cid)). }
  destruct (Hstill Hex) as (s2 & Hin2 & Hcid2).
  split; [|split].
  - unfold findActiveSDKSession. simpl. fold rows2.
    rewrite (proj2 (find_none_iff _ _)); [done|].
    intros s Hin. apply andb_false_iff.
    destruct (decide (s_claude_session_id s = cid)) as [Hc|Hc];
      [right|left; by apply bool_decide_eq_false_2].
    apply bool_decide_eq_false_2. destruct (Hdone2 s Hin Hc) as [_ ->]. done.
  - unfold findAnySDKSession. simpl. fold rows2.
    destruct (find_some_of_member (λ s, bool_decide (s_claude_session_id s = cid))
                rows2 s2 Hin2) as [first Hfirst]; [by apply bool_decide_eq_true_2|].
    rewrite Hfirst. simpl.
    apply find_is_member in Hfirst as [Hf Hfc%bool_decide_eq_true].
    by destruct (Hdone2 first Hf Hfc) as [-> _].
  - intros prompt'. unfold findActiveSDKSession, reactivateSession, update_sessions.
    simpl. fold rows2.
    set (rows3 := map _ rows2).
    assert (∀ s, s ∈ rows3 → s_claude_session_id s = cid →
              s_id s = id ∧ s_status s = "active" ∧ s_worker_port s = None)
      as Hactive.
    { intros s Hin Hc. apply elem_of_map in Hin as (s' & -> & Hin').
      destruct (bool_decide (s_id s' = id)) eqn:Hid; simpl in *.
      - by apply bool_decide_eq_true in Hid.
      - apply bool_decide_eq_false in Hid. by destruct (Hdone2 s' Hin' Hc). }
    assert (∃ s, s ∈ rows3 ∧ s_claude_session_id s = cid) as (s3 & Hin3 & Hcid3).
    { eexists. split; [apply elem_of_map; exists s2; split; [reflexivity|done]|].
      by destruct (bool_decide (s_id s2 = id)). }
    destruct (find_some_of_member
                (λ s, bool_decide (s_claude_session_id s = cid)
                      && bool_decide (s_status s = "active")) rows3 s3 Hin3)
      as [first Hfirst].
    { destruct (Hactive s3 Hin3 Hcid3) as (_ & Hst & _).
      by rewrite !bool_decide_eq_true_2. }
    rewrite Hfirst. simpl.
    apply find_is_member in Hfirst as [Hf Hfc].
    apply andb_true_iff in Hfc as [Hfc%bool_decide_eq_true _].
    destruct (Hactive first Hf Hfc) as (-> & _ & ->). eauto.
Qed.

(** *** The timeline window *)

Lemma boundary_elem (rows : list Z) (anchorEpoch : Z) :
  boundary rows anchorEpoch = anchorEpoch ∨ boundary rows anchorEpoch ∈ rows.
Proof.
  unfold boundary. destruct (last rows) as [e|] eqn:Hlast; [|by left].
  right. apply last_Some in Hlast as [l' ->]. apply elem_of_app. right.
  apply list_elem_of_here.
Qed.

Lemma take_is_nil {A} (n : nat) (rows : list A) :
  take n rows = [] ↔ n = 0%nat ∨ rows = [].
Proof.
  destruct n, rows; simpl; split; try done; try (by left); try (by right).
  by intros [?|?].
Qed.

Lemma order_by_asc_is_nil {A} (key : A → Z) (rows : list A) :
  order_by_asc key rows = [] ↔ rows = [].
Proof.
  rewrite <- !length_zero_iff_nil. by rewrite order_by_asc_length.
Qed.

Lemma order_by_desc_is_nil {A} (key : A → Z) (rows : list A) :
  order_by_desc key rows = [] ↔ rows = [].
Proof.
  rewrite <- !length_zero_iff_nil. by rewrite order_by_desc_length.
Qed.

Lemma map_filter_is_nil {A B} (f : A → B) (P : A → Prop) `{∀ x, Decision (P x)}
    (rows : list A) :
  map f (filter P rows) = [] ↔ ∀ x, x ∈ rows → ¬ P x.
Proof.
  split.
  - intros Hnil x Hin HP.
    assert (f x ∈ map f (filter P rows)) as Hmem.
    { apply elem_of_map. exists x. split; [done|]. by apply list_elem_of_filter. }
    rewrite Hnil in Hmem. by apply elem_of_nil in Hmem.
  - intros Hnone. destruct (filter P rows) as [|x rest] eqn:Hfilter; [done|].
    assert (x ∈ filter P rows) as Hin by (rewrite Hfilter; apply list_elem_of_here).
    apply list_elem_of_filter in Hin as [HP Hin]. by destruct (Hnone x Hin).
Qed.

(** With non-negative depths and no project (or the empty one) the
    timeline query is never rejected: every observation stored at the
    anchor time is part of the timeline, every observation returned lies in
    a window that contains the anchor time, and the window comes back
    complete.  With a project the call answers only when the boundary
    queries find nothing, and then with the empty timeline; as soon as an
    observation of the project lies at or after the anchor, or at or before
    it with a positive [depthBefore], the call is rejected. *)
Theorem timeline_contains_anchor anchorId anchorEpoch depthBefore depthAfter db :
  0 ≤ depthBefore → 0 ≤ depthAfter →
  (∀ project, project = None ∨ project = Some "" →
   ∃ timeline startEpoch endEpoch,
     getTimelineAroundObservation anchorId anchorEpoch depthBefore depthAfter project db
     = Ok timeline
     ∧ startEpoch ≤ anchorEpoch ≤ endEpoch
     ∧ (∀ o, o ∈ observations db → o_created_at_epoch o = anchorEpoch →
             o ∈ tl_observations timeline)
     ∧ (∀ o, o ∈ tl_observations timeline →
             o ∈ observations db ∧ startEpoch ≤ o_created_at_epoch o ≤ endEpoch)
     ∧ (tl_observations timeline ≠ [] →
        ∀ o, o ∈ observations db →
             startEpoch ≤ o_created_at_epoch o ≤ endEpoch →
             o ∈ tl_observations timeline))
  ∧ (∀ p, p ≠ "" →
     ((∃ o, o ∈ observations db ∧ o_project o = p
            ∧ (anchorEpoch ≤ o_created_at_epoch o
               ∨ (0 < depthBefore ∧ o_created_at_epoch o ≤ anchorEpoch))) →
      getTimelineAroundObservation anchorId anchorEpoch depthBefore depthAfter (Some p) db
      = Err undefined_function)
     ∧ ((∀ o, o ∈ observations db → o_project o = p →
              o_created_at_epoch o < anchorEpoch
              ∧ (0 < depthBefore → anchorEpoch < o_created_at_epoch o)) →
        getTimelineAroundObservation anchorId anchorEpoch depthBefore depthAfter
          (Some p) db
        = Ok {| tl_observations := []; tl_sessions := []; tl_prompts := [] |})).
Proof.
  intros Hbefore Hafter. split.
  - intros project Hproject.
    assert (js_or_null_str project = None) as Hnone by (by destruct Hproject as [->| ->]).
    assert (∀ row_project, project_clause project row_project = true) as Hclause.
    { intros row_project. unfold project_clause. by rewrite Hnone. }
    unfold getTimelineAroundObservation, limit. rewrite Hnone.
    destruct (Z.ltb_spec depthBefore 0) as [?|_]; [lia|].
    destruct (Z.ltb_spec (depthAfter + 1) 0) as [?|_]; [lia|].
    set (older := map o_created_at_epoch (filter _ (observations db))).
    set (newer := map o_created_at_epoch (filter _ (observations db))).
    set (beforeResult := take (Z.to_nat depthBefore) (order_by_desc (λ e : Z, e) older)).
    set (afterResult := take (Z.to_nat (depthAfter + 1)) (order_by_asc (λ e : Z, e) newer)).
    assert (∀ e, e ∈ beforeResult → e ≤ anchorEpoch) as Hold.
    { intros e He. apply subseteq_take, order_by_desc_elem_of in He.
      apply elem_of_map in He as (o & -> & Ho).
      by apply list_elem_of_filter in Ho as [[? _] _]. }
    assert (∀ e, e ∈ afterResult → anchorEpoch ≤ e) as Hnew.
    { intros e He. apply subseteq_take, order_by_asc_elem_of in He.
      apply elem_of_map in He as (o & -> & Ho).
      by apply list_elem_of_filter in Ho as [[? _] _]. }
    assert (boundary beforeResult anchorEpoch ≤ anchorEpoch) as Hstart.
    { destruct (boundary_elem beforeResult anchorEpoch) as [->|Hin]; [lia|by apply Hold]. }
    assert (anchorEpoch ≤ boundary afterResult anchorEpoch) as Hend.
    { destruct (boundary_elem afterResult anchorEpoch) as [->|Hin]; [lia|by apply Hnew]. }
    destruct (bool_decide (beforeResult = []) && bool_decide (afterResult = [])) eqn:Hempty.
    + apply andb_true_iff in Hempty as [_ Hnil%bool_decide_eq_true].
      exists {| tl_observations := []; tl_sessions := []; tl_prompts := [] |},
        anchorEpoch, anchorEpoch.
      split; [done|]. split; [lia|]. simpl. split; [|split; [|done]].
      * intros o Hin Hepoch.
        apply take_is_nil in Hnil as [?|Hnil]; [lia|].
        apply order_by_asc_is_nil in Hnil.
        destruct (proj1 (map_filter_is_nil _ _ _) Hnil o Hin). split; [lia|done].
      * intros o Hin. by apply elem_of_nil in Hin.
    + eexists _, (boundary beforeResult anchorEpoch), (boundary afterResult anchorEpoch).
      split; [done|]. split; [lia|]. simpl. split; [|split].
      * intros o Hin Hepoch. apply order_by_asc_elem_of, list_elem_of_filter.
        split; [|done]. split; lia.
      * intros o Hin%order_by_asc_elem_of%list_elem_of_filter.
        destruct Hin as [[? ?] ?]. split; [done|]. lia.
      * intros _ o Hin Hepoch. apply order_by_asc_elem_of, list_elem_of_filter.
        split; [|done]. split; lia.
  - intros p Hp.
    assert (js_or_null_str (Some p) = Some p) as Hsome.
    { simpl. by rewrite bool_decide_eq_false_2. }
    assert (∀ row_project, project_clause (Some p) row_project = true ↔ row_project = p)
      as Hclause.
    { intros row_project. unfold project_clause. rewrite Hsome.
      apply bool_decide_eq_true. }
    unfold getTimelineAroundObservation, limit. rewrite Hsome.
    destruct (Z.ltb_spec depthBefore 0) as [?|_]; [lia|].
    destruct (Z.ltb_spec (depthAfter + 1) 0) as [?|_]; [lia|].
    set (older := map o_created_at_epoch (filter _ (observations db))).
    set (newer := map o_created_at_epoch (filter _ (observations db))).
    set (beforeResult := take (Z.to_nat depthBefore) (order_by_desc (λ e : Z, e) older)).
    set (afterResult := take (Z.to_nat (depthAfter + 1)) (order_by_asc (λ e : Z, e) newer)).
    split.
    + intros (o & Hin & Hproject & Hside).
      assert (bool_decide (beforeResult = []) && bool_decide (afterResult = []) = false)
        as ->; [|done].
      apply andb_false_iff. destruct Hside as [Hnewer|[Hdepth Holder]].
      * right. apply bool_decide_eq_false_2. intros Hnil.
        apply take_is_nil in Hnil as [?|Hnil]; [lia|].
        apply order_by_asc_is_nil in Hnil.
        destruct (proj1 (map_filter_is_nil _ _ _) Hnil o Hin).
        split; [done|]. by apply Hclause.
      * left. apply bool_decide_eq_false_2. intros Hnil.
        apply take_is_nil in Hnil as [?|Hnil]; [lia|].
        apply order_by_desc_is_nil in Hnil.
        destruct (proj1 (map_filter_is_nil _ _ _) Hnil o Hin).
        split; [done|]. by apply Hclause.
    + intros Hnone.
      assert (afterResult = []) as ->.
      { apply take_is_nil. right. apply order_by_asc_is_nil, map_filter_is_nil.
        intros o Hin [Hepoch Hproject%Hclause].
        destruct (Hnone o Hin Hproject). lia. }
      assert (beforeResult = []) as ->; [|done].
      apply take_is_nil. destruct (decide (depthBefore = 0)) as [->|?]; [by left|].
      right. apply order_by_desc_is_nil, map_filter_is_nil.
      intros o Hin [Hepoch Hproject%Hclause].
      destruct (Hnone o Hin Hproject) as [_ Hlater]. lia.
Qed.

(** *** Imports only append *)

(** Every import leaves the rows already stored as they are: each table
    after the call is the table before, possibly with rows appended; and a
    call that answers [imported: false] writes nothing at all. *)
Theorem imports_only_append srv db :
  (∀ x r db', importSdkSession srv x db = Ok (r, db') →
     sdk_sessions db `prefix_of` sdk_sessions db'
     ∧ observations db' = observations db
     ∧ session_summaries db' = session_summaries db
     ∧ user_prompts db' = user_prompts db
     ∧ (imported r = false → db' = db))
  ∧ (∀ x r db', importSessionSummary srv x db = Ok (r, db') →
     sdk_sessions db' = sdk_sessions db
     ∧ observations db' = observations db
     ∧ session_summaries db `prefix_of` session_summaries db'
     ∧ user_prompts db' = user_prompts db
     ∧ (imported r = false → db' = db))
  ∧ (∀ x r db', importObservation srv x db = Ok (r, db') →
     sdk_sessions db' = sdk_sessions db
     ∧ observations db `prefix_of` observations db'
     ∧ session_summaries db' = session_summaries db
     ∧ user_prompts db' = user_prompts db
     ∧ (imported r = false → db' = db))
  ∧ (∀ x r db', importUserPrompt srv x db = Ok (r, db') →
     sdk_sessions db' = sdk_sessions db
     ∧ observations db' = observations db
     ∧ session_summaries db' = session_summaries db
     ∧ user_prompts db `prefix_of` user_prompts db'
     ∧ (imported r = false → db' = db)).
Proof.
  split; [|split; [|split]]; intros x r db'.
  - unfold importSdkSession.
    destruct (find _ (sdk_sessions db)); [by intros [= <- <-]|].
    import_steps. intros [= <- <-].
    match goal with H : insert_sdk_session _ db = _ |- _ =>
      unfold insert_sdk_session in H; insert_succeeded H end.
    simpl. repeat split; [by apply prefix_app_r|done].
  - unfold importSessionSummary.
    destruct (find _ (session_summaries db)); [by intros [= <- <-]|].
    import_steps. intros [= <- <-].
    match goal with H : insert_session_summary _ db = _ |- _ =>
      unfold insert_session_summary in H; insert_succeeded H end.
    simpl. repeat split; [by apply prefix_app_r|done].
  - unfold importObservation.
    destruct (find _ (observations db)); [by intros [= <- <-]|].
    import_steps. intros [= <- <-].
    match goal with H : insert_observation _ db = _ |- _ =>
      unfold insert_observation in H; insert_succeeded H end.
    simpl. repeat split; [by apply prefix_app_r|done].
  - unfold importUserPrompt.
    destruct (find _ (user_prompts db)); [by intros [= <- <-]|].
    import_steps. intros [= <- <-].
    match goal with H : insert_user_prompt _ db = _ |- _ =>
      unfold insert_user_prompt in H; insert_succeeded H end.
    simpl. repeat split; [by apply prefix_app_r|done].
Qed.

(** *** Batch lookup of summaries *)

Lemma order_by_asc_sorted {A} (key : A → Z) (rows : list A) :
  StronglySorted (λ a b, key a ≤ key b) (order_by_asc key rows).
Proof.
  assert (Transitive (λ a b : A, key a ≤ key b)) by (intros a b c; lia).
  assert (Total (λ a b : A, key a ≤ key b)) by (intros a b; lia).
  by apply (@StronglySorted_merge_sort A (λ a b, key a ≤ key b)
              (λ a b, decide (key a ≤ key b))).
Qed.

Lemma order_by_desc_sorted {A} (key : A → Z) (rows : list A) :
  StronglySorted (λ a b, key b ≤ key a) (order_by_desc key rows).
Proof.
  assert (Transitive (λ a b : A, key b ≤ key a)) by (intros a b c; lia).
  assert (Total (λ a b : A, key b ≤ key a)) by (intros a b; lia).
  by apply (@StronglySorted_merge_sort A (λ a b, key b ≤ key a)
              (λ a b, decide (key b ≤ key a))).
Qed.

(** [getSessionSummariesByIds]: an empty id list gives an empty result
    without looking at the table; a limit of 0 is no limit; without a limit
    the result is exactly the summaries whose id is listed (in the
    requested project), newest first unless [date_asc] is asked for; a
    positive limit keeps that many from the front, a negative one is
    rejected by the server. *)
Theorem getSessionSummariesByIds_spec ids order project db :
  getSessionSummariesByIds []
    {| orderBy := order; limit_option := None; project_option := project |} db = Ok []
  ∧ getSessionSummariesByIds ids
      {| orderBy := order; limit_option := Some 0; project_option := project |} db
    = getSessionSummariesByIds ids
        {| orderBy := order; limit_option := None; project_option := project |} db
  ∧ ∃ unlimited,
      getSessionSummariesByIds ids
        {| orderBy := order; limit_option := None; project_option := project |} db
      = Ok unlimited
      ∧ (∀ m, m ∈ unlimited
              ↔ m ∈ session_summaries db ∧ m_id m ∈ ids
                ∧ project_clause project (m_project m) = true)
      ∧ (∀ (i j : nat) a b, (i < j)%nat →
           unlimited !! i = Some a → unlimited !! j = Some b →
           match order with
           | Some date_asc => m_created_at_epoch a ≤ m_created_at_epoch b
           | _ => m_created_at_epoch b ≤ m_created_at_epoch a
           end)
      ∧ (∀ n, 0 < n →
           getSessionSummariesByIds ids
             {| orderBy := order; limit_option := Some n; project_option := project |} db
           = Ok (take (Z.to_nat n) unlimited))
      ∧ (∀ n, n < 0 → ids ≠ [] →
           getSessionSummariesByIds ids
             {| orderBy := order; limit_option := Some n; project_option := project |} db
           = Err invalid_row_count).
Proof.
  split; [done|]. split; [done|].
  unfold getSessionSummariesByIds. simpl.
  destruct ids as [|id0 ids'].
  { simpl. exists []. split; [done|]. split.
    - intros m. split; [by intros ?%elem_of_nil|].
      by intros (_ & ?%elem_of_nil & _).
    - split; [by intros ???? _ ?|]. split; [|done].
      intros n Hn. by rewrite take_nil. }
  rewrite bool_decide_eq_false_2 by done.
  set (ids := id0 :: ids') in *.
  set (matching := filter _ (session_summaries db)).
  assert (∀ m, m ∈ matching
               ↔ m ∈ session_summaries db ∧ m_id m ∈ ids
                 ∧ project_clause project (m_project m) = true) as Hmatch.
  { intros m. unfold matching. rewrite list_elem_of_filter. tauto. }
  eexists. split; [done|]. split; [|split; [|split]].
  - intros m. rewrite <- Hmatch.
    destruct order as [[]|]; simpl;
      [apply order_by_desc_elem_of|apply order_by_asc_elem_of|apply order_by_desc_elem_of].
  - intros i j a b Hij Ha Hb.
    destruct order as [[]|]; simpl in *.
    + apply (strongly_sorted_lookup _ _ i j a b
               (order_by_desc_sorted m_created_at_epoch matching) Hij Ha Hb).
    + apply (strongly_sorted_lookup _ _ i j a b
               (order_by_asc_sorted m_created_at_epoch matching) Hij Ha Hb).
    + apply (strongly_sorted_lookup _ _ i j a b
               (order_by_desc_sorted m_created_at_epoch matching) Hij Ha Hb).
  - intros n Hn. destruct (Z.eqb_spec n 0) as [?|_]; [lia|].
    unfold limit. by destruct (Z.ltb_spec n 0) as [?|_]; [lia|].
  - intros n Hn _. destruct (Z.eqb_spec n 0) as [?|_]; [lia|].
    unfold limit. by destruct (Z.ltb_spec n 0) as [_|?]; [|lia].
Qed.

(** *** Instances *)

Import SessionScenario StoreScenario.

(** The first observation of an unknown session S, into an empty database;
    the clock has moved on by two milliseconds when the session row is
    written. *)
Lemma storeObservation_creates_session_witness :
  ∃ db',
    storeObservation "2025-01-01T00:00:00.100Z" 100 "2025-01-01T00:00:00.102Z" 102
      "user" "S" "demo" a_discovery (Some 1) 0 empty_db = Ok (1, 100, db')
    ∧ map (λ s, (s_claude_session_id s, s_status s, s_started_at_epoch s))
        (sdk_sessions db')
      = [("S", "active", 102)]
    ∧ (λ o, (o_facts o, o_concepts o, o_created_at_epoch o))
      <$> getObservationById 1 db'
      = Some (Some (JArray [JString "fact"]), Some (JArray []), 100).
Proof.
  destruct (storeObservation_creates_session "2025-01-01T00:00:00.100Z" 100
              "2025-01-01T00:00:00.102Z" 102 "user" "S" "demo" a_discovery (Some 1) 0
              empty_db)
    as (db' & Hstore & Hsessions & Hround).
  - intros s Hin. by apply elem_of_nil in Hin.
  - intros o Hin. by apply elem_of_nil in Hin.
  - reflexivity.
  - exists db'. split; [exact Hstore|]. split.
    + rewrite Hsessions. reflexivity.
    + simpl in Hround. rewrite Hround. reflexivity.
Defined.

(** A summary for session S, whose row carries S under both ids: the
    session row stays and the session id sequence moves from 2 to 3. *)
Lemma storeSummary_for_known_session_witness :
  ∃ db',
    storeSummary "2025-01-01T00:00:00.100Z" 100 "2025-01-01T00:00:00.102Z" 102
      "user" "S" "demo" a_summary None 0 db_S
    = Ok (1, 100, db')
    ∧ sdk_sessions db' = sdk_sessions db_S
    ∧ sdk_sessions_id_seq db_S = 2
    ∧ sdk_sessions_id_seq db' = 3
    ∧ length (session_summaries db') = 1%nat.
Proof.
  eexists. split.
  - apply (storeSummary_for_known_session "2025-01-01T00:00:00.100Z" 100
             "2025-01-01T00:00:00.102Z" 102 "user" "S" "demo" a_summary None 0 db_S).
    + eexists. split; [apply list_elem_of_here|]. by split.
    + intros m Hin. by apply elem_of_nil in Hin.
  - by repeat split.
Defined.

(** The imported session with external id claude-1 and SDK id sdk-1:
    nothing can be stored under either id. *)
Lemma store_rejected_when_ids_differ_witness :
  importSdkSession scenario_server session_split empty_db
  = Ok ({| imported := true; id := 1 |}, db_split)
  ∧ storeSummary "2025-01-01T00:00:00.100Z" 100 "2025-01-01T00:00:00.102Z" 102
      "user" "sdk-1" "demo" a_summary None 0 db_split = Err unique_violation
  ∧ storeSummary "2025-01-01T00:00:00.100Z" 100 "2025-01-01T00:00:00.102Z" 102
      "user" "claude-1" "demo" a_summary None 0 db_split = Err foreign_key_violation.
Proof.
  split; [reflexivity|].
  destruct (store_rejected_when_ids_differ "2025-01-01T00:00:00.100Z" 100
              "2025-01-01T00:00:00.102Z" 102 "user" "sdk-1" "demo" a_discovery a_summary
              None 0 db_split)
    as [Hunique _].
  destruct (store_rejected_when_ids_differ "2025-01-01T00:00:00.100Z" 100
              "2025-01-01T00:00:00.102Z" 102 "user" "claude-1" "demo" a_discovery
              a_summary None 0 db_split)
    as [_ Hforeign].
  split.
  - apply Hunique.
    + intros s Hin. apply list_elem_of_singleton in Hin as ->. discriminate.
    + eexists. split; [apply list_elem_of_here|done].
  - apply Hforeign.
    + eexists. split; [apply list_elem_of_here|done].
    + intros s Hin. apply list_elem_of_singleton in Hin as ->. discriminate.
    + reflexivity.
    + intros o Hin. by apply elem_of_nil in Hin.
    + intros m Hin. by apply elem_of_nil in Hin.
Defined.

(** The first prompt of session S. *)
Lemma saveUserPrompt_then_getUserPrompt_witness :
  getUserPrompt "S" 1 db_S = None
  ∧ ∃ db',
      saveUserPrompt "2025-01-01T00:00:00.100Z" 100 "user" "S" 1 "hello" db_S
      = Ok (1, db')
      ∧ getUserPrompt "S" 1 db' = Some "hello"
      ∧ getUserPrompt "S" 2 db' = None.
Proof.
  destruct (saveUserPrompt_then_getUserPrompt "2025-01-01T00:00:00.100Z" 100 "user"
              "S" 1 "hello" db_S) as (Hbefore & db' & Hsave & Hget & Hother).
  - intros p Hin. by apply elem_of_nil in Hin.
  - eexists. split; [apply list_elem_of_here|done].
  - intros p Hin. by apply elem_of_nil in Hin.
  - split; [exact Hbefore|]. exists db'. split; [exact Hsave|]. split; [exact Hget|].
    rewrite (Hother "S" 2) by (intros [_ ?]; done). reflexivity.
Defined.

(** Session S, completed, then seen again. *)
Lemma completed_session_needs_reactivation_witness :
  findActiveSDKSession "S" db_S = Some (1, Some "S", "demo", None)
  ∧ findActiveSDKSession "S"
      (markSessionCompleted "2025-01-02T00:00:00.000Z" 200 1 db_S) = None
  ∧ ∃ db2,
      createSDKSession "2025-01-03T00:00:00.000Z" 300 "user" "S" "demo" "again"
        (markSessionCompleted "2025-01-02T00:00:00.000Z" 200 1 db_S) = Ok (1, db2)
      ∧ findActiveSDKSession "S" db2 = None.
Proof.
  split; [reflexivity|].
  destruct (completed_session_needs_reactivation "2025-01-03T00:00:00.000Z" 300 "user"
              "2025-01-02T00:00:00.000Z" 200 "S" "demo" "again" 1 db_S)
    as (Hdone & db2 & Hupsert & Hstill & _).
  - eexists. split; [apply list_elem_of_here|done].
  - intros s Hin _. by apply list_elem_of_singleton in Hin as ->.
  - split; [exact Hdone|]. exists db2. by split.
Defined.

(** The five observations of project demo, anchor at 30: without a project
    the anchor is part of the timeline; asked for project demo, the call is
    rejected. *)
Lemma timeline_contains_anchor_witness :
  (∃ timeline,
     getTimelineAroundObservation (Some 3) 30 2 2 None db_five = Ok timeline
     ∧ 30 ∈ map o_created_at_epoch (tl_observations timeline))
  ∧ getTimelineAroundObservation (Some 3) 30 2 2 (Some "demo") db_five
    = Err undefined_function.
Proof.
  destruct (timeline_contains_anchor (Some 3) 30 2 2 db_five) as [Hall Hproject];
    [lia..|].
  destruct (observations db_five !! 2%nat) as [o|] eqn:Ho; [|by vm_compute in Ho].
  assert (o_created_at_epoch o = 30 ∧ o_project o = "demo") as [Hepoch Hdemo].
  { vm_compute in Ho. injection Ho as <-. by split. }
  apply list_elem_of_lookup_2 in Ho.
  split.
  - destruct (Hall None) as (timeline & startEpoch & endEpoch & Hcall & _ & Hanchor & _);
      [by left|].
    exists timeline. split; [exact Hcall|].
    apply elem_of_map. exists o. split; [done|]. by apply Hanchor.
  - apply (Hproject "demo"); [done|]. exists o. split; [done|]. split; [done|].
    left. lia.
Defined.

(** With depth 1 on either side of the anchor at 30, nothing older than 30
    comes back. *)
Lemma timeline_depth_one_reaches_nothing_older_witness :
  ∃ timeline,
    getTimelineAroundObservation (Some 3) 30 1 1 None db_five = Ok timeline
    ∧ map o_created_at_epoch (tl_observations timeline) = [30; 40]
    ∧ ∀ o, o ∈ tl_observations timeline → 30 ≤ o_created_at_epoch o.
Proof.
  destruct (getTimelineAroundObservation (Some 3) 30 1 1 None db_five)
    as [timeline|e] eqn:Hcall; [|by vm_compute in Hcall].
  exists timeline. split; [done|]. split.
  - vm_compute in Hcall. injection Hcall as <-. reflexivity.
  - apply (timeline_depth_one_reaches_nothing_older (Some 3) 30 1 db_five timeline);
      [|exact Hcall].
    destruct (observations db_five !! 2%nat) as [o|] eqn:Ho; [|by vm_compute in Ho].
    exists o. split; [by apply list_elem_of_lookup_2 in Ho|].
    vm_compute in Ho. by injection Ho as <-.
Defined.

End SessionStoreFacts.

(* ===================================================================== *)
(** * Properties of the worker ports and of the two fan-outs              *)
(* ===================================================================== *)

Section WorkerPorts.
Import Replication WorkerUtils.

Lemma set_add_spec (ports : list Z) (port : Z) :
  NoDup ports →
  NoDup (set_add ports port) ∧ ∀ p, p ∈ set_add ports port ↔ p ∈ ports ∨ p = port.
Proof.
  intros Hnd. unfold set_add. case_bool_decide as Hin.
  - split; [done|]. intros p. split; [by left|]. by intros [?| ->].
  - split.
    + apply NoDup_app. split; [done|]. split; [|apply NoDup_singleton].
      intros p Hp ->%list_elem_of_singleton. done.
    + intros p. rewrite elem_of_app, list_elem_of_singleton. tauto.
Qed.

Lemma foldl_set_add_spec (added : list Z) : ∀ ports : list Z,
  NoDup ports →
  NoDup (foldl set_add ports added)
  ∧ ∀ p, p ∈ foldl set_add ports added ↔ p ∈ ports ∨ p ∈ added.
Proof.
  induction added as [|x added IH]; intros ports Hnd; simpl.
  - split; [done|]. intros p. rewrite elem_of_nil. tauto.
  - destruct (set_add_spec ports x Hnd) as [Hnd' Hmem].
    destruct (IH _ Hnd') as [Hnd'' Hmem'']. split; [done|].
    intros p. rewrite Hmem'', Hmem, elem_of_cons. tauto.
Qed.

Lemma valid_port_spec (parsed : list (option Z)) (p : Z) :
  p ∈ omap valid_port parsed ↔ Some p ∈ parsed ∧ 1024 ≤ p ≤ 65535.
Proof.
  rewrite list_elem_of_omap. split.
  - intros ([q|] & Hin & Hv); simpl in Hv; [|done].
    destruct (Z.leb_spec 1024 q); simpl in Hv; [|done].
    destruct (Z.leb_spec q 65535); [|done].
    injection Hv as <-. split; [done|lia].
  - intros [Hin Hrange]. exists (Some p). split; [done|]. simpl.
    destruct (Z.leb_spec 1024 p); [|lia]. destruct (Z.leb_spec p 65535); [done|lia].
Qed.

Lemma NoDup_filter_keeps {A} (P : A → Prop) `{∀ x, Decision (P x)} (l : list A) :
  NoDup l → NoDup (filter P l).
Proof.
  induction 1 as [|x l Hx Hnd IH]; [constructor|].
  rewrite filter_cons. case_decide; [|done].
  constructor; [|done]. rewrite list_elem_of_filter. tauto.
Qed.

Lemma getWorkerPorts_members primaryPort parsed :
  NoDup (getWorkerPorts primaryPort parsed)
  ∧ ∀ p, p ∈ getWorkerPorts primaryPort parsed
         ↔ p = primaryPort ∨ (Some p ∈ parsed ∧ 1024 ≤ p ≤ 65535).
Proof.
  unfold getWorkerPorts.
  destruct (foldl_set_add_spec (omap valid_port parsed) [primaryPort])
    as [Hnd Hmem]; [apply NoDup_singleton|].
  split.
  - constructor; [|by apply NoDup_filter_keeps].
    rewrite list_elem_of_filter. tauto.
  - intros p. rewrite elem_of_cons, list_elem_of_filter, Hmem,
      list_elem_of_singleton, valid_port_spec.
    destruct (decide (p = primaryPort)); tauto.
Qed.

(** [getWorkerPorts] puts the primary port first, lists no port twice, and
    lists besides the primary exactly the pieces of CLAUDE_MEM_WORKER_PORTS
    that parse to a number from 1024 to 65535. *)
Theorem getWorkerPorts_spec primaryPort parsed :
  head (getWorkerPorts primaryPort parsed) = Some primaryPort
  ∧ NoDup (getWorkerPorts primaryPort parsed)
  ∧ ∀ p, p ∈ getWorkerPorts primaryPort parsed
         ↔ p = primaryPort ∨ (Some p ∈ parsed ∧ 1024 ≤ p ≤ 65535).
Proof. split; [done|]. apply getWorkerPorts_members. Qed.

Lemma filter_not_primary (primaryPort : Z) (ports : list Z) :
  filter (λ p, p ≠ primaryPort) (filter (λ p, p ≠ primaryPort) ports)
  = filter (λ p, p ≠ primaryPort) ports.
Proof.
  induction ports as [|x ports IH]; [done|].
  rewrite filter_cons. case_decide as Hx; [|done].
  rewrite filter_cons. case_decide; [|done]. by rewrite IH.
Qed.

Lemma secondary_ports_members primaryPort parsed host :
  getSecondaryPorts (config primaryPort parsed host)
  = tail (getWorkerPorts primaryPort parsed)
  ∧ each_secondary_once primaryPort parsed
      (getSecondaryPorts (config primaryPort parsed host)).
Proof.
  destruct (getWorkerPorts_members primaryPort parsed) as (Hnd & Hmem).
  assert (getSecondaryPorts (config primaryPort parsed host)
          = tail (getWorkerPorts primaryPort parsed)) as Htail.
  { unfold getSecondaryPorts, config, getWorkerPorts. simpl.
    rewrite filter_cons. case_decide; [done|]. apply filter_not_primary. }
  split; [done|]. split.
  - rewrite Htail. unfold getWorkerPorts in *. simpl. by apply NoDup_cons in Hnd as [_ ?].
  - intros p. rewrite secondary_ports_spec. simpl. rewrite Hmem. tauto.
Qed.

(** On the configured ports, the secondary set of the replication
    functions is [getWorkerPorts] without its first entry: it never
    contains the primary, contains no port twice, and holds exactly the
    valid additional ports; replication is enabled exactly when that set is
    not empty, which is also when multi-port mode is enabled. *)
Theorem secondary_ports_of_configuration primaryPort parsed host :
  getSecondaryPorts (config primaryPort parsed host)
  = tail (getWorkerPorts primaryPort parsed)
  ∧ NoDup (getSecondaryPorts (config primaryPort parsed host))
  ∧ (∀ p, p ∈ getSecondaryPorts (config primaryPort parsed host)
          ↔ p ≠ primaryPort ∧ Some p ∈ parsed ∧ 1024 ≤ p ≤ 65535)
  ∧ (isReplicationEnabled (config primaryPort parsed host) = true
     ↔ getSecondaryPorts (config primaryPort parsed host) ≠ [])
  ∧ isMultiPortEnabled primaryPort parsed
    = isReplicationEnabled (config primaryPort parsed host).
Proof.
  destruct (secondary_ports_members primaryPort parsed host) as (Htail & Hnd & Hmem).
  split; [done|]. split; [done|]. split; [done|]. split.
  - unfold isReplicationEnabled. rewrite bool_decide_eq_true, Htail. simpl.
    unfold getWorkerPorts. simpl.
    destruct (filter _ _); simpl; split; (done || lia).
  - done.
Qed.

(** On the configured ports, each of the four replication functions sends
    its request (a serialisable payload given) to every valid additional
    port exactly once and never to the primary. *)
Theorem replication_reaches_each_secondary_once primaryPort parsed host net :
  (∀ d, each_secondary_once primaryPort parsed
          (fetched_ports (replicateSessionInit (config primaryPort parsed host) d net).2))
  ∧ (∀ d, serialisable (observation_payload d) = true →
          each_secondary_once primaryPort parsed
            (fetched_ports (replicateObservation (config primaryPort parsed host) d net).2))
  ∧ (∀ d, serialisable (summary_payload d) = true →
          each_secondary_once primaryPort parsed
            (fetched_ports (replicateSummary (config primaryPort parsed host) d net).2))
  ∧ (∀ d, each_secondary_once primaryPort parsed
            (fetched_ports (replicateUserPrompt (config primaryPort parsed host) d net).2)).
Proof.
  destruct (secondary_ports_members primaryPort parsed host) as (_ & Hsec).
  split; [|split; [|split]]; intros d.
  - by rewrite replicateSessionInit_fan_out, fan_out_fetches.
  - intros Hs. by rewrite replicateObservation_fan_out, fan_out_fetches, Hs.
  - intros Hs. by rewrite replicateSummary_fan_out, fan_out_fetches, Hs.
  - by rewrite replicateUserPrompt_fan_out, fan_out_fetches.
Qed.

(** *** The primary-critical fan-out *)

Lemma promise_all_secondaries net (ports : list Z) (k : nat) :
  ∃ results,
    promise_all (imap (λ i, request_port net (S (k + i))) ports) = inr results
    ∧ ∀ r, r ∈ results → pr_isPrimary r = false.
Proof.
  revert k. induction ports as [|port ports IH]; intros k; simpl.
  - exists []. split; [done|]. by intros r ?%elem_of_nil.
  - destruct (IH (S k)) as (results & Hall & Hsec).
    assert (imap ((λ i, request_port net (S (k + i))) ∘ S) ports
            = imap (λ i, request_port net (S (S k + i))) ports) as ->.
    { apply imap_ext. intros i x _. simpl. f_equal; lia. }
    rewrite Hall. unfold request_port at 1.
    rewrite bool_decide_eq_false_2 by lia.
    destruct (net port) as [response|message]; rewrite ?andb_false_r;
      (eexists; split; [done|]);
      intros r [->|Hr]%elem_of_cons; by auto.
Qed.

(** [fanOutRequest] on the configured ports is decided by the primary
    alone: it returns the primary's response when that response is ok,
    throws the primary's status when it is not, and throws the primary's
    error when the request is rejected, whatever the secondaries do. *)
Theorem fanOutRequest_is_primary_critical primaryPort parsed net :
  fanOutRequest (getWorkerPorts primaryPort parsed) net
  = match net primaryPort with
    | fulfilled response =>
        if ok response then inr response
        else inl (primary_returned primaryPort (status response))
    | rejected message => inl (primary_rejected message)
    end.
Proof.
  unfold fanOutRequest, getWorkerPorts. simpl.
  set (secondaries := filter _ _).
  destruct (promise_all_secondaries net secondaries 0) as (results & Hall & Hsec).
  assert (imap (request_port net ∘ S) secondaries
          = imap (λ i, request_port net (S (0 + i))) secondaries) as ->
    by (by apply imap_ext).
  rewrite Hall. unfold request_port. simpl.
  destruct (net primaryPort) as [response|message]; [|done].
  by destruct (ok response).
Qed.

End WorkerPorts.

(* ===================================================================== *)
(** * Properties of the pagination helper                                 *)
(* ===================================================================== *)

Section PaginationFacts.
Import Pagination.

Lemma strongly_sorted_take_drop {A} (R : relation A) (n m : nat) (l : list A) :
  StronglySorted R l → StronglySorted R (take n (drop m l)).
Proof.
  intros Hsorted.
  rewrite <-(take_drop m l) in Hsorted.
  apply StronglySorted_app_1_r in Hsorted.
  rewrite <-(take_drop n (drop m l)) in Hsorted.
  by apply StronglySorted_app_1_l in Hsorted.
Qed.

Lemma elem_of_take_drop {A} (n m : nat) (l : list A) (x : A) :
  x ∈ take n (drop m l) → x ∈ l.
Proof.
  intros Hin. apply (subseteq_take n) in Hin.
  rewrite <-(take_drop m l). apply elem_of_app. by right.
Qed.

(** [paginate] with a non-negative offset and limit answers with a page
    of the rows of the requested project (of all rows when no project, or
    the empty one, is given): the page is sorted newest first, holds
    [limit] rows or as many as are left after skipping [offset] of them,
    and [hasMore] tells exactly whether matching rows remain after the
    page.  With limit -1 the page is empty and claims that there is more;
    a negative offset, or a limit below -1, is rejected by the server. *)
Theorem paginate_page {A} (rows : list A) (project_of : A → string) (epoch_of : A → Z)
    (offset limit : Z) (project : option string) :
  (0 ≤ offset → 0 ≤ limit →
   ∃ page,
     paginate rows project_of epoch_of offset limit project = Sessions.Ok page
     ∧ (∀ r, r ∈ items page →
             r ∈ rows ∧ Sessions.project_clause project (project_of r) = true)
     ∧ StronglySorted (λ a b, epoch_of b ≤ epoch_of a) (items page)
     ∧ Z.of_nat (length (items page))
       = Z.min limit
           (Z.max 0
              (Z.of_nat (length
                 (filter (λ r, Sessions.project_clause project (project_of r) = true)
                         rows)) - offset))
     ∧ (hasMore page = true
        ↔ offset + limit
          < Z.of_nat (length
              (filter (λ r, Sessions.project_clause project (project_of r) = true)
                      rows)))
     ∧ Pagination.offset page = offset
     ∧ Pagination.limit page = limit)
  ∧ (0 ≤ offset →
     paginate rows project_of epoch_of offset (-1) project
     = Sessions.Ok {| items := []; hasMore := true;
                      Pagination.offset := offset; Pagination.limit := -1 |})
  ∧ (offset < 0 ∨ limit < -1 →
     paginate rows project_of epoch_of offset limit project
     = Sessions.Err Sessions.invalid_row_count).
Proof.
  unfold paginate, skip, Sessions.limit.
  set (matching := filter _ rows).
  set (ordered := Sessions.order_by_desc epoch_of matching).
  split; [|split].
  - intros Hoffset Hlimit.
    destruct (Z.ltb_spec offset 0); [lia|].
    destruct (Z.ltb_spec (limit + 1) 0); [lia|].
    eexists. split; [done|]. simpl.
    assert (slice_to limit (take (Z.to_nat (limit + 1)) (drop (Z.to_nat offset) ordered))
            = take (Z.to_nat limit) (drop (Z.to_nat offset) ordered)) as ->.
    { unfold slice_to. destruct (Z.leb_spec 0 limit); [|lia].
      rewrite take_take. f_equal. lia. }
    assert (Z.of_nat (length (take (Z.to_nat limit) (drop (Z.to_nat offset) ordered)))
            = Z.min limit (Z.max 0 (Z.of_nat (length matching) - offset))) as Hlength.
    { rewrite length_take, length_drop. unfold ordered.
      rewrite order_by_desc_length. lia. }
    split; [|split; [|split; [|split; [|done]]]].
    + intros r Hin. apply elem_of_take_drop in Hin.
      apply order_by_desc_elem_of in Hin.
      apply list_elem_of_filter in Hin as [? ?]. by split.
    + apply strongly_sorted_take_drop, order_by_desc_sorted.
    + done.
    + rewrite length_take, length_drop. unfold ordered.
      rewrite order_by_desc_length. rewrite Z.ltb_lt. lia.
  - intros Hoffset. destruct (Z.ltb_spec offset 0); [lia|]. simpl.
    by rewrite take_0.
  - intros [Hoffset|Hlimit].
    + by destruct (Z.ltb_spec offset 0); [|lia].
    + destruct (Z.ltb_spec offset 0); [done|].
      by destruct (Z.ltb_spec (limit + 1) 0); [|lia].
Qed.

End PaginationFacts.
